(** * Data-Extractor: the extraction and validation pipeline

    A shallow embedding of [validators.py] (class [DataValidator]), of the
    extraction, upload and summary code of [app.py] and of the summary
    statistics of [dashboard.py], with the properties the specification
    states about them and further properties read off the code.

    Modelling conventions.
    - Python [str] is [string].  The character classes ([\d], [\s],
      [\w]), [strip] and the case mappings are Python's on the ASCII range;
      beyond it Python's follow Unicode, and here a character is a caseless
      symbol outside every class.  The theorems that depend on the
      difference assume the text to be ASCII ([isascii]).
    - A Python [float] is a binary64 number ([Float]); [int / int] and
      [float * int] round once, to nearest, ties to even.
    - A Python call that may raise is a computation in [outcome]; a
      [try]/[except Exception] is [catch].
    - The third-party packages ([re] apart) are not part of the repository:
      [fitz], [spacy], [phonenumbers], [email_validator], [nameparser] and
      the genderize HTTP call are the fields of a [Libs] record, and the
      system clock is a pair of readings.  [re] is embedded as a small
      backtracking matcher with Python's priorities.
    - The module-level list [extracted_data] is threaded as explicit
      state. *)

From stdpp Require Import base option list gmap strings.
From Stdlib Require Import Ascii String ZArith QArith Qround Qabs Qpower.
From Stdlib Require Import Lqa Lia SpecFloat.

Open Scope string_scope.
Open Scope nat_scope.

(* ================================================================== *)
(** * Python values, exceptions and outcomes *)
(* ================================================================== *)

Module Py.

(** The exception classes the two modules can meet; the payload is [str(e)]. *)
Inductive exn :=
| TypeError (msg : string)
| AttributeError (msg : string)
| ValueError (msg : string)
| KeyError (msg : string)
| EmailNotValidError (msg : string)
| NumberParseException (msg : string)
| OtherError (msg : string).

Definition exn_str (e : exn) : string :=
  match e with
  | TypeError m | AttributeError m | ValueError m | KeyError m
  | EmailNotValidError m | NumberParseException m | OtherError m => m
  end.

Inductive outcome (A : Type) :=
| Ret (a : A)
| Raise (e : exn).
Arguments Ret {A} a.
Arguments Raise {A} e.

Definition bind {A B} (m : outcome A) (k : A -> outcome B) : outcome B :=
  match m with
  | Ret a => k a
  | Raise e => Raise e
  end.

(** [try: m except Exception as e: h e] *)
Definition catch {A} (m : outcome A) (h : exn -> A) : A :=
  match m with
  | Ret a => a
  | Raise e => h e
  end.

Definition raises {A} (m : outcome A) : bool :=
  match m with Ret _ => false | Raise _ => true end.

(** The arguments a validator can be handed: [None], an [int] (a
    [bool] is one), a [str], a [bytes] object, and an object of any other
    class that has none of the methods of [str] and is not bytes-like
    (a float, a list, an array), given with what its truth test does. *)
Inductive pyobj :=
| VNone
| VInt (z : Z)
| VStr (s : string)
| VBytes (b : list Byte.byte)
| VObj (truth_test : outcome bool).

Definition is_str (v : pyobj) : bool :=
  match v with VStr _ => true | _ => false end.

(** Python truthiness, [bool(v)]: the truth test of an object may
    raise, as that of a numpy array or of [pandas.NA] does. *)
Definition truth (v : pyobj) : outcome bool :=
  match v with
  | VNone => Ret false
  | VInt z => Ret (negb (Z.eqb z 0))
  | VStr s => Ret (negb (String.eqb s ""))
  | VBytes b => Ret (match b with [] => false | _ => true end)
  | VObj truth_test => truth_test
  end.

End Py.
Export Py.

#[global] Instance outcome_ret : MRet outcome := fun _ a => Ret a.
#[global] Instance outcome_bind : MBind outcome := fun _ _ k m => bind m k.

(* ================================================================== *)
(** * Characters and the [str] methods in use *)
(* ================================================================== *)

Module Str.

Definition code (c : ascii) : N := N_of_ascii c.

Definition in_range (lo hi c : ascii) : bool :=
  (code lo <=? code c)%N && (code c <=? code hi)%N.

Definition is_digit (c : ascii) : bool := in_range "0" "9" c.
Definition is_upper (c : ascii) : bool := in_range "A" "Z" c.
Definition is_lower (c : ascii) : bool := in_range "a" "z" c.
Definition is_alpha (c : ascii) : bool := is_upper c || is_lower c.

(** [str.isspace] on ASCII: tab to carriage return, the four
    separators 0x1c to 0x1f, and space. *)
Definition is_space (c : ascii) : bool :=
  ((9 <=? code c)%N && (code c <=? 13)%N)
  || ((28 <=? code c)%N && (code c <=? 32)%N).

Definition nonblank (c : ascii) : bool := negb (is_space c).

(** A character of the ASCII range. *)
Definition is_ascii (c : ascii) : bool := (code c <? 128)%N.

(** [\w] on ASCII *)
Definition is_word (c : ascii) : bool :=
  is_alpha c || is_digit c || Ascii.eqb c "_".

(** The case mappings of an ASCII character. *)
Definition upper_char (c : ascii) : ascii :=
  if is_lower c then ascii_of_N (code c - 32) else c.
Definition lower_char (c : ascii) : ascii :=
  if is_upper c then ascii_of_N (code c + 32) else c.

Fixpoint smap (f : ascii -> ascii) (s : string) : string :=
  match s with
  | EmptyString => EmptyString
  | String c s' => String (f c) (smap f s')
  end.

Fixpoint sfilter (p : ascii -> bool) (s : string) : string :=
  match s with
  | EmptyString => EmptyString
  | String c s' => if p c then String c (sfilter p s') else sfilter p s'
  end.

Fixpoint sall (p : ascii -> bool) (s : string) : bool :=
  match s with
  | EmptyString => true
  | String c s' => p c && sall p s'
  end.

(** [s.upper()], [s.lower()] *)
Definition upper : string -> string := smap upper_char.
Definition lower : string -> string := smap lower_char.

(** [s.isascii()] *)
Definition isascii : string -> bool := sall is_ascii.

(** [s.replace(' ', '')] *)
Definition remove_spaces : string -> string :=
  sfilter (fun c => negb (Ascii.eqb c " ")).

Fixpoint lstrip (s : string) : string :=
  match s with
  | String c s' => if is_space c then lstrip s' else s
  | EmptyString => EmptyString
  end.

(** Drops trailing whitespace: a character stays when something
    non-blank follows it or it is itself non-blank. *)
Fixpoint rstrip (s : string) : string :=
  match s with
  | EmptyString => EmptyString
  | String c s' =>
      match rstrip s' with
      | EmptyString => if is_space c then EmptyString else String c EmptyString
      | t => String c t
      end
  end.

(** [s.strip()] *)
Definition strip (s : string) : string := rstrip (lstrip s).

(** [s.startswith(p)] *)
Fixpoint startswith (p s : string) : bool :=
  match p, s with
  | EmptyString, _ => true
  | String a p', String b s' => Ascii.eqb a b && startswith p' s'
  | String _ _, EmptyString => false
  end.

(** [s.endswith(p)] *)
Fixpoint endswith (p s : string) : bool :=
  String.eqb p s ||
  match s with
  | EmptyString => false
  | String _ s' => endswith p s'
  end.

(** [s.split()]: the maximal runs of non-blank characters. *)
Fixpoint split_go (cur : string) (s : string) : list string :=
  match s with
  | EmptyString => match cur with EmptyString => [] | _ => [cur] end
  | String c s' =>
      if is_space c
      then match cur with
           | EmptyString => split_go EmptyString s'
           | _ => cur :: split_go EmptyString s'
           end
      else split_go (cur ++ String c EmptyString) s'
  end.
Definition split (s : string) : list string := split_go EmptyString s.

(** [sep.join(parts)] *)
Definition join (sep : string) (parts : list string) : string :=
  String.concat sep parts.

(** [s[:n]] and [s[n:]] for [0 <= n]. *)
Fixpoint take (n : nat) (s : string) : string :=
  match n, s with
  | S n', String c s' => String c (take n' s')
  | _, _ => EmptyString
  end.
Fixpoint drop (n : nat) (s : string) : string :=
  match n, s with
  | S n', String _ s' => drop n' s'
  | _, _ => s
  end.

End Str.
Export Str.

(* ================================================================== *)
(** * The [re] module: a backtracking matcher *)
(* ================================================================== *)

Module Re.

(** One item of a bracketed class, or a class escape. *)
Inductive citem :=
| CChar (c : ascii)
| CRange (lo hi : ascii)
| CDigit
| CSpace
| CWord.

(** The pattern syntax the two modules use.  [RRep r lo hi] is the greedy
    [r{lo,hi}]; [hi = None] is an open bound ([*], [+], [{n,}]). *)
Inductive regex :=
| REps
| RCls (neg : bool) (items : list citem)
| RSeq (r1 r2 : regex)
| RAlt (r1 r2 : regex)
| RRep (r : regex) (lo : nat) (hi : option nat)
| RBol
| REol
| RWordB.

Record flags := { ignorecase : bool; multiline : bool }.
Definition no_flags : flags := {| ignorecase := false; multiline := false |}.
Definition IGNORECASE : flags := {| ignorecase := true; multiline := false |}.
Definition MULTILINE : flags := {| ignorecase := false; multiline := true |}.

(** Whether a character of an ASCII text is in the class; [IGNORECASE]
    folds the case of the ASCII letters. *)
Definition citem_match (fl : flags) (c : ascii) (it : citem) : bool :=
  match it with
  | CChar x =>
      if ignorecase fl then Ascii.eqb (lower_char c) (lower_char x)
      else Ascii.eqb c x
  | CRange lo hi =>
      in_range lo hi c
      || (ignorecase fl
          && (in_range lo hi (lower_char c) || in_range lo hi (upper_char c)))
  | CDigit => is_digit c
  | CSpace => is_space c
  | CWord => is_word c
  end.

Definition cls_match (fl : flags) (neg : bool) (items : list citem)
    (c : ascii) : bool :=
  xorb neg (existsb (citem_match fl c) items).

(** A position in the subject: the character before it, if any, and
    what is left to read. *)
Definition pos : Type := option ascii * string.

Definition word_before (p : pos) : bool :=
  match fst p with Some c => is_word c | None => false end.
Definition word_after (p : pos) : bool :=
  match snd p with String c _ => is_word c | EmptyString => false end.

Definition at_bol (fl : flags) (p : pos) : bool :=
  match fst p with
  | None => true
  | Some c => multiline fl && Ascii.eqb c "010"
  end.

(** [$]: at the end, or just before a final newline; with [MULTILINE],
    before any newline. *)
Definition at_eol (fl : flags) (p : pos) : bool :=
  match snd p with
  | EmptyString => true
  | String c rest =>
      Ascii.eqb c "010"
      && (multiline fl || match rest with EmptyString => true | _ => false end)
  end.

(** Greedy repetition of one step: another round is tried before
    stopping, as the engine does.  [need] rounds are still owed and at most
    [fuel] more are allowed. *)
Fixpoint rep_go (step : pos -> list pos) (fuel need : nat) (p : pos)
    : list pos :=
  match fuel with
  | O => []
  | S fuel' => flat_map (rep_go step fuel' (pred need)) (step p)
  end ++ (if need =? 0 then [p] else []).

(** Every way [r] matches from [p], best first: the head is the match
    the engine reports. *)
Fixpoint rmatch (fl : flags) (r : regex) (p : pos) : list pos :=
  match r with
  | REps => [p]
  | RCls neg items =>
      match snd p with
      | String c rest =>
          if cls_match fl neg items c then [(Some c, rest)] else []
      | EmptyString => []
      end
  | RSeq r1 r2 => flat_map (rmatch fl r2) (rmatch fl r1 p)
  | RAlt r1 r2 => rmatch fl r1 p ++ rmatch fl r2 p
  | RRep r lo hi =>
      rep_go (rmatch fl r)
        (match hi with Some h => h | None => lo + String.length (snd p) end)
        lo p
  | RBol => if at_bol fl p then [p] else []
  | REol => if at_eol fl p then [p] else []
  | RWordB => if xorb (word_before p) (word_after p) then [p] else []
  end.

(** The text between a position and a later one. *)
Definition consumed (s rest : string) : string :=
  take (String.length s - String.length rest) s.

(** The match starting exactly at [p], as [m.group()] and the position
    after it. *)
Definition match_at (fl : flags) (r : regex) (p : pos)
    : option (string * pos) :=
  match rmatch fl r p with
  | q :: _ => Some (consumed (snd p) (snd q), q)
  | [] => None
  end.

(** [re.match(r, s, fl)] *)
Definition re_match (fl : flags) (r : regex) (s : string) : option string :=
  fst <$> match_at fl r (None, s).

(** The scan shared by [re.finditer] and [re.sub]: [skip] characters are
    still inside the previous match.  An empty match moves on by one
    character.  Each match comes with the unmatched text before it; the
    text after the last match is returned too. *)
Fixpoint scan (fl : flags) (r : regex) (prev : option ascii) (s : string)
    (skip : nat) (gap : string) : list (string * string) * string :=
  match skip with
  | S k =>
      match s with
      | String c s' => scan fl r (Some c) s' k gap
      | EmptyString => ([], gap)
      end
  | O =>
      match match_at fl r (prev, s) with
      | Some (m, _) =>
          match s with
          | String c s' =>
              let '(ms, tl) :=
                scan fl r (Some c) s' (String.length m - 1)
                  (match m with EmptyString => String c EmptyString
                              | _ => EmptyString end) in
              ((gap, m) :: ms, tl)
          | EmptyString => ([(gap, m)], EmptyString)
          end
      | None =>
          match s with
          | String c s' => scan fl r (Some c) s' 0 (gap ++ String c EmptyString)
          | EmptyString => ([], gap)
          end
      end
  end.

(** [[m.group() for m in re.finditer(r, s, fl)]] *)
Definition finditer (fl : flags) (r : regex) (s : string) : list string :=
  snd <$> fst (scan fl r None s 0 EmptyString).

(** [re.sub(r, repl, s)] for a replacement without group references. *)
Definition re_sub (r : regex) (repl : string) (s : string) : string :=
  let '(ms, tl) := scan no_flags r None s 0 EmptyString in
  fold_right (fun gm rest => fst gm ++ repl ++ rest) tl ms.

(** ** Pattern combinators *)

Definition chr (c : ascii) : regex := RCls false [CChar c].
Definition rng (lo hi : ascii) : regex := RCls false [CRange lo hi].
Definition digit : regex := RCls false [CDigit].
Definition times (n : nat) (r : regex) : regex := RRep r n (Some n).
Definition between (lo hi : nat) (r : regex) : regex := RRep r lo (Some hi).
Definition at_least (lo : nat) (r : regex) : regex := RRep r lo None.
Definition opt (r : regex) : regex := RRep r 0 (Some 1).

Fixpoint rseq (rs : list regex) : regex :=
  match rs with
  | [] => REps
  | [r] => r
  | r :: rs' => RSeq r (rseq rs')
  end.

Fixpoint ralt (rs : list regex) : regex :=
  match rs with
  | [] => RCls false []
  | [r] => r
  | r :: rs' => RAlt r (ralt rs')
  end.

(** The pattern of a string without metacharacters, and so of
    [re.escape(s)] for any [s]. *)
Fixpoint literal (s : string) : regex :=
  match s with
  | EmptyString => REps
  | String c s' => RSeq (chr c) (literal s')
  end.

End Re.
Export Re.

(* ================================================================== *)
(** * The third-party packages *)
(* ================================================================== *)

(** What [nameparser.HumanName(s)] exposes to the callers: the parsed
    parts, [str(name)], and the two membership tests
    [part in name.titles] and [part in name.suffixes], which are
    attribute look-ups and may raise. *)
Record human_name := {
  hn_first : string;
  hn_middle : string;
  hn_last : string;
  hn_str : string;
  hn_in_titles : string -> outcome bool;
  hn_in_suffixes : string -> outcome bool
}.

(** The result of [email_validator.validate_email]. *)
Record validated_email := { normalized : string; email : string }.

Inductive phone_format := E164 | INTERNATIONAL.

(** An entity of a spaCy document: [ent.label_] and [ent.text]. *)
Record entity := { label_ : string; text : string }.

(** The reply of [requests.get] to the genderize query: the status code
    and the ['probability'] member of the JSON body, if there is one. *)
Record http_reply := { status_code : nat; probability : option Q }.

Record Libs := {
  phone_number : Type;
  HumanName : string -> outcome human_name;
  pn_parse : string -> option string -> outcome phone_number;
  pn_is_valid_number : phone_number -> bool;
  pn_format_number : phone_number -> phone_format -> string;
  validate_email : string -> outcome validated_email;
  nlp : string -> outcome (list entity);
  genderize : string -> outcome http_reply;
  secure_filename : string -> string
}.

(* ================================================================== *)
(** * [datetime]: the part of [strptime] and [strftime] in use *)
(* ================================================================== *)

Module Datetime.

(** A [datetime]: the calendar date and the microseconds since
    midnight. *)
Record datetime := { year : Z; month : Z; day : Z; micros : N }.

#[local] Open Scope Z_scope.

Definition is_leap (y : Z) : bool :=
  ((y mod 4 =? 0) && negb (y mod 100 =? 0)) || (y mod 400 =? 0).

Definition days_in_month (y m : Z) : Z :=
  match m with
  | 2 => if is_leap y then 29 else 28
  | 4 | 6 | 9 | 11 => 30
  | _ => 31
  end.

(** The check of the [date] constructor ([MINYEAR = 1],
    [MAXYEAR = 9999]). *)
Definition date_ok (y m d : Z) : bool :=
  (1 <=? y) && (y <=? 9999) && (1 <=? m) && (m <=? 12)
  && (1 <=? d) && (d <=? days_in_month y m).

(** [a > b] on datetimes. *)
Definition dt_gt (a b : datetime) : bool :=
  (year b <? year a)
  || ((year a =? year b)
      && ((month b <? month a)
          || ((month a =? month b)
              && ((day b <? day a)
                  || ((day a =? day b) && (micros b <? micros a)%N))))).

(** The directives and literals of a format string. *)
Inductive fitem :=
| Fd            (* %d *)
| Fm            (* %m *)
| FY            (* %Y *)
| Fb            (* %b *)
| FB            (* %B *)
| FLit (c : ascii)
| FSpace.       (* a run of blanks in the format *)

Definition month_abbr : list string :=
  ["jan"; "feb"; "mar"; "apr"; "may"; "jun";
   "jul"; "aug"; "sep"; "oct"; "nov"; "dec"].
Definition month_name : list string :=
  ["january"; "february"; "march"; "april"; "may"; "june"; "july";
   "august"; "september"; "october"; "november"; "december"].

(** The alternatives of [%B], longest first as [_strptime] sorts
    them.  The month names are those of the C locale. *)
Definition month_name_by_length : list string :=
  ["september"; "february"; "november"; "december"; "january"; "october";
   "august"; "march"; "april"; "june"; "july"; "may"].

(** The regular expression [_strptime] puts for each item, read on
    ASCII text. *)
Definition item_regex (it : fitem) : regex :=
  match it with
  | Fd => ralt [RSeq (chr "3") (rng "0" "1");
                RSeq (rng "1" "2") digit;
                RSeq (chr "0") (rng "1" "9");
                rng "1" "9";
                RSeq (chr " ") (rng "1" "9")]
  | Fm => ralt [RSeq (chr "1") (rng "0" "2");
                RSeq (chr "0") (rng "1" "9");
                rng "1" "9"]
  | FY => times 4 digit
  | Fb => ralt (map literal month_abbr)
  | FB => ralt (map literal month_name_by_length)
  | FLit c => chr c
  | FSpace => at_least 1 (RCls false [CSpace])
  end.

(** [int(s)] on a string of decimal digits, blanks around it
    ignored. *)
Definition digit_val (c : ascii) : Z := Z.of_N (code c) - 48.
Definition int_of (s : string) : Z :=
  (fix go (acc : Z) (s : string) :=
     match s with
     | EmptyString => acc
     | String c s' => go (10 * acc + digit_val c) s'
     end) 0 (strip s).

(** [l.index(x) + 1] *)
Fixpoint month_index (x : string) (l : list string) : option Z :=
  match l with
  | [] => None
  | y :: l' => if String.eqb x y then Some 1 else Z.succ <$> month_index x l'
  end.

(** The fields gathered so far: year, month, day. *)
Definition fields : Type := Z * Z * Z.

Definition set_field (it : fitem) (txt : string) (f : fields) : fields :=
  let '(y, m, d) := f in
  match it with
  | Fd => (y, m, int_of txt)
  | Fm => (y, int_of txt, d)
  | FY => (int_of txt, m, d)
  | Fb => (y, default 0 (month_index (lower txt) month_abbr), d)
  | FB => (y, default 0 (month_index (lower txt) month_name), d)
  | FLit _ | FSpace => f
  end.

(** All parses of the items from a position, in the engine's order. *)
Fixpoint parse_items (items : list fitem) (f : fields) (p : pos)
    : list (fields * pos) :=
  match items with
  | [] => [(f, p)]
  | it :: rest =>
      flat_map
        (fun q => parse_items rest (set_field it (consumed (snd p) (snd q)) f) q)
        (rmatch IGNORECASE (item_regex it) p)
  end.

(** [datetime.strptime(s, fmt)]: the first parse, which must reach the
    end of [s] and name a real date.  The defaults are those of
    [_strptime]: 1900-01-01. *)
Definition strptime (s : string) (fmt : list fitem) : outcome datetime :=
  match parse_items fmt (1900, 1, 1) (None, s) with
  | [] => Raise (ValueError "time data does not match format")
  | ((y, m, d), (_, rest)) :: _ =>
      match rest with
      | EmptyString =>
          if date_ok y m d
          then Ret {| year := y; month := m; day := d; micros := 0 |}
          else Raise (ValueError "day is out of range for month")
      | _ => Raise (ValueError "unconverted data remains")
      end
  end.

Definition digit_char (n : Z) : ascii := ascii_of_N (Z.to_N (48 + n mod 10)).
Definition pad2 (n : Z) : string :=
  String (digit_char (n / 10)) (String (digit_char n) EmptyString).
Definition pad4 (n : Z) : string :=
  String (digit_char (n / 1000)) (String (digit_char (n / 100))
    (String (digit_char (n / 10)) (String (digit_char n) EmptyString))).

(** [dt.strftime('%Y-%m-%d')] *)
Definition strftime_iso (dt : datetime) : string :=
  (pad4 (year dt) ++ "-" ++ pad2 (month dt) ++ "-" ++ pad2 (day dt))%string.

(** The two readings of [datetime.now()] one call of the date validator
    makes, in order. *)
Record clock := { now_year : datetime; now_cmp : datetime }.

End Datetime.
Export Datetime.

(* ================================================================== *)
(** * validators.py: class [DataValidator] *)
(* ================================================================== *)

Module DataValidator.

(** What a validator returns: the formatted value, the message, the
    verdict. *)
Definition verdict : Type := option string * option string * string.

Definition accepted (v : string) : verdict := (Some v, None, "correct").
Definition rejected (msg : string) : verdict := (None, Some msg, "wrong").

(** The guard [if not value or not isinstance(value, str)], which
    stands before the [try]: [Some s] exactly when it lets [value]
    through, and the exception of the truth test when that raises. *)
Definition guarded (v : pyobj) : outcome (option string) :=
  t ← truth v;
  Ret (if negb t || negb (is_str v) then None
       else match v with VStr s => Some s | _ => None end).

(** A [str] argument of [re.sub] or [re.match]. *)
Definition re_arg (v : pyobj) : outcome string :=
  match v with
  | VStr s => Ret s
  | VBytes _ =>
      Raise (TypeError "cannot use a string pattern on a bytes-like object")
  | VNone | VInt _ | VObj _ =>
      Raise (TypeError "expected string or bytes-like object")
  end.

(** [value.upper().replace(' ', '')] *)
Definition upper_nospace (v : pyobj) : outcome string :=
  match v with
  | VStr s => Ret (remove_spaces (upper s))
  | VBytes _ => Raise (TypeError "a bytes-like object is required, not 'str'")
  | VNone => Raise (AttributeError "'NoneType' object has no attribute 'upper'")
  | VInt _ => Raise (AttributeError "'int' object has no attribute 'upper'")
  | VObj _ => Raise (AttributeError "object has no attribute 'upper'")
  end.

Section WithLibs.
Variable L : Libs.

(** ** Names *)

(** [^[A-Z][a-zA-Z\'-]*$] *)
Definition name_part_re : regex :=
  rseq [RBol; rng "A" "Z";
        RRep (RCls false [CRange "a" "z"; CRange "A" "Z"; CChar "'"; CChar "-"])
             0 None;
        REol].

(** The loop over the parts; [Some v] is the early [return]. *)
Fixpoint check_name_parts (name : human_name) (parts : list string)
    : outcome (option verdict) :=
  match parts with
  | [] => Ret None
  | part :: rest =>
      t ← hn_in_titles name part;
      skip ← (if t : bool then Ret true else hn_in_suffixes name part);
      if skip : bool then check_name_parts name rest
      else match re_match no_flags name_part_re part with
           | None => Ret (Some (rejected ("Invalid name part: " ++ part)))
           | Some _ =>
               if String.length part <? 2
               then Ret (Some (rejected ("Name part too short: " ++ part)))
               else if 20 <? String.length part
               then Ret (Some (rejected ("Name part too long: " ++ part)))
               else check_name_parts name rest
           end
  end.

Definition validate_and_format_full_name (value : pyobj) : outcome verdict :=
  g ← guarded value;
  match g with
  | None => Ret (rejected "Invalid name format")
  | Some value =>
      Ret (catch
        (let value := strip value in
         name ← HumanName L value;
         if String.eqb (hn_first name) "" && String.eqb (hn_last name) ""
         then Ret (rejected "Invalid name format")
         else
           let formatted := hn_str name in
           let name_parts := split formatted in
           if 5 <? List.length name_parts
           then Ret (rejected "Name has too many parts")
           else
             bad ← check_name_parts name name_parts;
             match bad with
             | Some v => Ret v
             | None => Ret (accepted formatted)
             end)
        (fun e => rejected ("Error validating name: " ++ exn_str e)))
  end.

(** ** Dates *)

Definition formats : list (list fitem) :=
  [ [Fd; FLit "/"; Fm; FLit "/"; FY];      (* '%d/%m/%Y' *)
    [Fm; FLit "/"; Fd; FLit "/"; FY];      (* '%m/%d/%Y' *)
    [FY; FLit "/"; Fm; FLit "/"; Fd];      (* '%Y/%m/%d' *)
    [Fd; FLit "-"; Fm; FLit "-"; FY];      (* '%d-%m-%Y' *)
    [Fm; FLit "-"; Fd; FLit "-"; FY];      (* '%m-%d-%Y' *)
    [FY; FLit "-"; Fm; FLit "-"; Fd];      (* '%Y-%m-%d' *)
    [Fd; FSpace; Fb; FSpace; FY];          (* '%d %b %Y' *)
    [Fd; FSpace; FB; FSpace; FY] ].        (* '%d %B %Y' *)

(** The loop over the formats: the first that parses wins, a
    [ValueError] moves on and any other exception leaves the loop. *)
Fixpoint try_formats (value : string) (fmts : list (list fitem))
    : outcome (option datetime) :=
  match fmts with
  | [] => Ret None
  | fmt :: rest =>
      match strptime value fmt with
      | Ret d => Ret (Some d)
      | Raise (ValueError _) => try_formats value rest
      | Raise e => Raise e
      end
  end.

Definition validate_and_format_date (clk : clock) (value : pyobj)
    : outcome verdict :=
  g ← guarded value;
  match g with
  | None => Ret (rejected "Invalid date format")
  | Some value =>
      Ret (catch
        (let value := strip value in
         parsed ← try_formats value formats;
         match parsed with
         | None => Ret (rejected "Invalid date format")
         | Some parsed_date =>
             let current_year := year (now_year clk) in
             let y := year parsed_date in
             if ((y <? 1900) || (current_year <? y))%Z
             then Ret (rejected "Year out of reasonable range")
             else if dt_gt parsed_date (now_cmp clk)
             then Ret (rejected "Date cannot be in the future")
             else Ret (accepted (strftime_iso parsed_date))
         end)
        (fun e => rejected ("Error validating date: " ++ exn_str e)))
  end.

(** ** Phone numbers *)

(** [[^\d+\-]] *)
Definition not_phone_char : regex :=
  RCls true [CDigit; CChar "+"; CChar "-"].

Definition validate_and_format_phone (value : pyobj) : outcome verdict :=
  g ← guarded value;
  match g with
  | None => Ret (rejected "Invalid phone number format")
  | Some value =>
      Ret (catch
        (let cleaned := re_sub not_phone_char "" value in
         let cleaned :=
           if negb (startswith "+" cleaned) then "+91" ++ cleaned
           else cleaned in
         number ← pn_parse L cleaned None;
         if pn_is_valid_number L number
         then Ret (accepted (pn_format_number L number INTERNATIONAL))
         else
           if negb (startswith "+" cleaned)
           then
             number ← pn_parse L cleaned (Some "IN");
             if pn_is_valid_number L number
             then Ret (accepted (pn_format_number L number INTERNATIONAL))
             else Ret (rejected "Invalid phone number")
           else Ret (rejected "Invalid phone number"))
        (fun e => rejected ("Error validating phone: " ++ exn_str e)))
  end.

(** ** E-mail addresses *)

Definition validate_and_format_email (value : pyobj) : outcome verdict :=
  g ← guarded value;
  match g with
  | None => Ret (rejected "Invalid email format")
  | Some value =>
      Ret (match validate_email L (strip value) with
           | Ret validated => accepted (normalized validated)
           | Raise (EmailNotValidError m) => (None, Some m, "wrong")
           | Raise e => rejected ("Error validating email: " ++ exn_str e)
           end)
  end.

End WithLibs.

(** ** Identifiers checked by a pattern *)

(** [s[a:b]] *)
Definition slice (a b : nat) (s : string) : string := take (b - a) (drop a s).

(** [[-\s]] *)
Definition hyphen_or_space : regex := RCls false [CChar "-"; CSpace].
(** [^\d{12}$] *)
Definition aadhar_re : regex := rseq [RBol; times 12 digit; REol].

Definition validate_and_format_aadhar (value : pyobj) : outcome verdict :=
  value ← re_arg value;
  let cleaned := re_sub hyphen_or_space "" value in
  match re_match no_flags aadhar_re cleaned with
  | Some _ =>
      Ret (accepted (slice 0 4 cleaned ++ "-" ++ slice 4 8 cleaned
                     ++ "-" ++ drop 8 cleaned))
  | None => Ret (rejected "Invalid Aadhar number")
  end.

(** [^[A-Z]{5}[0-9]{4}[A-Z]{1}$] *)
Definition pan_re : regex :=
  rseq [RBol; times 5 (rng "A" "Z"); times 4 (rng "0" "9");
        times 1 (rng "A" "Z"); REol].

Definition validate_and_format_pan (value : pyobj) : outcome verdict :=
  cleaned ← upper_nospace value;
  match re_match no_flags pan_re cleaned with
  | Some _ => Ret (accepted cleaned)
  | None => Ret (rejected "Invalid PAN number")
  end.

Definition upper_or_digit : regex := RCls false [CRange "A" "Z"; CRange "0" "9"].

(** [^[A-Z0-9]{6,9}$] *)
Definition passport_re : regex := rseq [RBol; between 6 9 upper_or_digit; REol].

Definition validate_and_format_passport (value : pyobj) : outcome verdict :=
  cleaned ← upper_nospace value;
  match re_match no_flags passport_re cleaned with
  | Some _ => Ret (accepted cleaned)
  | None => Ret (rejected "Invalid passport number")
  end.

(** [^[A-Z]{3}[0-9]{7}$] *)
Definition voter_id_re : regex :=
  rseq [RBol; times 3 (rng "A" "Z"); times 7 (rng "0" "9"); REol].

Definition validate_and_format_voter_id (value : pyobj) : outcome verdict :=
  cleaned ← upper_nospace value;
  match re_match no_flags voter_id_re cleaned with
  | Some _ => Ret (accepted cleaned)
  | None => Ret (rejected "Invalid Voter ID number")
  end.

(** [^[A-Z]{2}[0-9]{2}[A-Z0-9]{1,2}[0-9]{4,7}$] *)
Definition driving_license_re : regex :=
  rseq [RBol; times 2 (rng "A" "Z"); times 2 (rng "0" "9");
        between 1 2 upper_or_digit; between 4 7 (rng "0" "9"); REol].

Definition validate_and_format_driving_license (value : pyobj)
    : outcome verdict :=
  cleaned ← upper_nospace value;
  match re_match no_flags driving_license_re cleaned with
  | Some _ => Ret (accepted cleaned)
  | None => Ret (rejected "Invalid driving license number")
  end.

(** [[^\d]] *)
Definition non_digit : regex := RCls true [CDigit].
(** [^\d{8,18}$] *)
Definition bank_account_re : regex := rseq [RBol; between 8 18 digit; REol].

Definition validate_and_format_bank_account (value : pyobj) : outcome verdict :=
  value ← re_arg value;
  let cleaned := re_sub non_digit "" value in
  match re_match no_flags bank_account_re cleaned with
  | Some _ => Ret (accepted cleaned)
  | None => Ret (rejected "Invalid bank account number")
  end.

Definition d09 : regex := rng "0" "9".

(** The issuer alternatives:
    [4[0-9]{12}(?:[0-9]{3})?|5[1-5][0-9]{14}|6(?:011|5[0-9][0-9])[0-9]{12}|
     3[47][0-9]{13}|3(?:0[0-5]|[68][0-9])[0-9]{11}|(?:2131|1800|35\d{3})\d{11}] *)
Definition card_issuers : regex :=
  ralt [ rseq [chr "4"; times 12 d09; opt (times 3 d09)];
         rseq [chr "5"; rng "1" "5"; times 14 d09];
         rseq [chr "6"; RAlt (literal "011") (rseq [chr "5"; d09; d09]);
               times 12 d09];
         rseq [chr "3"; RCls false [CChar "4"; CChar "7"]; times 13 d09];
         rseq [chr "3";
               RAlt (RSeq (chr "0") (rng "0" "5"))
                    (RSeq (RCls false [CChar "6"; CChar "8"]) d09);
               times 11 d09];
         rseq [ralt [literal "2131"; literal "1800";
                     RSeq (literal "35") (times 3 digit)];
               times 11 digit] ].

Definition credit_card_re : regex := rseq [RBol; card_issuers; REol].

(** [[cleaned[i:i+4] for i in range(0, len(cleaned), 4)]] *)
Fixpoint chunks4 (fuel : nat) (s : string) : list string :=
  match fuel, s with
  | S fuel', String _ _ => take 4 s :: chunks4 fuel' (drop 4 s)
  | _, _ => []
  end.

Definition validate_and_format_credit_card (value : pyobj) : outcome verdict :=
  value ← re_arg value;
  let cleaned := re_sub non_digit "" value in
  match re_match no_flags credit_card_re cleaned with
  | Some _ => Ret (accepted (join "-" (chunks4 (String.length cleaned) cleaned)))
  | None => Ret (rejected "Invalid credit card number")
  end.

(** [25[0-5]|2[0-4][0-9]|[01]?[0-9][0-9]?] *)
Definition octet : regex :=
  ralt [ rseq [literal "25"; rng "0" "5"];
         rseq [chr "2"; rng "0" "4"; d09];
         rseq [opt (RCls false [CChar "0"; CChar "1"]); d09; opt d09] ].

(** [^(?:octet\.){3}octet$] *)
Definition ip_re : regex :=
  rseq [RBol; times 3 (RSeq octet (chr ".")); octet; REol].

Definition validate_and_format_ip (value : pyobj) : outcome verdict :=
  s ← re_arg value;
  match re_match no_flags ip_re s with
  | Some _ => Ret (accepted s)
  | None => Ret (rejected "Invalid IP address")
  end.

(** ** The table *)

Definition validator : Type := pyobj -> outcome verdict.

Definition validators (L : Libs) (clk : clock) : gmap string validator :=
  list_to_map
    [ ("full_name", validate_and_format_full_name L);
      ("date_of_birth", validate_and_format_date clk);
      ("mobile_number", validate_and_format_phone L);
      ("telephone_number", validate_and_format_phone L);
      ("email_address", validate_and_format_email L);
      ("aadhar_number", validate_and_format_aadhar);
      ("pan_number", validate_and_format_pan);
      ("passport_number", validate_and_format_passport);
      ("voter_id_number", validate_and_format_voter_id);
      ("driving_license_number", validate_and_format_driving_license);
      ("bank_account_number", validate_and_format_bank_account);
      ("credit_debit_card_number", validate_and_format_credit_card);
      ("ip_address", validate_and_format_ip) ].

(** [validators.get(data_type)] *)
Definition get_validator_for_type (L : Libs) (clk : clock)
    (data_type : string) : option validator :=
  validators L clk !! data_type.

End DataValidator.
Export DataValidator.

(* ================================================================== *)
(** * [float]: binary64 arithmetic *)
(* ================================================================== *)

Module Float.

(** A [float] is a binary64 number of the IEEE 754 specification of the
    standard library: 53 bits of precision, exponents below 1024. *)
Definition prec : Z := 53.
Definition emax : Z := 1024.

Definition float : Type := spec_float.

(** The float [m * 2 ^ e] of a mantissa [0 <= m] as it stands. *)
Definition from_parts (m e : Z) : float :=
  match m with
  | Zpos p => S754_finite false p e
  | _ => S754_zero false
  end.

(** [float(n)] *)
Definition of_int (n : Z) : float := binary_normalize prec emax n 0 false.

(** [a / b] for two integers [0 <= a] and [0 < b], as the callers have
    them: the quotient of the integers, rounded once, to nearest, ties to
    even. *)
Definition truediv (a b : Z) : float :=
  match a with
  | Zpos _ =>
      let '(m, e, l) := SFdiv_core_binary prec emax a 0 b 0 in
      binary_round_aux prec emax false m e l
  | _ => S754_zero false
  end.

(** [x * y] *)
Definition mul (x y : float) : float := SFmul prec emax x y.

(** The number a finite float stands for, exactly. *)
Definition value (x : float) : Q :=
  match x with
  | S754_finite s m e => (inject_Z (if s then Zneg m else Zpos m) * 2 ^ e)%Q
  | _ => 0%Q
  end.

End Float.

(* ================================================================== *)
(** * app.py *)
(* ================================================================== *)

Module App.

(** One result dictionary.  ['is_valid'] is set by [extract_data] only
    and ['filename'] by the upload routes. *)
Record result := {
  value : string;
  page : nat;
  status : string;
  validation_message : option string;
  pattern_type : string;
  is_valid : option bool;
  filename : option string
}.

Definition space : regex := RCls false [CSpace].
Definition hyphen_space : regex := RCls false [CChar "-"; CChar " "].
Definition alnum_upper : regex := RCls false [CRange "A" "Z"; CRange "0" "9"].
Definition address_words : regex :=
  RCls false [CRange "A" "Z"; CRange "a" "z"; CSpace; CChar ","; CChar ".";
              CChar "-"].

(** [[a-zA-Z0-9._%+-]+@[a-zA-Z0-9.-]+\.[a-zA-Z]{2,}] *)
Definition email_pattern : regex :=
  rseq [ at_least 1 (RCls false [CRange "a" "z"; CRange "A" "Z"; CRange "0" "9";
                                 CChar "."; CChar "_"; CChar "%"; CChar "+";
                                 CChar "-"]);
         chr "@";
         at_least 1 (RCls false [CRange "a" "z"; CRange "A" "Z"; CRange "0" "9";
                                 CChar "."; CChar "-"]);
         chr ".";
         at_least 2 (RCls false [CRange "a" "z"; CRange "A" "Z"]) ].

(** The module-level table [PATTERNS]. *)
Definition PATTERNS : gmap string (option regex) :=
  list_to_map
    [ ("full_name",
       Some (rseq [ RWordB;
                    opt (ralt [literal "Mr."; literal "Mrs."; literal "Ms.";
                               literal "Dr."; literal "Prof."]);
                    RRep space 0 None;
                    rng "A" "Z"; at_least 1 (rng "a" "z");
                    RRep (rseq [at_least 1 space; rng "A" "Z";
                                at_least 1 (rng "a" "z")]) 0 (Some 3);
                    RWordB ]));
      ("date_of_birth",
       Some (rseq [ RWordB;
                    ralt [ rseq [between 1 2 digit;
                                 RCls false [CChar "-"; CChar "/"];
                                 between 1 2 digit;
                                 RCls false [CChar "-"; CChar "/"];
                                 between 2 4 digit];
                           rseq [times 4 digit;
                                 RCls false [CChar "-"; CChar "/"];
                                 between 1 2 digit;
                                 RCls false [CChar "-"; CChar "/"];
                                 between 1 2 digit];
                           rseq [ralt (map literal
                                         ["Jan"; "Feb"; "Mar"; "Apr"; "May";
                                          "Jun"; "Jul"; "Aug"; "Sep"; "Oct";
                                          "Nov"; "Dec"]);
                                 RRep (rng "a" "z") 0 None;
                                 chr " "; between 1 2 digit; opt (chr ",");
                                 chr " "; times 4 digit] ];
                    RWordB ]));
      ("mobile_number",
       Some (rseq [ opt (RSeq (literal "+91") (opt hyphen_space));
                    rng "6" "9"; times 9 digit ]));
      ("telephone_number",
       Some (rseq [ opt (rseq [opt (chr "+"); between 1 4 digit;
                               opt hyphen_space]);
                    between 2 4 digit; opt hyphen_space;
                    between 3 4 digit; opt hyphen_space;
                    between 3 4 digit ]));
      ("email_address", Some email_pattern);
      ("residential_address",
       Some (rseq [ RWordB; at_least 1 digit; at_least 1 space;
                    at_least 1 address_words;
                    ralt (map literal
                            ["Street"; "St"; "Avenue"; "Ave"; "Road"; "Rd";
                             "Boulevard"; "Blvd"; "Lane"; "Ln"; "Drive"; "Dr";
                             "Court"; "Ct"; "Circle"; "Cir"; "Way"; "Place";
                             "Pl"]);
                    at_least 1 (RCls false [CChar ","; CSpace]);
                    at_least 1 address_words;
                    times 2 (rng "A" "Z");
                    at_least 1 space; times 5 digit;
                    opt (RSeq (chr "-") (times 4 digit));
                    RWordB ]));
      ("aadhar_number",
       Some (rseq [ RWordB; times 4 digit; opt hyphen_space; times 4 digit;
                    opt hyphen_space; times 4 digit; RWordB ]));
      ("pan_number",
       Some (rseq [ RWordB; times 5 (rng "A" "Z"); times 4 (rng "0" "9");
                    times 1 (rng "A" "Z"); RWordB ]));
      ("passport_number", Some (rseq [RWordB; between 6 9 alnum_upper; RWordB]));
      ("voter_id_number",
       Some (rseq [ RWordB; times 3 (rng "A" "Z"); times 7 (rng "0" "9");
                    RWordB ]));
      ("driving_license_number",
       Some (rseq [ RWordB; times 2 (rng "A" "Z"); times 2 (rng "0" "9");
                    opt hyphen_space; between 1 2 alnum_upper;
                    opt hyphen_space; between 4 7 digit; RWordB ]));
      ("bank_account_number",
       Some (rseq [RWordB; between 8 18 (rng "0" "9"); RWordB]));
      ("credit_debit_card_number",
       Some (rseq [RWordB; card_issuers; RWordB]));
      ("ip_address",
       Some (rseq [RWordB; times 3 (RSeq octet (chr ".")); octet; RWordB]));
      ("custom_search", None) ].

(** The log [extracted_data]. *)
Definition log : Type := list result.

(** ** The validators local to app.py *)

Section WithLibs.
Variable L : Libs.

(** The genderize check: the request went through with status 200 and a
    probability above 0.6; any exception is logged and counts as no. *)
Definition genderize_accepts (first : string) : bool :=
  match genderize L first with
  | Ret r =>
      (status_code r =? 200)
      && match probability r with
         | Some pr => if Qlt_le_dec (6 # 10) pr then true else false
         | None => false
         end
  | Raise _ => false
  end.

Definition nonempty (s : string) : bool := negb (String.eqb s "").

(** Truthiness of an optional string ([None] and [''] are false). *)
Definition some_text (o : option string) : bool :=
  match o with Some s => nonempty s | None => false end.

Definition validate_and_format_full_name (name : string)
    : option string * option string :=
  catch
    (let name := re_sub (RCls true [CWord; CSpace]) "" (strip name) in
     let name := join " " (split name) in
     if negb (nonempty name) then Ret (None, Some "Name cannot be empty")
     else
       parsed_name ← HumanName L name;
       if negb (nonempty (hn_first parsed_name))
       then Ret (None, Some "Invalid name format")
       else
         let formatted_name :=
           join " " (List.filter nonempty
                       [hn_first parsed_name; hn_middle parsed_name;
                        hn_last parsed_name]) in
         if genderize_accepts (hn_first parsed_name)
         then Ret (Some formatted_name, None)
         else if (1 <=? List.length (split formatted_name))
                 && forallb (fun part => 2 <=? String.length part)
                            (split formatted_name)
         then Ret (Some formatted_name, None)
         else Ret (None, Some "Invalid name format"))
    (fun e => (None, Some (exn_str e))).

Definition validate_and_format_mobile_number (number : string)
    : option string * option string :=
  catch
    (let number := re_sub (RCls true [CDigit]) "" number in
     let number :=
       if negb (startswith "+" number)
       then if startswith "91" number then "+" ++ number else "+91" ++ number
       else number in
     parsed_number ← pn_parse L number None;
     if pn_is_valid_number L parsed_number
     then Ret (Some (pn_format_number L parsed_number E164), None)
     else Ret (None, Some "Invalid mobile number"))
    (fun e => (None, Some (exn_str e))).

(** Only [EmailNotValidError] is handled here. *)
Definition validate_and_format_email (email_ : string)
    : outcome (option string * option string) :=
  match validate_email L email_ with
  | Ret valid => Ret (Some (email valid), None)
  | Raise (EmailNotValidError m) => Ret (None, Some m)
  | Raise e => Raise e
  end.

(** ** [extract_data]: the table-driven scan *)

Definition mk_result (v : string) (pg : nat) (st : string)
    (msg : option string) (pt : string) (iv : option bool) : result :=
  {| value := v; page := pg; status := st; validation_message := msg;
     pattern_type := pt; is_valid := iv; filename := None |}.

(** The matches of one page, given the values seen so far. *)
Fixpoint unseen (seen : gset string) (ms : list string)
    : list string * gset string :=
  match ms with
  | [] => ([], seen)
  | m :: rest =>
      if bool_decide (m ∈ seen) then unseen seen rest
      else let '(vs, seen') := unseen ({[m]} ∪ seen) rest in (m :: vs, seen')
  end.

Fixpoint custom_pages (pattern : regex) (pt : string) (seen : gset string)
    (page_num : nat) (page_texts : list string) : list result :=
  match page_texts with
  | [] => []
  | page_text :: rest =>
      let '(vs, seen') :=
        unseen seen (finditer IGNORECASE pattern page_text) in
      (map (fun v => mk_result v page_num "correct" None pt (Some true)) vs
       ++ custom_pages pattern pt seen' (S page_num) rest)%list
  end.

Definition validated_result (validator_ : option validator) (pt : string)
    (page_num : nat) (v : string) : outcome result :=
  match validator_ with
  | Some validate =>
      '(formatted_value, error_message, st) ← validate (VStr v);
      Ret (mk_result (if some_text formatted_value
                      then default v formatted_value else v)
             page_num st error_message pt (Some (String.eqb st "correct")))
  | None => Ret (mk_result v page_num "correct" None pt (Some true))
  end.

Fixpoint mapM {A B} (f : A -> outcome B) (l : list A) : outcome (list B) :=
  match l with
  | [] => Ret []
  | a :: l' => b ← f a; bs ← mapM f l'; Ret (b :: bs)
  end.

Fixpoint pattern_pages (pattern : regex) (validator_ : option validator)
    (pt : string) (seen : gset string) (page_num : nat)
    (page_texts : list string) : outcome (list result) :=
  match page_texts with
  | [] => Ret []
  | page_text :: rest =>
      let '(vs, seen') :=
        unseen seen (strip <$> finditer MULTILINE pattern page_text) in
      rs ← mapM (validated_result validator_ pt page_num) vs;
      rs' ← pattern_pages pattern validator_ pt seen' (S page_num) rest;
      Ret (rs ++ rs')%list
  end.

Definition extract_data (clk : clock) (text : string) (pattern_type : string)
    (page_texts : option (list string)) (search_term : option string)
    : outcome (list result) :=
  let validator_ := get_validator_for_type L clk pattern_type in
  if String.eqb pattern_type "custom_search" then
    match search_term with
    | None => Raise (TypeError "expected string or bytes-like object")
    | Some search_term =>
        match page_texts with
        | None => Raise (TypeError "'NoneType' object is not iterable")
        | Some page_texts =>
            Ret (custom_pages (literal search_term) pattern_type ∅ 1 page_texts)
        end
    end
  else
    match PATTERNS !! pattern_type with
    | None => Raise (KeyError pattern_type)
    | Some None => Raise (TypeError "first argument must be string or compiled pattern")
    | Some (Some pattern) =>
        match page_texts with
        | None => Raise (TypeError "'NoneType' object is not iterable")
        | Some page_texts =>
            pattern_pages pattern validator_ pattern_type ∅ 1 page_texts
        end
    end.

(** ** [extract_data_from_pdf] *)

(** What [fitz.open(pdf_path)] finds at the path: an exception, or the
    pages, each with what [page.get_text()] does. *)
Definition pdf_file : Type := outcome (list (outcome string)).

Definition correct_record (v : string) (page_num : nat) (pt : string) : result :=
  mk_result v (page_num + 1) "correct" None pt None.
Definition incorrect_record (v : string) (page_num : nat) (msg : string)
    (pt : string) : result :=
  mk_result v (page_num + 1) "incorrect" (Some msg) pt None.

(** The [if formatted: ... elif error: ...] that follows each of the
    three local validators. *)
Definition record_of (raw : string) (page_num : nat) (pt : string)
    (r : option string * option string) : list result :=
  match r with
  | (formatted, error) =>
      if some_text formatted
      then [correct_record (default "" formatted) page_num pt]
      else if some_text error
      then [incorrect_record raw page_num (default "" error) pt]
      else []
  end.

(** The loop over [doc_spacy.ents], with the set [seen_names] of the
    page. *)
Fixpoint person_records (pt : string) (page_num : nat)
    (seen_names : gset string) (ents : list entity) : list result :=
  match ents with
  | [] => []
  | ent :: rest =>
      if String.eqb (label_ ent) "PERSON" then
        let name := strip (text ent) in
        if nonempty name && negb (bool_decide (name ∈ seen_names)) then
          (record_of name page_num pt (validate_and_format_full_name name)
           ++ person_records pt page_num ({[name]} ∪ seen_names) rest)%list
        else person_records pt page_num seen_names rest
      else person_records pt page_num seen_names rest
  end.

(** [(?:\+91|91)?[6-9]\d{9}] and [(?:\+91|91)?[789]\d{9}] *)
Definition mobile_patterns : list regex :=
  [ rseq [opt (RAlt (literal "+91") (literal "91")); rng "6" "9";
          times 9 digit];
    rseq [opt (RAlt (literal "+91") (literal "91"));
          RCls false [CChar "7"; CChar "8"; CChar "9"]; times 9 digit] ].

(** The body of the page loop once the text is known not to be blank. *)
Definition page_records (pattern_type : string) (search_term : option string)
    (page_num : nat) (text : string) : outcome (list result) :=
  if String.eqb pattern_type "full_name" then
    doc_spacy ← nlp L text;
    Ret (person_records pattern_type page_num ∅ doc_spacy)
  else if String.eqb pattern_type "mobile_number" then
    Ret (flat_map
           (fun pattern =>
              flat_map
                (fun number =>
                   record_of number page_num pattern_type
                     (validate_and_format_mobile_number number))
                (finditer no_flags pattern text))
           mobile_patterns)
  else if String.eqb pattern_type "email_address" then
    rss ← mapM (fun email_ =>
                  r ← validate_and_format_email email_;
                  Ret (record_of email_ page_num pattern_type r))
               (finditer no_flags email_pattern text);
    Ret (List.concat rss)
  else if String.eqb pattern_type "custom_search" && some_text search_term then
    Ret (map (fun m => correct_record m page_num pattern_type)
           (finditer IGNORECASE (literal (default "" search_term)) text))
  else Ret [].

(** [not text or text.strip() == ''] *)
Definition blank (text : string) : bool :=
  String.eqb text "" || String.eqb (strip text) "".

(** The loop [for page_num in range(total_pages)], from [page_num]
    on. *)
Fixpoint scan_pages (pattern_type : string) (search_term : option string)
    (page_num : nat) (pages : list (outcome string)) : outcome (list result) :=
  match pages with
  | [] => Ret []
  | get_text :: rest =>
      text ← get_text;
      rs ← (if blank text then Ret []
            else page_records pattern_type search_term page_num text);
      rs' ← scan_pages pattern_type search_term (S page_num) rest;
      Ret (rs ++ rs')%list
  end.

Definition extract_data_from_pdf (pdf : pdf_file) (pattern_type : string)
    (search_term : option string) : list result :=
  catch (doc ← pdf; scan_pages pattern_type search_term 0 doc)
        (fun _ => []).

(** ** [/dashboard-data] *)

Record file_stats := { fs_total : nat; fs_valid : nat; fs_invalid : nat }.

Record summary := {
  total : nat;
  valid : nat;
  invalid : nat;
  success_rate : Q;
  files_processed : nat;
  files_breakdown : gmap string file_stats
}.

(** [round(x, 2)] for a float or an integer of exact value [x]: the
    nearest multiple of 0.01, a tie of the exact value going to the even
    one; it is given as the decimal, which is what the float returned
    prints as. *)
Definition round2 (x : Q) : Q :=
  let h := (x * 100)%Q in
  let f := Qfloor h in
  let r := (h - inject_Z f)%Q in
  let n := match Qcompare r (1 # 2) with
           | Lt => f
           | Gt => (f + 1)%Z
           | Eq => if Z.even f then f else (f + 1)%Z
           end in
  (n # 100)%Q.

Definition is_correct (r : result) : bool := String.eqb (status r) "correct".

Definition count_file (files : gmap string file_stats) (item : result)
    : gmap string file_stats :=
  let fname := default "Unknown File" (filename item) in
  let st := default {| fs_total := 0; fs_valid := 0; fs_invalid := 0 |}
                    (files !! fname) in
  <[fname :=
      if is_correct item
      then {| fs_total := fs_total st + 1; fs_valid := fs_valid st + 1;
              fs_invalid := fs_invalid st |}
      else {| fs_total := fs_total st + 1; fs_valid := fs_valid st;
              fs_invalid := fs_invalid st + 1 |}]> files.

Definition dashboard_data (extracted_data : log) : summary :=
  let total := List.length extracted_data in
  let valid := List.length (List.filter is_correct extracted_data) in
  let invalid := total - valid in
  let success_rate :=
    round2 (if 0 <? total
            then Float.value
                   (Float.mul (Float.truediv (Z.of_nat valid) (Z.of_nat total))
                      (Float.of_int 100))
            else 0%Q) in
  let files := foldl count_file ∅ extracted_data in
  {| total := total; valid := valid; invalid := invalid;
     success_rate := success_rate;
     files_processed := size files; files_breakdown := files |}.

(** ** The upload routes *)

(** One uploaded file: its name, what [file.save] and [os.remove] do,
    and what [fitz.open] finds once it is saved. *)
Record upload := {
  up_filename : string;
  up_save : outcome unit;
  up_pdf : pdf_file;
  up_remove : outcome unit
}.

(** The form of a request: the values of ['pattern_type'] and
    ['search_term'], if sent. *)
Record form := { form_pattern_type : option string;
                 form_search_term : option string }.

Definition tag (fname : string) (r : result) : result :=
  {| value := value r; page := page r; status := status r;
     validation_message := validation_message r;
     pattern_type := pattern_type r; is_valid := is_valid r;
     filename := Some fname |}.

Record file_error := { fe_filename : string; fe_error : string }.
Record processed := { pf_filename : string; results_count : nat }.

Record batch := {
  data : list result;
  processed_files : list processed;
  errors : list file_error;
  total_files : nat;
  successful_files : nat;
  failed_files : nat
}.

Inductive response (A : Type) :=
| Success (body : A)
| Failure (error : string).
Arguments Success {A} body.
Arguments Failure {A} error.

(** The three lists a batch accumulates. *)
Definition acc : Type := list result * list processed * list file_error.

(** One round of [for file in files]. *)
Definition process_file (fm : form) (a : acc) (file : upload) : acc :=
  let '(all_results, processed_files, errors) := a in
  if nonempty (up_filename file) && endswith ".pdf" (up_filename file) then
    let fname := secure_filename L (up_filename file) in
    match up_save file with
    | Raise e =>
        (all_results, processed_files,
         errors ++ [{| fe_filename := up_filename file;
                       fe_error := exn_str e |}])%list
    | Ret _ =>
        let results :=
          tag fname <$>
            extract_data_from_pdf (up_pdf file)
              (default "full_name" (form_pattern_type fm))
              (form_search_term fm) in
        let all_results := (all_results ++ results)%list in
        let processed_files :=
          (processed_files
           ++ [{| pf_filename := fname;
                  results_count := List.length results |}])%list in
        match up_remove file with
        | Raise e =>
            (all_results, processed_files,
             errors ++ [{| fe_filename := up_filename file;
                           fe_error := exn_str e |}])%list
        | Ret _ => (all_results, processed_files, errors)
        end
    end
  else
    (all_results, processed_files,
     errors ++ [{| fe_filename := up_filename file;
                   fe_error :=
                     "Invalid file type (only PDF files are supported)" |}])%list.

(** [/upload-multiple]; [files] is [None] when the request has no
    ['files'] part.  Returns the reply and the log afterwards. *)
Definition upload_multiple_files (files : option (list upload)) (fm : form)
    (extracted_data : log) : response batch * log :=
  match files with
  | None => (Failure "No files part", extracted_data)
  | Some files =>
      match files with
      | [] => (Failure "No selected files", extracted_data)
      | first :: _ =>
          if negb (nonempty (up_filename first))
          then (Failure "No selected files", extracted_data)
          else
            let '(all_results, processed_files, errors) :=
              foldl (process_file fm) ([], [], []) files in
            (Success {| data := all_results;
                        processed_files := processed_files;
                        errors := errors;
                        total_files := List.length files;
                        successful_files := List.length processed_files;
                        failed_files := List.length errors |},
             (extracted_data ++ all_results)%list)
      end
  end.

(** [/upload]: the reply carries the records and the file name. *)
Definition upload_file (file : option upload) (fm : form)
    (extracted_data : log) : response (list result * string) * log :=
  match file with
  | None => (Failure "No file part", extracted_data)
  | Some file =>
      if negb (nonempty (up_filename file))
      then (Failure "No selected file", extracted_data)
      else if endswith ".pdf" (up_filename file) then
        let fname := secure_filename L (up_filename file) in
        match up_save file with
        | Raise e => (Failure (exn_str e), extracted_data)
        | Ret _ =>
            let results :=
              tag fname <$>
                extract_data_from_pdf (up_pdf file)
                  (default "full_name" (form_pattern_type fm))
                  (form_search_term fm) in
            let extracted_data := (extracted_data ++ results)%list in
            match up_remove file with
            | Raise e => (Failure (exn_str e), extracted_data)
            | Ret _ => (Success (results, fname), extracted_data)
            end
        end
      else (Failure "Invalid file type", extracted_data)
  end.

End WithLibs.

Arguments Success {A} body.
Arguments Failure {A} error.

End App.

(* ================================================================== *)
(** * Sample collaborators *)
(* ================================================================== *)

(** A small stand-in for each package, to run the code on concrete
    documents. *)
Module Sample.

(** Names: the stripped text is the first name, rendered as it is. *)
Definition sample_name (s : string) : outcome human_name :=
  let t := strip s in
  Ret {| hn_first := t; hn_middle := ""; hn_last := ""; hn_str := t;
         hn_in_titles := fun part => Ret (String.eqb part "Dr.");
         hn_in_suffixes := fun part => Ret (String.eqb part "Jr.") |}.

Definition all_digits (s : string) : bool :=
  App.nonempty s && sall is_digit s.

Definition no_number : exn :=
  NumberParseException "The string supplied did not seem to be a phone number.".

Fixpoint drop_zeros (s : string) : string :=
  match s with
  | String "0" s' => drop_zeros s'
  | _ => s
  end.

(** Phone numbers: a number is its digits, country code first.  After a
    plus sign hyphens are skipped and the digits taken as they are; with
    a region, the trunk zeros go and 91 is put in front. *)
Definition sample_parse (s : string) (region : option string) : outcome string :=
  match s, region with
  | String "+" ds, _ =>
      let ds := sfilter (fun c => negb (Ascii.eqb c "-")) ds in
      if all_digits ds then Ret ds else Raise no_number
  | _, Some _ =>
      let ds := sfilter (fun c => negb (Ascii.eqb c "-")) s in
      if all_digits ds then Ret ("91" ++ drop_zeros ds) else Raise no_number
  | _, None => Raise (NumberParseException "Missing or invalid default region.")
  end.

(** Valid: 91, then a digit from 6 to 9 and nine more. *)
Definition sample_valid (n : string) : bool :=
  (String.length n =? 12) && startswith "91" n && sall is_digit n
  && match drop 2 n with String c _ => in_range "6" "9" c | _ => false end.

Definition sample_format (n : string) (f : phone_format) : string :=
  match f with
  | E164 => "+" ++ n
  | INTERNATIONAL => "+" ++ take 2 n ++ " " ++ take 5 (drop 2 n) ++ " "
                     ++ drop 7 n
  end.

Fixpoint has_char (c : ascii) (s : string) : bool :=
  match s with
  | EmptyString => false
  | String d s' => Ascii.eqb c d || has_char c s'
  end.

(** E-mail: an address needs an at sign and no blank; it is
    normalized to lower case. *)
Definition sample_email (s : string) : outcome validated_email :=
  if has_char "@" s && sall nonblank s
  then Ret {| normalized := lower s; email := lower s |}
  else Raise (EmailNotValidError "The email address is not valid.").

(** Entities: every capitalised word is a person. *)
Definition sample_nlp (txt : string) : outcome (list entity) :=
  Ret ((fun w => {| label_ := "PERSON"; text := w |})
         <$> List.filter (fun w => match w with
                                   | String c _ => is_upper c
                                   | EmptyString => false
                                   end) (split txt)).

Definition libs : Libs :=
  {| phone_number := string;
     HumanName := sample_name;
     pn_parse := sample_parse;
     pn_is_valid_number := sample_valid;
     pn_format_number := sample_format;
     validate_email := sample_email;
     nlp := sample_nlp;
     genderize := fun _ => Raise (OtherError "connection refused");
     secure_filename := fun s => s |}.

Definition at_ (y m d : Z) : datetime :=
  {| year := y; month := m; day := d; micros := 0 |}.

(** Two readings on 3 November 2026. *)
Definition clk : clock :=
  {| now_year := at_ 2026 11 3; now_cmp := at_ 2026 11 3 |}.

End Sample.


(* ================================================================== *)
(** * Strings: filtering, slicing and stripping *)
(* ================================================================== *)

Module StrFacts.

Lemma app_nil s : "" ++ s = s.
Proof. reflexivity. Qed.

Lemma app_cons c s t : String c s ++ t = String c (s ++ t).
Proof. reflexivity. Qed.

Lemma sall_sfilter p s : sall p (sfilter p s) = true.
Proof.
  induction s as [|c s IH]; simpl; [done|].
  destruct (p c) eqn:E; simpl; [rewrite E|]; done.
Qed.

Lemma sfilter_id p s : sall p s = true -> sfilter p s = s.
Proof.
  induction s as [|c s IH]; simpl; [done|].
  intros [-> Hs]%andb_prop. by rewrite IH.
Qed.

Lemma sfilter_idem p s : sfilter p (sfilter p s) = sfilter p s.
Proof. apply sfilter_id, sall_sfilter. Qed.

Lemma sfilter_app p s t : sfilter p (s ++ t) = sfilter p s ++ sfilter p t.
Proof.
  induction s as [|c s IH]; [done|].
  rewrite app_cons. simpl. destruct (p c); rewrite ?app_cons; by rewrite IH.
Qed.

Lemma sall_app p s t : sall p (s ++ t) = sall p s && sall p t.
Proof.
  induction s as [|c s IH]; [done|].
  rewrite app_cons. simpl. by rewrite IH, andb_assoc.
Qed.

Lemma sall_impl (p q : ascii -> bool) s :
  (forall c, p c = true -> q c = true) -> sall p s = true -> sall q s = true.
Proof.
  intros Hpq. induction s as [|c s IH]; simpl; [done|].
  intros [Hc Hs]%andb_prop. by rewrite (Hpq _ Hc), IH.
Qed.

Lemma take_drop n s : take n s ++ drop n s = s.
Proof.
  revert s; induction n as [|n IH]; intros [|c s]; simpl; try done.
  by rewrite app_cons, IH.
Qed.

Lemma sall_take p n s : sall p s = true -> sall p (take n s) = true.
Proof.
  revert s; induction n as [|n IH]; intros [|c s]; simpl; try done.
  intros [-> Hs]%andb_prop. by apply IH.
Qed.

Lemma sall_drop p n s : sall p s = true -> sall p (drop n s) = true.
Proof.
  revert s; induction n as [|n IH]; intros [|c s]; simpl; try done.
  intros [_ Hs]%andb_prop. by apply IH.
Qed.

Lemma length_app s t :
  String.length (s ++ t) = String.length s + String.length t.
Proof.
  induction s as [|c s IH]; [done|]. rewrite app_cons. simpl. by rewrite IH.
Qed.

Lemma length_take n s : String.length (take n s) = min n (String.length s).
Proof.
  revert s; induction n as [|n IH]; intros [|c s]; simpl; try done.
  by rewrite IH.
Qed.

Lemma length_drop n s : String.length (drop n s) = String.length s - n.
Proof.
  revert s; induction n as [|n IH]; intros [|c s]; simpl; try done.
Qed.

Lemma take_all n s : String.length s <= n -> take n s = s.
Proof.
  revert s; induction n as [|n IH]; intros [|c s]; simpl; try done; [lia|].
  intros H. rewrite IH; [done|lia].
Qed.

Lemma drop_all n s : String.length s <= n -> drop n s = "".
Proof.
  revert s; induction n as [|n IH]; intros [|c s]; simpl; try done; [lia|].
  intros H. apply IH. lia.
Qed.

Lemma drop_drop n m s : drop n (drop m s) = drop (m + n) s.
Proof.
  revert s; induction m as [|m IH]; intros s; simpl; [done|].
  destruct s as [|c s]; [by destruct n|]. apply IH.
Qed.

Lemma app_empty_r s : s ++ "" = s.
Proof. induction s as [|c s IH]; [done|]. by rewrite app_cons, IH. Qed.

Lemma app_assoc s t u : (s ++ t) ++ u = s ++ t ++ u.
Proof. induction s as [|c s IH]; [done|]. by rewrite !app_cons, IH. Qed.

(** ** [strip] *)

Definition starts_nonblank (s : string) : bool :=
  match s with
  | String c _ => negb (is_space c)
  | EmptyString => true
  end.

Lemma lstrip_starts s : starts_nonblank (lstrip s) = true.
Proof.
  induction s as [|c s IH]; simpl; [done|].
  destruct (is_space c) eqn:E; [done|]. simpl. by rewrite E.
Qed.

Lemma lstrip_id s : starts_nonblank s = true -> lstrip s = s.
Proof. destruct s as [|c s]; simpl; [done|]. by destruct (is_space c). Qed.

Lemma rstrip_starts s : starts_nonblank s = true -> starts_nonblank (rstrip s) = true.
Proof.
  destruct s as [|c s]; simpl; [done|]. intros Hc.
  destruct (rstrip s); [|done].
  destruct (is_space c) eqn:E; simpl in *; [done|]. by rewrite E.
Qed.

Lemma rstrip_idem s : rstrip (rstrip s) = rstrip s.
Proof.
  induction s as [|c s IH]; simpl; [done|].
  destruct (rstrip s) as [|d t] eqn:E.
  - destruct (is_space c) eqn:Ec; simpl; [done|]. by rewrite Ec.
  - change (rstrip (String c (String d t))) with
      (match rstrip (String d t) with
       | EmptyString => if is_space c then "" else String c ""
       | u => String c u
       end).
    by rewrite IH.
Qed.

Lemma strip_idem s : strip (strip s) = strip s.
Proof.
  unfold strip.
  rewrite (lstrip_id (rstrip (lstrip s))).
  - apply rstrip_idem.
  - apply rstrip_starts, lstrip_starts.
Qed.

Lemma rstrip_id s : sall nonblank s = true -> rstrip s = s.
Proof.
  induction s as [|c s IH]; simpl; [done|]. unfold nonblank at 1.
  intros [Hc Hs]%andb_prop. rewrite (IH Hs).
  destruct s; [|done]. by destruct (is_space c).
Qed.

(** A string without blanks is its own [strip]. *)
Lemma strip_id s : sall nonblank s = true -> strip s = s.
Proof.
  intros H. unfold strip. rewrite lstrip_id.
  - by apply rstrip_id.
  - destruct s; simpl in *; [done|]. by apply andb_prop in H as [H _].
Qed.

End StrFacts.

(* ================================================================== *)
(** * The matcher on the patterns in use *)
(* ================================================================== *)

Module ReFacts.
Import StrFacts.

(** The character before the position reached after reading [w]. *)
Fixpoint after (prev : option ascii) (w : string) : option ascii :=
  match w with
  | EmptyString => prev
  | String c w' => after (Some c) w'
  end.

Lemma rmatch_cls fl neg items prev c s :
  rmatch fl (RCls neg items) (prev, String c s)
  = if cls_match fl neg items c then [(Some c, s)] else [].
Proof. reflexivity. Qed.

Lemma rmatch_seq fl r1 r2 p :
  rmatch fl (RSeq r1 r2) p = flat_map (rmatch fl r2) (rmatch fl r1 p).
Proof. reflexivity. Qed.

Lemma rep_go_S step fuel need p :
  rep_go step (S fuel) need p
  = (flat_map (rep_go step fuel (pred need)) (step p)
     ++ (if need =? 0 then [p] else []))%list.
Proof. reflexivity. Qed.

(** A class repeated exactly [n] times reads the next [n] characters,
    all of which must be in the class. *)
Lemma rmatch_times_cls fl neg items n prev s :
  rmatch fl (times n (RCls neg items)) (prev, s)
  = if (n <=? String.length s) && sall (cls_match fl neg items) (take n s)
    then [(after prev (take n s), drop n s)] else [].
Proof.
  unfold times.
  change (rmatch fl (RRep (RCls neg items) n (Some n)) (prev, s))
    with (rep_go (rmatch fl (RCls neg items)) n n (prev, s)).
  revert prev s. induction n as [|n IH]; intros prev s.
  - by destruct s.
  - rewrite rep_go_S. cbn [pred Nat.eqb]. rewrite app_nil_r.
    destruct s as [|c s]; [done|].
    rewrite rmatch_cls. cbn [String.length take sall drop after Nat.leb].
    destruct (cls_match fl neg items c); cbn [flat_map andb].
    + rewrite app_nil_r, IH. done.
    + by rewrite andb_false_r.
Qed.

(** An anchored pattern [^r$] on a subject. *)
Lemma rmatch_anchored fl r s :
  rmatch fl (rseq [RBol; r; REol]) (None, s)
  = List.filter (at_eol fl) (rmatch fl r (None, s)).
Proof.
  cbn [rseq]. rewrite !rmatch_seq. cbn [rmatch at_bol fst flat_map].
  rewrite app_nil_r.
  induction (rmatch fl r (None, s)) as [|q l IH]; [done|].
  cbn [flat_map List.filter rmatch]. rewrite IH.
  by destruct (at_eol fl q).
Qed.

Lemma re_match_is_Some fl r s :
  is_Some (re_match fl r s) <-> rmatch fl r (None, s) <> [].
Proof.
  unfold re_match, match_at.
  destruct (rmatch fl r (None, s)); simpl.
  - split; [by intros [? ?]|done].
  - split; [done|by eauto].
Qed.

(** ** [re.sub] of a single class *)

Lemma consumed_one c s : consumed (String c s) s = String c "".
Proof.
  unfold consumed. cbn [String.length].
  replace (S (String.length s) - String.length s) with 1 by lia. done.
Qed.

Lemma scan_cls neg items s : forall prev gap ms tl,
  scan no_flags (RCls neg items) prev s 0 gap = (ms, tl) ->
  fold_right (fun gm rest => fst gm ++ "" ++ rest) tl ms
  = gap ++ sfilter (fun c => negb (cls_match no_flags neg items c)) s.
Proof.
  induction s as [|c s IH]; intros prev gap ms tl.
  - cbn. intros [= <- <-]. cbn. by rewrite app_empty_r.
  - cbn [scan]. unfold match_at. rewrite rmatch_cls.
    cbn [sfilter]. destruct (cls_match no_flags neg items c); cbn [negb].
    + cbn [snd]. rewrite consumed_one. cbn [String.length Nat.sub].
      destruct (scan no_flags (RCls neg items) (Some c) s 0 "") as [ms' tl'] eqn:E.
      intros [= <- <-]. apply IH in E. rewrite app_nil in E.
      cbn [fold_right fst]. by rewrite E, app_nil.
    + intros E. apply IH in E. by rewrite E, app_assoc.
Qed.

(** Deleting the matches of a class keeps the characters outside it. *)
Lemma re_sub_cls neg items s :
  re_sub (RCls neg items) "" s
  = sfilter (fun c => negb (cls_match no_flags neg items c)) s.
Proof.
  unfold re_sub.
  destruct (scan no_flags (RCls neg items) None s 0 "") as [ms tl] eqn:E.
  by apply scan_cls in E.
Qed.

End ReFacts.

(* ================================================================== *)
(** * The pattern validators *)
(* ================================================================== *)

Module ValidatorFacts.
Import StrFacts ReFacts.

Lemma sfilter_ext (p q : ascii -> bool) s :
  (forall c, p c = q c) -> sfilter p s = sfilter q s.
Proof.
  intros H. induction s as [|c s IH]; simpl; [done|]. by rewrite H, IH.
Qed.

Lemma sall_ext (p q : ascii -> bool) s :
  (forall c, p c = q c) -> sall p s = sall q s.
Proof.
  intros H. induction s as [|c s IH]; simpl; [done|]. by rewrite H, IH.
Qed.

Lemma cls_digit fl c : cls_match fl false [CDigit] c = is_digit c.
Proof. unfold cls_match. cbn. by rewrite orb_false_r. Qed.

(** Without [MULTILINE], [$] holds inside a text without blanks only at
    its very end. *)
Lemma at_eol_nonblank prev t :
  sall nonblank t = true -> at_eol no_flags (prev, t) = true -> t = "".
Proof.
  destruct t as [|x rest]; [done|]. cbn.
  intros [Hx _]%andb_prop [Hn _]%andb_prop.
  apply Ascii.eqb_eq in Hn. by subst x.
Qed.

(** [^\d{n}$] on a text without blanks: exactly [n] digits. *)
Lemma re_match_digits n c :
  sall nonblank c = true ->
  is_Some (re_match no_flags (rseq [RBol; times n digit; REol]) c)
  <-> String.length c = n /\ sall is_digit c = true.
Proof.
  intros Hc. rewrite re_match_is_Some, rmatch_anchored.
  unfold digit. rewrite rmatch_times_cls.
  rewrite (sall_ext _ is_digit) by apply cls_digit.
  destruct (n <=? String.length c) eqn:Hn; cbn [andb].
  - apply Nat.leb_le in Hn.
    destruct (sall is_digit (take n c)) eqn:Hd.
    + cbn [List.filter].
      destruct (at_eol no_flags (after None (take n c), drop n c)) eqn:He.
      * apply at_eol_nonblank in He; [|by apply sall_drop].
        assert (String.length c = n) as Hlen.
        { pose proof (length_drop n c) as Hl. rewrite He in Hl. cbn in Hl. lia. }
        split; [intros _|done]. split; [done|].
        rewrite take_all in Hd by lia. done.
      * split; [done|]. intros [Hlen Hall].
        rewrite drop_all in He by lia. done.
    + split; [done|]. intros [Hlen Hall].
      rewrite take_all in Hd by lia. congruence.
  - apply Nat.leb_gt in Hn. split; [done|]. intros [Hlen _]. lia.
Qed.

(** ** Aadhar *)

(** The characters [re.sub(r'[-\s]', '', value)] keeps. *)
Definition aadhar_keeps (c : ascii) : bool :=
  negb (Ascii.eqb c "-" || is_space c).

Definition aadhar_digits (s : string) : string := sfilter aadhar_keeps s.

(** [XXXX-XXXX-XXXX] *)
Definition aadhar_format (d : string) : string :=
  take 4 d ++ "-" ++ take 4 (drop 4 d) ++ "-" ++ drop 8 d.

Lemma aadhar_cleaned s : re_sub hyphen_or_space "" s = aadhar_digits s.
Proof.
  unfold hyphen_or_space. rewrite re_sub_cls. apply sfilter_ext.
  intros c. unfold aadhar_keeps, cls_match. cbn. by rewrite orb_false_r.
Qed.

Lemma aadhar_digits_nonblank s : sall nonblank (aadhar_digits s) = true.
Proof.
  apply (sall_impl aadhar_keeps); [|apply sall_sfilter].
  intros c. unfold aadhar_keeps, nonblank.
  destruct (Ascii.eqb c "-"), (is_space c); done.
Qed.

(** The verdict on a string in closed form. *)
Lemma aadhar_eval s :
  validate_and_format_aadhar (VStr s)
  = Ret (if (String.length (aadhar_digits s) =? 12)
            && sall is_digit (aadhar_digits s)
         then accepted (aadhar_format (aadhar_digits s))
         else rejected "Invalid Aadhar number").
Proof.
  unfold validate_and_format_aadhar. cbn [re_arg mbind outcome_bind bind].
  rewrite aadhar_cleaned.
  pose proof (re_match_digits 12 (aadhar_digits s) (aadhar_digits_nonblank s)) as H.
  fold aadhar_re in H.
  destruct (re_match no_flags aadhar_re (aadhar_digits s)) as [m|].
  - destruct H as [[-> ->] _]; [by eauto|]. done.
  - destruct ((String.length (aadhar_digits s) =? 12)
              && sall is_digit (aadhar_digits s)) eqn:E; [|done].
    apply andb_prop in E as [E1%Nat.eqb_eq E2].
    destruct H as [_ [? [=]]]. done.
Qed.

Lemma aadhar_digits_format d :
  sall aadhar_keeps d = true -> aadhar_digits (aadhar_format d) = d.
Proof.
  intros Hd. unfold aadhar_digits, aadhar_format.
  rewrite !sfilter_app.
  rewrite (sfilter_id _ (take 4 d)) by (by apply sall_take).
  rewrite (sfilter_id _ (take 4 (drop 4 d))) by (by apply sall_take, sall_drop).
  rewrite (sfilter_id _ (drop 8 d)) by (by apply sall_drop).
  change (sfilter aadhar_keeps "-") with "". rewrite !app_nil.
  replace (drop 8 d) with (drop 4 (drop 4 d)) by (by rewrite drop_drop).
  by rewrite !take_drop.
Qed.

(** Re-validating an accepted Aadhar number accepts it unchanged. *)
Lemma aadhar_fixed v n msg :
  validate_and_format_aadhar v = Ret (Some n, msg, "correct") ->
  validate_and_format_aadhar (VStr n) = Ret (Some n, None, "correct").
Proof.
  destruct v as [| |s| |]; try done.
  rewrite !aadhar_eval.
  destruct ((String.length (aadhar_digits s) =? 12)
            && sall is_digit (aadhar_digits s)) eqn:E; [|done].
  intros [= <- <-].
  rewrite aadhar_digits_format by apply sall_sfilter.
  by rewrite E.
Qed.

(** ** PAN, passport, voter id, driving licence *)

Lemma upper_char_idem c : upper_char (upper_char c) = upper_char c.
Proof. by destruct c as [[] [] [] [] [] [] [] []]. Qed.

Lemma upper_char_space c : Ascii.eqb (upper_char c) " " = Ascii.eqb c " ".
Proof. by destruct c as [[] [] [] [] [] [] [] []]. Qed.

Lemma upper_idem s : upper (upper s) = upper s.
Proof.
  induction s as [|c s IH]; [done|]. unfold upper in *. cbn.
  by rewrite upper_char_idem, IH.
Qed.

Lemma upper_remove_spaces s : upper (remove_spaces s) = remove_spaces (upper s).
Proof.
  induction s as [|c s IH]; [done|]. unfold upper, remove_spaces in *. cbn.
  rewrite upper_char_space. destruct (Ascii.eqb c " "); cbn; by rewrite IH.
Qed.

(** [value.upper().replace(' ', '')] changes its own result no more. *)
Lemma upper_nospace_idem s :
  remove_spaces (upper (remove_spaces (upper s))) = remove_spaces (upper s).
Proof.
  rewrite upper_remove_spaces, upper_idem.
  unfold remove_spaces. apply sfilter_idem.
Qed.

(** The shape the four share: clean, match, return the cleaned text. *)
Definition upper_validator (r : regex) (msg : string) (v : pyobj)
    : outcome verdict :=
  cleaned ← upper_nospace v;
  match re_match no_flags r cleaned with
  | Some _ => Ret (accepted cleaned)
  | None => Ret (rejected msg)
  end.

Lemma upper_validator_fixed r m v n msg :
  upper_validator r m v = Ret (Some n, msg, "correct") ->
  upper_validator r m (VStr n) = Ret (Some n, None, "correct").
Proof.
  destruct v as [| |s| |]; try done.
  unfold upper_validator. cbn [upper_nospace mbind outcome_bind bind].
  destruct (re_match no_flags r (remove_spaces (upper s))) eqn:E; [|done].
  intros [= <- <-]. by rewrite upper_nospace_idem, E.
Qed.

(** ** Bank accounts and cards *)

Lemma non_digit_cleaned s : re_sub non_digit "" s = sfilter is_digit s.
Proof.
  unfold non_digit. rewrite re_sub_cls. apply sfilter_ext.
  intros c. unfold cls_match. cbn. rewrite orb_false_r.
  by destruct (is_digit c).
Qed.

Lemma bank_account_fixed v n msg :
  validate_and_format_bank_account v = Ret (Some n, msg, "correct") ->
  validate_and_format_bank_account (VStr n) = Ret (Some n, None, "correct").
Proof.
  destruct v as [| |s| |]; try done.
  unfold validate_and_format_bank_account.
  cbn [re_arg mbind outcome_bind bind]. rewrite !non_digit_cleaned.
  destruct (re_match no_flags bank_account_re (sfilter is_digit s)) eqn:E;
    [|done].
  intros [= <- <-]. by rewrite sfilter_idem, E.
Qed.

Lemma join_cons sep x y l :
  join sep (x :: y :: l) = x ++ sep ++ join sep (y :: l).
Proof. reflexivity. Qed.

Lemma chunks4_digits fuel : forall d,
  String.length d <= fuel -> sall is_digit d = true ->
  sfilter is_digit (join "-" (chunks4 fuel d)) = d.
Proof.
  induction fuel as [|fuel IH]; intros d Hlen Hd.
  - destruct d; [done|]. cbn in Hlen. lia.
  - destruct d as [|c d]; [done|].
    cbn [chunks4].
    assert (String.length (drop 4 (String c d)) <= fuel) as Hl.
    { rewrite length_drop. cbn [String.length] in *. lia. }
    pose proof (IH _ Hl (sall_drop _ 4 _ Hd)) as IH'.
    destruct (chunks4 fuel (drop 4 (String c d))) as [|y l] eqn:Ec.
    + change (join "-" [take 4 (String c d)]) with (take 4 (String c d)).
      rewrite sfilter_id by (by apply sall_take).
      change (sfilter is_digit (join "-" [])) with "" in IH'.
      transitivity (take 4 (String c d) ++ drop 4 (String c d));
        [by rewrite <- IH', app_empty_r | apply take_drop].
    + rewrite join_cons, !sfilter_app, IH'.
      rewrite sfilter_id by (by apply sall_take).
      change (sfilter is_digit "-") with "". rewrite app_nil.
      apply take_drop.
Qed.

Lemma credit_card_fixed v n msg :
  validate_and_format_credit_card v = Ret (Some n, msg, "correct") ->
  validate_and_format_credit_card (VStr n) = Ret (Some n, None, "correct").
Proof.
  destruct v as [| |s| |]; try done.
  unfold validate_and_format_credit_card.
  cbn [re_arg mbind outcome_bind bind]. rewrite !non_digit_cleaned.
  destruct (re_match no_flags credit_card_re (sfilter is_digit s)) eqn:E;
    [|done].
  intros [= <- <-].
  rewrite chunks4_digits by (done || apply sall_sfilter).
  by rewrite E.
Qed.

Lemma ip_fixed v n msg :
  validate_and_format_ip v = Ret (Some n, msg, "correct") ->
  validate_and_format_ip (VStr n) = Ret (Some n, None, "correct").
Proof.
  destruct v as [| |s| |]; try done.
  unfold validate_and_format_ip. cbn [re_arg mbind outcome_bind bind].
  destruct (re_match no_flags ip_re s) eqn:E; [|done].
  intros [= <- <-]. by rewrite E.
Qed.

End ValidatorFacts.

(* ================================================================== *)
(** * Dates: parsing what [strftime] wrote *)
(* ================================================================== *)

Module DateFacts.
Import StrFacts ReFacts ValidatorFacts.
#[local] Open Scope Z_scope.

(** A property of the ten digit characters holds of every
    [digit_char n]. *)
Lemma digit_cases (P : ascii -> Prop) :
  P "0"%char -> P "1"%char -> P "2"%char -> P "3"%char -> P "4"%char ->
  P "5"%char -> P "6"%char -> P "7"%char -> P "8"%char -> P "9"%char ->
  forall n, P (digit_char n).
Proof.
  intros H0 H1 H2 H3 H4 H5 H6 H7 H8 H9 n. unfold digit_char.
  pose proof (Z.mod_pos_bound n 10 ltac:(lia)) as Hb.
  assert (n mod 10 = 0 \/ n mod 10 = 1 \/ n mod 10 = 2 \/ n mod 10 = 3
          \/ n mod 10 = 4 \/ n mod 10 = 5 \/ n mod 10 = 6 \/ n mod 10 = 7
          \/ n mod 10 = 8 \/ n mod 10 = 9) as Hc by lia.
  destruct Hc as [-> | [-> | [-> | [-> | [-> | [-> | [-> | [-> | [-> | ->]]]]]]]]];
    assumption.
Qed.

Lemma digit_char_is_digit n : is_digit (digit_char n) = true.
Proof. by apply digit_cases. Qed.

Lemma digit_char_nonblank n : nonblank (digit_char n) = true.
Proof. by apply digit_cases. Qed.

Lemma digit_val_digit_char n : digit_val (digit_char n) = n mod 10.
Proof.
  unfold digit_char, digit_val, code.
  pose proof (Z.mod_pos_bound n 10 ltac:(lia)) as Hb.
  rewrite N_ascii_embedding by lia. lia.
Qed.

(** No digit is a separator of the formats. *)
Lemma digit_not_slash n :
  cls_match IGNORECASE false [CChar "/"] (digit_char n) = false.
Proof. by apply digit_cases. Qed.

Lemma digit_not_hyphen n :
  cls_match IGNORECASE false [CChar "-"] (digit_char n) = false.
Proof. by apply digit_cases. Qed.

Lemma int_of_pad4 y : 0 <= y <= 9999 -> int_of (pad4 y) = y.
Proof.
  intros Hy. unfold int_of, pad4.
  rewrite strip_id by (cbn [sall]; by rewrite !digit_char_nonblank).
  rewrite !digit_val_digit_char.
  Z.div_mod_to_equations. lia.
Qed.

Lemma int_of_pad2 m : 0 <= m <= 99 -> int_of (pad2 m) = m.
Proof.
  intros Hm. unfold int_of, pad2.
  rewrite strip_id by (cbn [sall]; by rewrite !digit_char_nonblank).
  rewrite !digit_val_digit_char.
  Z.div_mod_to_equations. lia.
Qed.

Lemma strftime_iso_nonblank dt : sall nonblank (strftime_iso dt) = true.
Proof.
  unfold strftime_iso, pad4, pad2. rewrite !app_cons, !app_nil.
  cbn [sall]. by rewrite !digit_char_nonblank.
Qed.

(** ** The order on datetimes *)

Definition dt_later (a b : datetime) : Prop :=
  year b < year a
  \/ (year a = year b
      /\ (month b < month a
          \/ (month a = month b
              /\ (day b < day a
                  \/ (day a = day b /\ (micros b < micros a)%N))))).

Lemma dt_gt_spec a b : dt_gt a b = true <-> dt_later a b.
Proof.
  unfold dt_gt, dt_later.
  rewrite !orb_true_iff, !andb_true_iff, !orb_true_iff, !andb_true_iff,
    !orb_true_iff, !andb_true_iff.
  rewrite !Z.ltb_lt, !Z.eqb_eq, N.ltb_lt. reflexivity.
Qed.

(** What is not after [t] is not after anything [t] is not after. *)
Lemma dt_gt_false_trans d t t' :
  dt_gt d t = false -> dt_gt t t' = false -> dt_gt d t' = false.
Proof.
  intros H1 H2. apply not_true_is_false. intros H3.
  apply not_true_iff_false in H1, H2.
  rewrite dt_gt_spec in H1, H2, H3. unfold dt_later in *. lia.
Qed.

(** ** The directives on a date in ISO form *)

Lemma flat_map_nil {A B} (g : A -> list B) (l : list A) :
  (forall x, In x l -> g x = []) -> flat_map g l = [].
Proof.
  induction l as [|x l IH]; [done|]. intros H. cbn [flat_map].
  rewrite (H x) by (by left). apply IH. intros y Hy. apply H. by right.
Qed.

(** [%d] and [%m] read one or two characters. *)
Lemma short_directive_ends it prev a b rest q :
  it = Fd \/ it = Fm ->
  In q (rmatch IGNORECASE (item_regex it) (prev, String a (String b rest))) ->
  q = (Some a, String b rest) \/ q = (Some b, rest).
Proof.
  intros [-> | ->] H; unfold item_regex, ralt, chr, rng, digit in H;
    cbn [rmatch flat_map snd app] in H;
    repeat match type of H with
           | context [cls_match ?f ?n ?i ?c] =>
               destruct (cls_match f n i c); cbn [flat_map app rmatch snd] in H
           end;
    cbn [In] in H; intuition.
Qed.

(** A format that starts with [%d] or [%m] and a separator does not
    parse a text whose second and third characters are not the
    separator. *)
Lemma short_directive_fails it l more f prev a b c rest :
  it = Fd \/ it = Fm ->
  cls_match IGNORECASE false [CChar l] b = false ->
  cls_match IGNORECASE false [CChar l] c = false ->
  parse_items (it :: FLit l :: more) f
    (prev, String a (String b (String c rest))) = [].
Proof.
  intros Hit Hb Hc. cbn [parse_items]. apply flat_map_nil. intros q Hq.
  apply short_directive_ends in Hq as [-> | ->]; [| |done];
    cbn [parse_items item_regex]; unfold chr; rewrite rmatch_cls;
    [rewrite Hb | rewrite Hc]; done.
Qed.

(** [%Y] reads four digits. *)
Lemma year_directive more f prev a b c d rest :
  is_digit a = true -> is_digit b = true -> is_digit c = true ->
  is_digit d = true ->
  parse_items (FY :: more) f
    (prev, String a (String b (String c (String d rest))))
  = parse_items more
      (set_field FY (String a (String b (String c (String d "")))) f)
      (Some d, rest).
Proof.
  intros Ha Hb Hc Hd. cbn [parse_items item_regex]. unfold digit.
  rewrite rmatch_times_cls.
  cbn [String.length take sall drop after Nat.leb andb].
  rewrite !cls_digit, Ha, Hb, Hc, Hd. cbn [andb flat_map snd].
  rewrite app_nil_r. unfold consumed. cbn [String.length].
  replace (S (S (S (S (String.length rest)))) - String.length rest)%nat
    with 4%nat by lia.
  done.
Qed.

Lemma Z_range_ind (P : Z -> Prop) lo (n : nat) :
  (forall k : nat, (k < n)%nat -> P (lo + Z.of_nat k)) ->
  forall x, lo <= x < lo + Z.of_nat n -> P x.
Proof.
  intros H x Hx. replace x with (lo + Z.of_nat (Z.to_nat (x - lo))) by lia.
  apply H. lia.
Qed.

(** After the year, [-%m-%d] reads a two-digit month and day whole. *)
Lemma iso_month_day Y prev m d :
  1 <= m <= 12 -> 1 <= d <= 31 ->
  exists last l,
    parse_items [FLit "-"; Fm; FLit "-"; Fd] (Y, 1, 1)
      (prev, ("-" ++ pad2 m ++ "-" ++ pad2 d)%string)
    = ((Y, m, d), (Some last, "")) :: l.
Proof.
  intros Hm Hd. revert d Hd.
  pattern m. apply Z_range_ind with (lo := 1) (n := 12%nat); [|lia].
  clear m Hm. intros km Hkm d Hd.
  pattern d. apply Z_range_ind with (lo := 1) (n := 31%nat); [|lia].
  clear d Hd. intros kd Hkd.
  do 12 (destruct km as [|km];
         [do 31 (destruct kd as [|kd];
                 [eexists _, _; vm_compute; reflexivity|]); lia|]).
  lia.
Qed.

Definition iso_format : list fitem := [FY; FLit "-"; Fm; FLit "-"; Fd].

Lemma date_ok_bounds y m d :
  date_ok y m d = true ->
  1 <= y <= 9999 /\ 1 <= m <= 12 /\ 1 <= d <= 31.
Proof.
  unfold date_ok. rewrite !andb_true_iff, !Z.leb_le.
  intros [[[[[? ?] ?] ?] ?] Hd].
  assert (days_in_month y m <= 31).
  { unfold days_in_month.
    destruct m as [|[[[|[]|]|[[]|[]|]|]|[[[]|[]|]|[[]|[]|]|]|]|]; try lia;
      destruct (is_leap y); lia. }
  lia.
Qed.

(** [strptime] with ['%Y-%m-%d'] reads back what [strftime] wrote. *)
Lemma strptime_iso dt :
  date_ok (year dt) (month dt) (day dt) = true -> micros dt = 0%N ->
  strptime (strftime_iso dt) iso_format = Ret dt.
Proof.
  intros Hok Hmic.
  destruct (date_ok_bounds _ _ _ Hok) as (Hy & Hm & Hd).
  unfold strptime, iso_format, strftime_iso.
  change (pad4 (year dt) ++ "-" ++ pad2 (month dt) ++ "-" ++ pad2 (day dt))%string
    with (String (digit_char (year dt / 1000)) (String (digit_char (year dt / 100))
           (String (digit_char (year dt / 10)) (String (digit_char (year dt))
             ("-" ++ pad2 (month dt) ++ "-" ++ pad2 (day dt))%string)))).
  rewrite year_directive by apply digit_char_is_digit.
  change (String (digit_char (year dt / 1000)) _) with (pad4 (year dt)).
  cbn [set_field]. rewrite int_of_pad4 by lia.
  destruct (iso_month_day (year dt) (Some (digit_char (year dt))) _ _ Hm Hd)
    as (last & l & ->).
  rewrite Hok. destruct dt; cbn in *. by subst.
Qed.

Lemma strptime_no_parse s fmt :
  parse_items fmt (1900, 1, 1) (None, s) = [] ->
  strptime s fmt = Raise (ValueError "time data does not match format").
Proof. unfold strptime. by intros ->. Qed.

(** The loop over the formats settles on ['%Y-%m-%d'] for a date in ISO
    form: the five formats before it do not parse. *)
Lemma try_formats_iso dt :
  date_ok (year dt) (month dt) (day dt) = true -> micros dt = 0%N ->
  try_formats (strftime_iso dt) formats = Ret (Some dt).
Proof.
  intros Hok Hmic. unfold formats. cbn [try_formats].
  assert (strftime_iso dt
          = String (digit_char (year dt / 1000)) (String (digit_char (year dt / 100))
              (String (digit_char (year dt / 10)) (String (digit_char (year dt))
                ("-" ++ pad2 (month dt) ++ "-" ++ pad2 (day dt))%string)))) as Hs
    by reflexivity.
  rewrite (strptime_no_parse _ [Fd; FLit "/"; Fm; FLit "/"; FY])
    by (rewrite Hs; apply short_directive_fails;
        auto using digit_not_slash).
  rewrite (strptime_no_parse _ [Fm; FLit "/"; Fd; FLit "/"; FY])
    by (rewrite Hs; apply short_directive_fails;
        auto using digit_not_slash).
  rewrite (strptime_no_parse _ [FY; FLit "/"; Fm; FLit "/"; Fd])
    by (rewrite Hs, year_directive by apply digit_char_is_digit; reflexivity).
  rewrite (strptime_no_parse _ [Fd; FLit "-"; Fm; FLit "-"; FY])
    by (rewrite Hs; apply short_directive_fails;
        auto using digit_not_hyphen).
  rewrite (strptime_no_parse _ [Fm; FLit "-"; Fd; FLit "-"; FY])
    by (rewrite Hs; apply short_directive_fails;
        auto using digit_not_hyphen).
  fold iso_format. by rewrite strptime_iso.
Qed.

Lemma strptime_date s fmt d :
  strptime s fmt = Ret d ->
  date_ok (year d) (month d) (day d) = true /\ micros d = 0%N.
Proof.
  unfold strptime.
  destruct (parse_items fmt (1900, 1, 1) (None, s)) as [|[[[y m] dd] [? rest]] ?];
    [done|].
  destruct rest; [|done].
  destruct (date_ok y m dd) eqn:E; [|done].
  by intros [= <-].
Qed.

Lemma try_formats_date s fmts d :
  try_formats s fmts = Ret (Some d) ->
  date_ok (year d) (month d) (day d) = true /\ micros d = 0%N.
Proof.
  induction fmts as [|fmt fmts IH]; [done|]. cbn [try_formats].
  destruct (strptime s fmt) as [d'|e] eqn:E.
  - intros [= ->]. by eapply strptime_date.
  - by destruct e.
Qed.

(** A later call accepts the date an earlier call wrote. *)
Lemma date_fixed clk clk' v n msg :
  year (now_year clk) <= year (now_year clk') ->
  dt_gt (now_cmp clk) (now_cmp clk') = false ->
  validate_and_format_date clk v = Ret (Some n, msg, "correct") ->
  validate_and_format_date clk' (VStr n) = Ret (Some n, None, "correct").
Proof.
  intros Hyear Hcmp. unfold validate_and_format_date at 1.
  destruct (guarded v) as [[s|]|e]; cbn [mbind outcome_bind bind]; [|done..].
  destruct (try_formats (strip s) formats) as [[d|]|e] eqn:E;
    cbn [mbind outcome_bind bind catch]; [|done..].
  destruct (try_formats_date _ _ _ E) as [Hok Hmic].
  destruct ((year d <? 1900) || (year (now_year clk) <? year d)) eqn:Hy;
    [done|].
  destruct (dt_gt d (now_cmp clk)) eqn:Hf; [done|].
  intros [= <- <-].
  unfold validate_and_format_date.
  assert (guarded (VStr (strftime_iso d)) = Ret (Some (strftime_iso d))) as ->
    by done.
  cbn [mbind outcome_bind bind].
  rewrite strip_id by apply strftime_iso_nonblank.
  rewrite try_formats_iso by done.
  cbn [mbind outcome_bind bind catch].
  apply orb_false_elim in Hy as [Hy1 Hy2].
  apply Z.ltb_ge in Hy2.
  assert ((year (now_year clk') <? year d) = false) as -> by (apply Z.ltb_ge; lia).
  rewrite Hy1. cbn [orb].
  by rewrite (dt_gt_false_trans _ _ _ Hf Hcmp).
Qed.

End DateFacts.

(* ================================================================== *)
(** * What the packages are relied on for *)
(* ================================================================== *)

Module Contracts.
Import StrFacts ReFacts ValidatorFacts.

(** The properties of [nameparser], [phonenumbers] and
    [email_validator] under which a library-backed validator accepts its
    own output: a parsed name renders to text that parses to the same
    name; a valid number's international form starts with a plus sign and
    parses back to the number; a normalized address validates to
    itself. *)
Record round_trip (L : Libs) : Prop := {
  name_reparse : forall s name,
    HumanName L s = Ret name -> HumanName L (strip (hn_str name)) = Ret name;
  name_rendered : forall s name,
    HumanName L s = Ret name -> hn_str name = "" ->
    hn_first name = "" /\ hn_last name = "";
  phone_plus : forall n,
    pn_is_valid_number L n = true ->
    startswith "+" (pn_format_number L n INTERNATIONAL) = true;
  phone_reparse : forall n,
    pn_is_valid_number L n = true ->
    pn_parse L (re_sub not_phone_char ""
                  (pn_format_number L n INTERNATIONAL)) None = Ret n;
  email_revalidate : forall s v,
    validate_email L s = Ret v ->
    normalized v <> ""
    /\ exists v', validate_email L (strip (normalized v)) = Ret v'
                  /\ normalized v' = normalized v
}.

(** The clock does not run backwards between two calls. *)
Definition not_before (clk clk' : clock) : Prop :=
  (year (now_year clk) <= year (now_year clk'))%Z
  /\ dt_gt (now_cmp clk) (now_cmp clk') = false.

Lemma guarded_nonempty s : s <> "" -> guarded (VStr s) = Ret (Some s).
Proof. by destruct s. Qed.

(** The guard on a string: only the empty one is stopped. *)
Lemma guarded_str s :
  guarded (VStr s) = Ret (if String.eqb s "" then None else Some s).
Proof. by destruct s. Qed.

Section Validators.
Variable L : Libs.
Hypothesis HL : round_trip L.

Lemma check_name_parts_rejects name parts bad :
  check_name_parts name parts = Ret (Some bad) -> exists m, bad = rejected m.
Proof.
  induction parts as [|part parts IH]; [done|]. cbn [check_name_parts].
  destruct (hn_in_titles name part) as [[]|]; cbn [mbind outcome_bind bind];
    [done| |done].
  destruct (hn_in_suffixes name part) as [[]|]; cbn [mbind outcome_bind bind];
    [done| |done].
  destruct (re_match no_flags name_part_re part); [|intros [= <-]; by eauto].
  destruct (String.length part <? 2); [intros [= <-]; by eauto|].
  destruct (20 <? String.length part); [intros [= <-]; by eauto|done].
Qed.

Lemma full_name_fixed v n msg :
  DataValidator.validate_and_format_full_name L v = Ret (Some n, msg, "correct") ->
  DataValidator.validate_and_format_full_name L (VStr n)
  = Ret (Some n, None, "correct").
Proof.
  unfold DataValidator.validate_and_format_full_name at 1.
  destruct (guarded v) as [[s|]|e]; cbn [mbind outcome_bind bind]; [|done..].
  destruct (HumanName L (strip s)) as [name|e] eqn:En;
    cbn [mbind outcome_bind bind catch]; [|done].
  destruct (String.eqb (hn_first name) "" && String.eqb (hn_last name) "")
    eqn:Ef; [done|].
  destruct (5 <? List.length (split (hn_str name))) eqn:El; [done|].
  destruct (check_name_parts name (split (hn_str name))) as [[bad|]|e] eqn:Ec;
    cbn [mbind outcome_bind bind catch]; [|intros [= <- <-]|done].
  { apply check_name_parts_rejects in Ec as [m ->]. done. }
  unfold DataValidator.validate_and_format_full_name.
  rewrite guarded_nonempty.
  - cbn [mbind outcome_bind bind]. rewrite (name_reparse L HL _ _ En).
    cbn [mbind outcome_bind bind catch]. by rewrite Ef, El, Ec.
  - intros Hs. destruct (name_rendered L HL _ _ En Hs) as [H1 H2].
    by rewrite H1, H2 in Ef.
Qed.

Lemma phone_cleaned s :
  re_sub not_phone_char "" s
  = sfilter (fun c => is_digit c || Ascii.eqb c "+" || Ascii.eqb c "-") s.
Proof.
  unfold not_phone_char. rewrite re_sub_cls. apply sfilter_ext.
  intros c. unfold cls_match. cbn. rewrite orb_false_r, orb_assoc.
  by destruct (is_digit c || Ascii.eqb c "+" || Ascii.eqb c "-").
Qed.

Lemma phone_cleaned_plus s :
  startswith "+" s = true -> startswith "+" (re_sub not_phone_char "" s) = true.
Proof.
  rewrite phone_cleaned. destruct s as [|c s]; [done|].
  cbn [startswith sfilter]. rewrite andb_true_r.
  intros <-%Ascii.eqb_eq. done.
Qed.

Lemma phone_fixed v n msg :
  validate_and_format_phone L v = Ret (Some n, msg, "correct") ->
  validate_and_format_phone L (VStr n) = Ret (Some n, None, "correct").
Proof.
  assert (forall num, pn_is_valid_number L num = true ->
            validate_and_format_phone L
              (VStr (pn_format_number L num INTERNATIONAL))
            = Ret (accepted (pn_format_number L num INTERNATIONAL))) as Hre.
  { intros num Hv. unfold validate_and_format_phone.
    pose proof (phone_plus L HL _ Hv) as Hp.
    rewrite guarded_nonempty
      by (intros E; rewrite E in Hp; done).
    cbn [mbind outcome_bind bind].
    rewrite (phone_cleaned_plus _ Hp). cbn [negb].
    rewrite (phone_reparse L HL _ Hv).
    cbn [mbind outcome_bind bind catch]. by rewrite Hv. }
  unfold validate_and_format_phone at 1.
  destruct (guarded v) as [[s|]|e]; cbn [mbind outcome_bind bind]; [|done..].
  set (cleaned := if negb (startswith "+" (re_sub not_phone_char "" s))
                  then "+91" ++ re_sub not_phone_char "" s
                  else re_sub not_phone_char "" s).
  destruct (pn_parse L cleaned None) as [num|e];
    cbn [mbind outcome_bind bind catch]; [|done].
  destruct (pn_is_valid_number L num) eqn:Ev.
  - intros [= <- <-]. by apply Hre.
  - destruct (negb (startswith "+" cleaned)); [|done].
    destruct (pn_parse L cleaned (Some "IN")) as [num'|e];
      cbn [mbind outcome_bind bind catch]; [|done].
    destruct (pn_is_valid_number L num') eqn:Ev'; [|done].
    intros [= <- <-]. by apply Hre.
Qed.

Lemma email_fixed v n msg :
  DataValidator.validate_and_format_email L v = Ret (Some n, msg, "correct") ->
  DataValidator.validate_and_format_email L (VStr n)
  = Ret (Some n, None, "correct").
Proof.
  unfold DataValidator.validate_and_format_email at 1.
  destruct (guarded v) as [[s|]|e]; cbn [mbind outcome_bind bind]; [|done..].
  destruct (validate_email L (strip s)) as [r|e] eqn:E.
  - intros [= <- <-].
    destruct (email_revalidate L HL _ _ E) as (Hne & r' & Hr' & Hn).
    unfold DataValidator.validate_and_format_email.
    rewrite guarded_nonempty by done. cbn [mbind outcome_bind bind].
    by rewrite Hr', Hn.
  - by destruct e.
Qed.

End Validators.

(** ** The sample packages keep the contract *)

Lemma lower_char_idem c : lower_char (lower_char c) = lower_char c.
Proof. by destruct c as [[] [] [] [] [] [] [] []]. Qed.

Lemma lower_char_at c : Ascii.eqb "@" (lower_char c) = Ascii.eqb "@" c.
Proof. by destruct c as [[] [] [] [] [] [] [] []]. Qed.

Lemma lower_char_nonblank c : nonblank (lower_char c) = nonblank c.
Proof. by destruct c as [[] [] [] [] [] [] [] []]. Qed.

Lemma digit_keeps c :
  is_digit c = true ->
  (is_digit c || Ascii.eqb c "+" || Ascii.eqb c "-") = true
  /\ negb (Ascii.eqb c "-") = true.
Proof. by destruct c as [[] [] [] [] [] [] [] []]. Qed.

Lemma lower_idem s : lower (lower s) = lower s.
Proof.
  induction s as [|c s IH]; [done|]. unfold lower in *. cbn [smap].
  by rewrite lower_char_idem, IH.
Qed.

Lemma lower_nonblank s : sall nonblank (lower s) = sall nonblank s.
Proof.
  induction s as [|c s IH]; [done|]. unfold lower in *. cbn [smap sall].
  by rewrite lower_char_nonblank, IH.
Qed.

Lemma lower_has_at s : Sample.has_char "@" (lower s) = Sample.has_char "@" s.
Proof.
  induction s as [|c s IH]; [done|]. unfold lower in *.
  cbn [smap Sample.has_char]. by rewrite lower_char_at, IH.
Qed.

Definition phone_keeps (c : ascii) : bool :=
  is_digit c || Ascii.eqb c "+" || Ascii.eqb c "-".

Lemma sample_international n :
  sall is_digit n = true ->
  sfilter phone_keeps (Sample.sample_format n INTERNATIONAL) = String "+" n.
Proof.
  intros Hd.
  assert (sall phone_keeps n = true) as Hk.
  { eapply sall_impl; [|exact Hd]. intros c Hc. by apply digit_keeps in Hc as [? _]. }
  unfold Sample.sample_format. rewrite app_cons, app_nil.
  cbn [sfilter]. change (phone_keeps "+") with true. cbn iota. f_equal.
  rewrite !sfilter_app.
  rewrite (sfilter_id _ (take 2 n)) by (by apply sall_take).
  rewrite (sfilter_id _ (take 5 (drop 2 n))) by (by apply sall_take, sall_drop).
  rewrite (sfilter_id _ (drop 7 n)) by (by apply sall_drop).
  change (sfilter phone_keeps " ") with "". rewrite !app_nil.
  replace (drop 7 n) with (drop 5 (drop 2 n)) by (by rewrite drop_drop).
  by rewrite !take_drop.
Qed.

Lemma sample_round_trip : round_trip Sample.libs.
Proof.
  split; cbn [Sample.libs HumanName pn_is_valid_number pn_format_number
              pn_parse validate_email].
  - unfold Sample.sample_name. intros s name [= <-]. cbn [hn_str].
    by rewrite !strip_idem.
  - unfold Sample.sample_name. by intros s name [= <-].
  - done.
  - intros n. unfold Sample.sample_valid.
    rewrite !andb_true_iff. intros [[[Hlen%Nat.eqb_eq _] Hd] _].
    rewrite phone_cleaned. fold phone_keeps.
    rewrite sample_international by done.
    cbn [Sample.sample_parse].
    rewrite sfilter_id
      by (eapply sall_impl; [intros c Hc; by apply digit_keeps in Hc as [_ ?]|done]).
    unfold Sample.all_digits. rewrite Hd.
    destruct n; [done|]. done.
  - intros s v. unfold Sample.sample_email.
    destruct (Sample.has_char "@" s && sall nonblank s) eqn:E; [|done].
    intros [= <-]. cbn [normalized].
    split; [by destruct s|].
    rewrite strip_id by (rewrite lower_nonblank; by apply andb_prop in E as [_ ?]).
    rewrite lower_has_at, lower_nonblank, E.
    eexists; split; [done|]. cbn [normalized]. apply lower_idem.
Qed.

End Contracts.

(* ================================================================== *)
(** * The validator table *)
(* ================================================================== *)

Module Registry.
Import ValidatorFacts DateFacts Contracts.

(** The thirteen entries of the table, read off a successful look-up. *)
Lemma registered L clk ft f :
  get_validator_for_type L clk ft = Some f ->
  (ft = "full_name" /\ f = DataValidator.validate_and_format_full_name L)
  \/ (ft = "date_of_birth" /\ f = validate_and_format_date clk)
  \/ (ft = "mobile_number" /\ f = validate_and_format_phone L)
  \/ (ft = "telephone_number" /\ f = validate_and_format_phone L)
  \/ (ft = "email_address" /\ f = DataValidator.validate_and_format_email L)
  \/ (ft = "aadhar_number" /\ f = validate_and_format_aadhar)
  \/ (ft = "pan_number" /\ f = validate_and_format_pan)
  \/ (ft = "passport_number" /\ f = validate_and_format_passport)
  \/ (ft = "voter_id_number" /\ f = validate_and_format_voter_id)
  \/ (ft = "driving_license_number"
      /\ f = validate_and_format_driving_license)
  \/ (ft = "bank_account_number" /\ f = validate_and_format_bank_account)
  \/ (ft = "credit_debit_card_number"
      /\ f = validate_and_format_credit_card)
  \/ (ft = "ip_address" /\ f = validate_and_format_ip).
Proof.
  unfold get_validator_for_type, validators.
  intros H%elem_of_list_to_map_2.
  repeat (apply elem_of_cons in H as [[= -> ->]|H]; [by intuition|]).
  by apply elem_of_nil in H.
Qed.

End Registry.

(* ================================================================== *)
(** * Literal search *)
(* ================================================================== *)

Module SearchFacts.
Import App StrFacts ReFacts.

(** [term] stands at the head of [s], letter case apart. *)
Fixpoint ci_prefix (term s : string) : bool :=
  match term, s with
  | EmptyString, _ => true
  | String x term', String c s' =>
      Ascii.eqb (lower_char c) (lower_char x) && ci_prefix term' s'
  | String _ _, EmptyString => false
  end.

(** The occurrences of [term] in a text, read from the left, an
    occurrence starting where the one before it ended or later; [skip]
    characters still belong to the last one found. *)
Fixpoint occurrences_from (term s : string) (skip : nat) : list string :=
  match s with
  | EmptyString => []
  | String _ s' =>
      match skip with
      | S k => occurrences_from term s' k
      | O =>
          if ci_prefix term s
          then take (String.length term) s
               :: occurrences_from term s' (String.length term - 1)
          else occurrences_from term s' 0
      end
  end.

Definition occurrences (term text : string) : list string :=
  occurrences_from term text 0.

Lemma ci_prefix_length term s :
  ci_prefix term s = true -> String.length term <= String.length s.
Proof.
  revert s. induction term as [|x term IH]; intros [|c s]; cbn; try done; [lia|].
  intros [_ H]%andb_prop. apply IH in H. lia.
Qed.

(** The pattern of a literal matches where the literal stands. *)
Lemma rmatch_literal term : forall prev s,
  rmatch IGNORECASE (literal term) (prev, s)
  = if ci_prefix term s
    then [(after prev (take (String.length term) s),
           drop (String.length term) s)]
    else [].
Proof.
  induction term as [|x term IH]; intros prev s; [by destruct s|].
  cbn [literal]. rewrite rmatch_seq. unfold chr.
  destruct s as [|c s]; [done|].
  rewrite rmatch_cls. unfold cls_match. cbn [existsb citem_match ignorecase IGNORECASE xorb orb].
  rewrite orb_false_r. cbn [ci_prefix String.length take drop after].
  destruct (Ascii.eqb (lower_char c) (lower_char x)); cbn [flat_map andb]; [|done].
  by rewrite app_nil_r, IH.
Qed.

Lemma consumed_drop n s :
  n <= String.length s -> consumed s (drop n s) = take n s.
Proof.
  intros H. unfold consumed. rewrite length_drop. f_equal. lia.
Qed.

Lemma scan_literal term : term <> "" -> forall s prev skip gap,
  snd <$> fst (scan IGNORECASE (literal term) prev s skip gap)
  = occurrences_from term s skip.
Proof.
  intros Hne. induction s as [|c s IH]; intros prev skip gap.
  - destruct skip; [|done]. cbn [scan]. unfold match_at.
    rewrite rmatch_literal. by destruct term.
  - destruct skip as [|k]; cbn [scan occurrences_from]; [|apply IH].
    unfold match_at. rewrite rmatch_literal.
    destruct (ci_prefix term (String c s)) eqn:E.
    + pose proof (ci_prefix_length _ _ E) as Hlen.
      cbn [snd]. rewrite consumed_drop by done.
      rewrite length_take, Nat.min_l by done.
      match goal with
      | |- context [scan _ _ _ s _ ?g] =>
          specialize (IH (Some c) (String.length term - 1) g);
          destruct (scan IGNORECASE (literal term) (Some c) s
                      (String.length term - 1) g) as [ms tl]
      end.
      cbn [fst fmap list_fmap snd] in *. by f_equal.
    + apply IH.
Qed.

(** [re.finditer(re.escape(term), text, re.IGNORECASE)] finds the
    occurrences of [term]. *)
Lemma finditer_literal term text :
  term <> "" -> finditer IGNORECASE (literal term) text = occurrences term text.
Proof. intros H. by apply scan_literal. Qed.

(** One record per occurrence on every page with text, in page
    order; [page_num] counts from 0 as the loop does. *)
Fixpoint custom_records (term : string) (page_num : nat) (pages : list string)
    : list result :=
  match pages with
  | [] => []
  | text :: rest =>
      ((if blank text then []
        else (fun m => correct_record m page_num "custom_search")
               <$> occurrences term text)
       ++ custom_records term (S page_num) rest)%list
  end.

Lemma scan_pages_custom L term pages : forall page_num,
  term <> "" ->
  scan_pages L "custom_search" (Some term) page_num (Ret <$> pages)
  = Ret (custom_records term page_num pages).
Proof.
  induction pages as [|text pages IH]; intros page_num Hne; [done|].
  cbn [fmap list_fmap scan_pages custom_records mbind outcome_bind bind].
  change (list_fmap string (outcome string) Ret pages) with (Ret <$> pages).
  rewrite IH by done. cbn [mbind outcome_bind bind].
  destruct (blank text); [done|].
  unfold page_records.
  change (String.eqb "custom_search" "full_name") with false.
  change (String.eqb "custom_search" "mobile_number") with false.
  change (String.eqb "custom_search" "email_address") with false.
  change (String.eqb "custom_search" "custom_search") with true.
  cbn [andb some_text default].
  assert (nonempty term = true) as -> by (by destruct term).
  cbn [mbind outcome_bind bind]. by rewrite finditer_literal.
Qed.

Lemma ci_prefix_lower term : forall s,
  ci_prefix term s = true ->
  lower (take (String.length term) s) = lower term.
Proof.
  induction term as [|x term IH]; intros [|c s]; cbn [ci_prefix]; try done.
  intros [Hc%Ascii.eqb_eq H]%andb_prop.
  unfold lower in *. cbn [String.length take smap]. by rewrite Hc, IH.
Qed.

(** What is found is the term, letter case apart. *)
Lemma occurrences_lower term s : forall skip m,
  In m (occurrences_from term s skip) -> lower m = lower term.
Proof.
  induction s as [|c s IH]; intros skip m; [done|].
  cbn [occurrences_from]. destruct skip as [|k]; [|apply IH].
  destruct (ci_prefix term (String c s)) eqn:E; [|apply IH].
  intros [<-|H]; [by apply ci_prefix_lower|by eapply IH].
Qed.

Lemma custom_records_shape term pages : forall page_num,
  Forall (fun r => status r = "correct" /\ validation_message r = None
                   /\ pattern_type r = "custom_search"
                   /\ lower (value r) = lower term)
         (custom_records term page_num pages).
Proof.
  induction pages as [|text pages IH]; intros page_num; [by constructor|].
  cbn [custom_records]. apply Forall_app. split; [|apply IH].
  destruct (blank text); [by constructor|].
  apply List.Forall_forall. intros r Hr.
  apply list_elem_of_In, list_elem_of_fmap in Hr as [m [-> Hm]].
  repeat split. cbn. eapply occurrences_lower. by apply list_elem_of_In.
Qed.

(** ** Blank pages *)

Lemma rstrip_empty t : rstrip t = "" -> sall is_space t = true.
Proof.
  induction t as [|c t IH]; [done|]. cbn [rstrip sall].
  destruct (rstrip t); [|done].
  destruct (is_space c); [|done]. intros _. by rewrite IH.
Qed.

Lemma lstrip_blank s : sall is_space (lstrip s) = true -> sall is_space s = true.
Proof.
  induction s as [|c s IH]; [done|]. cbn [lstrip sall].
  destruct (is_space c) eqn:E; [done|]. cbn [sall]. by rewrite E.
Qed.

Lemma blank_all_space text : blank text = true -> sall is_space text = true.
Proof.
  unfold blank. intros [->%String.eqb_eq|H%String.eqb_eq]%orb_prop; [done|].
  by apply lstrip_blank, rstrip_empty.
Qed.

Lemma lower_char_space c : is_space (lower_char c) = is_space c.
Proof. by destruct c as [[] [] [] [] [] [] [] []]. Qed.

Lemma ci_prefix_space term : forall s,
  ci_prefix term s = true -> sall is_space s = true ->
  sall is_space term = true.
Proof.
  induction term as [|x term IH]; intros [|c s]; cbn [ci_prefix sall]; try done.
  intros [Hc%Ascii.eqb_eq H]%andb_prop [Hs Hr]%andb_prop.
  rewrite <- (lower_char_space x), <- Hc, lower_char_space, Hs.
  by eapply IH.
Qed.

(** A term with a visible character does not occur on a blank page. *)
Lemma occurrences_blank term s : forall skip,
  sall is_space term = false -> sall is_space s = true ->
  occurrences_from term s skip = [].
Proof.
  induction s as [|c s IH]; intros skip Ht Hs; [done|].
  cbn [occurrences_from]. cbn [sall] in Hs. apply andb_prop in Hs as [Hc Hs].
  destruct skip as [|k]; [|by apply IH].
  destruct (ci_prefix term (String c s)) eqn:E; [|by apply IH].
  apply ci_prefix_space in E; [congruence|]. cbn [sall]. by rewrite Hc, Hs.
Qed.

End SearchFacts.

(* ================================================================== *)
(** * Binary64: how far a quotient and a percentage are off *)
(* ================================================================== *)

Module FloatFacts.
Import Float.
Local Open Scope Z_scope.

Definition F2Q (m e : Z) : Q := (inject_Z m * 2 ^ e)%Q.

Lemma pow2_pos e : (0 < 2 ^ e)%Q.
Proof. by apply Qpower_0_lt. Qed.

Lemma pow2_add a b : (2 ^ (a + b) == 2 ^ a * 2 ^ b)%Q.
Proof. by apply Qpower_plus. Qed.

Lemma pow2_le a b : a <= b -> (2 ^ a <= 2 ^ b)%Q.
Proof. intros H. by apply Qpower_le_compat_l. Qed.

Lemma pow2_Z n : 0 <= n -> (2 ^ n == inject_Z (2 ^ n))%Q.
Proof. intros H. by rewrite Zpower_Qpower. Qed.

Lemma F2Q_shift m e k : 0 <= k -> (F2Q (m * 2 ^ k) e == F2Q m (e + k))%Q.
Proof.
  intros H. unfold F2Q.
  rewrite inject_Z_mult, <- pow2_Z, pow2_add by done. ring.
Qed.

Lemma F2Q_le m m' e : m <= m' -> (F2Q m e <= F2Q m' e)%Q.
Proof.
  intros H. unfold F2Q. apply Qmult_le_compat_r.
  - by rewrite <- Zle_Qle.
  - apply Qlt_le_weak, pow2_pos.
Qed.

Lemma F2Q_succ m e : (F2Q (m + 1) e == F2Q m e + 2 ^ e)%Q.
Proof. unfold F2Q. rewrite inject_Z_plus. ring. Qed.

(** A mantissa below a power of two. *)
Lemma F2Q_lt_pow2 m e B : e <= B -> (F2Q m e < 2 ^ B)%Q -> m < 2 ^ (B - e).
Proof.
  intros He H. unfold F2Q in H.
  replace B with (e + (B - e)) in H by lia.
  rewrite pow2_add, (Qmult_comm (2 ^ e)) in H.
  apply Qmult_lt_r in H; [|apply pow2_pos].
  rewrite pow2_Z in H by lia. by rewrite <- Zlt_Qlt in H.
Qed.


(** ** Binary digits *)

Lemma digits2_pos_bounds p :
  2 ^ (Zpos (digits2_pos p) - 1) <= Zpos p < 2 ^ Zpos (digits2_pos p).
Proof.
  induction p as [p IH|p IH|]; cbn [digits2_pos].
  - rewrite Pos2Z.inj_succ, (Pos2Z.inj_xI p).
    replace (Z.succ (Zpos (digits2_pos p)) - 1)
      with (Z.succ (Zpos (digits2_pos p) - 1)) by lia.
    rewrite !Z.pow_succ_r by lia. lia.
  - rewrite Pos2Z.inj_succ, (Pos2Z.inj_xO p).
    replace (Z.succ (Zpos (digits2_pos p)) - 1)
      with (Z.succ (Zpos (digits2_pos p) - 1)) by lia.
    rewrite !Z.pow_succ_r by lia. lia.
  - cbn. lia.
Qed.

Lemma Zdigits2_nonneg m : 0 <= Zdigits2 m.
Proof. destruct m; cbn; lia. Qed.

Lemma Zdigits2_le m k : 0 <= m < 2 ^ k -> 0 <= k -> Zdigits2 m <= k.
Proof.
  intros [H0 Hk] Hk0. destruct m as [|p|p]; [done| |lia]. cbn [Zdigits2].
  pose proof (digits2_pos_bounds p) as [Hlo _].
  apply Z.nlt_ge. intros Hlt.
  assert (2 ^ k <= 2 ^ (Zpos (digits2_pos p) - 1))
    by (apply Z.pow_le_mono_r; lia).
  lia.
Qed.

Lemma Zdigits2_mono a b : 0 < a <= b -> Zdigits2 a <= Zdigits2 b.
Proof.
  intros [Ha Hab]. destruct b as [|q|q]; [lia| |lia].
  apply Zdigits2_le; [|apply Zdigits2_nonneg].
  pose proof (digits2_pos_bounds q) as [_ Hhi]. cbn [Zdigits2]. lia.
Qed.

(** ** Shifting a mantissa to the right *)

Lemma shr_1_m mrs : 0 <= shr_m mrs -> shr_m (shr_1 mrs) = shr_m mrs / 2.
Proof.
  destruct mrs as [m r s]. cbn [shr_m]. intros H. unfold shr_1.
  destruct m as [|[p|p|]|p]; cbn [shr_m]; [done| | |done|lia].
  - rewrite (Pos2Z.inj_xI p). apply Z.div_unique with 1; lia.
  - rewrite (Pos2Z.inj_xO p). apply Z.div_unique with 0; lia.
Qed.

Lemma shr_1_nonneg mrs : 0 <= shr_m mrs -> 0 <= shr_m (shr_1 mrs).
Proof. intros H. rewrite shr_1_m by done. by apply Z.div_pos. Qed.

Lemma iter_shr_m n : forall mrs,
  0 <= shr_m mrs ->
  shr_m (iter_pos shr_1 n mrs) = shr_m mrs / 2 ^ Zpos n.
Proof.
  induction n as [n IH|n IH|]; intros mrs H; cbn [iter_pos].
  - assert (0 <= shr_m (shr_1 mrs)) as H1 by (by apply shr_1_nonneg).
    assert (0 <= shr_m (iter_pos shr_1 n (shr_1 mrs))) as H2.
    { rewrite IH by done. apply Z.div_pos; lia. }
    rewrite IH, IH, shr_1_m by done.
    rewrite !Z.div_div by lia. f_equal.
    rewrite (Pos2Z.inj_xI n).
    replace (2 * Zpos n + 1) with (1 + Zpos n + Zpos n) by lia.
    rewrite !Z.pow_add_r, Z.pow_1_r by lia. lia.
  - assert (0 <= shr_m (iter_pos shr_1 n mrs)) as H2.
    { rewrite IH by done. apply Z.div_pos; lia. }
    rewrite IH, IH by done. rewrite Z.div_div by lia. f_equal.
    rewrite (Pos2Z.inj_xO n).
    replace (2 * Zpos n) with (Zpos n + Zpos n) by lia.
    by rewrite Z.pow_add_r by lia.
  - rewrite shr_1_m by done. by rewrite Z.pow_1_r.
Qed.

Lemma shr_m_loc m l : shr_m (shr_record_of_loc m l) = m.
Proof. by destruct l as [|[]]. Qed.

(** [shr] by [n] places divides the mantissa by [2 ^ n] and adds [n] to
    the exponent; nothing happens for [n <= 0]. *)
Lemma shr_spec mrs e n :
  0 <= shr_m mrs ->
  shr_m (fst (shr mrs e n)) = shr_m mrs / 2 ^ Z.max n 0
  /\ snd (shr mrs e n) = e + Z.max n 0.
Proof.
  intros H. destruct n as [|p|p]; cbn [shr fst snd Z.max Z.compare].
  - rewrite Z.div_1_r. lia.
  - rewrite iter_shr_m by done. done.
  - rewrite Z.div_1_r. lia.
Qed.

Lemma round_nearest_even_cases m l :
  round_nearest_even m l = m \/ round_nearest_even m l = m + 1.
Proof.
  destruct l as [|[]]; cbn; auto. destruct (Z.even m); auto.
Qed.


(** ** Rounding to binary64 *)

Lemma fexp_le d B : d <= B -> -1021 <= B -> fexp prec emax d <= B - 53.
Proof. unfold fexp, emin, prec, emax. lia. Qed.

(** Dividing a mantissa by [2 ^ k] and adding [k] to the exponent gives
    the float just below. *)
Lemma F2Q_div m e k :
  0 <= m -> 0 <= k ->
  (F2Q (m / 2 ^ k) (e + k) <= F2Q m e)%Q
  /\ (F2Q (m + 1) e <= F2Q (m / 2 ^ k + 1) (e + k))%Q.
Proof.
  intros Hm Hk.
  assert (0 < 2 ^ k) as Hp by (by apply Z.pow_pos_nonneg).
  pose proof (Z.mul_div_le m (2 ^ k) Hp).
  pose proof (Z.mul_succ_div_gt m (2 ^ k) Hp).
  rewrite <- !F2Q_shift by done. split; apply F2Q_le; lia.
Qed.

(** What [binary_round_aux] returns for a number [X] between the
    mantissa [mx] and the next one, below [2 ^ B]: a float or zero, at most
    three units of [2 ^ (B - 53)] away. *)
Lemma round_aux_bound mx ex lx B X :
  0 <= mx -> -1021 <= B <= 1022 -> ex <= B - 53 ->
  (F2Q mx ex <= X)%Q -> (X <= F2Q (mx + 1) ex)%Q -> (X < 2 ^ B)%Q ->
  exists m e,
    binary_round_aux prec emax false mx ex lx = from_parts m e
    /\ 0 <= m /\ e <= B - 52
    /\ (Qabs (F2Q m e - X) <= 3 * 2 ^ (B - 53))%Q.
Proof.
  intros Hm HB Hex Hlo Hhi HX.
  unfold binary_round_aux, shr_fexp.
  set (n1 := fexp prec emax (Zdigits2 mx + ex) - ex).
  destruct (shr_spec (shr_record_of_loc mx lx) ex n1) as [Hm1 He1];
    [by rewrite shr_m_loc|].
  destruct (shr (shr_record_of_loc mx lx) ex n1) as [mrs1 e1].
  cbn [fst snd] in Hm1, He1. rewrite shr_m_loc in Hm1.
  set (m2 := round_nearest_even (shr_m mrs1) (loc_of_shr_record mrs1)).
  set (n2 := fexp prec emax (Zdigits2 m2 + e1) - e1).
  assert (mx < 2 ^ (B - ex)) as Hmx.
  { apply F2Q_lt_pow2; [lia|]. eapply Qle_lt_trans; [exact Hlo | exact HX]. }
  assert (Zdigits2 mx + ex <= B) as Hd1.
  { pose proof (Zdigits2_le mx (B - ex)). lia. }
  pose proof (fexp_le _ _ Hd1 (proj1 HB)) as Hf1.
  assert (0 <= Z.max n1 0) as Hk1 by lia.
  assert (e1 <= B - 53) as He1B by lia.
  destruct (F2Q_div mx ex (Z.max n1 0) Hm Hk1) as [Hlo1 Hhi1].
  rewrite <- He1, <- Hm1 in Hlo1, Hhi1.
  assert (0 <= shr_m mrs1) as Hm1pos by (rewrite Hm1; apply Z.div_pos; lia).
  assert (0 <= m2 /\ (F2Q (shr_m mrs1) e1 <= F2Q m2 e1)%Q
          /\ (F2Q m2 e1 <= F2Q (shr_m mrs1 + 1) e1)%Q) as (Hm2 & Hm2lo & Hm2hi).
  { unfold m2.
    destruct (round_nearest_even_cases (shr_m mrs1) (loc_of_shr_record mrs1))
      as [-> | ->]; (split; [lia|]); split; apply F2Q_le; lia. }
  pose proof (F2Q_succ (shr_m mrs1) e1) as Hs1.
  pose proof (pow2_le e1 (B - 53) He1B) as Hp1.
  pose proof (pow2_pos e1) as Hp1pos.
  assert (2 ^ B == 2 ^ (B - 53) * inject_Z (2 ^ 53))%Q as HpB.
  { rewrite <- pow2_Z by lia. rewrite <- pow2_add.
    by replace (B - 53 + 53) with B by lia. }
  assert (2 ^ (B + 1) == 2 ^ (B - 53) * inject_Z (2 ^ 54))%Q as HpB1.
  { rewrite <- pow2_Z by lia. rewrite <- pow2_add.
    by replace (B - 53 + 54) with (B + 1) by lia. }
  assert (2 ^ (B - 52) == 2 ^ (B - 53) * 2)%Q as HpB52.
  { change 2%Q with (inject_Z (2 ^ 1)) at 3. rewrite <- pow2_Z by lia.
    rewrite <- pow2_add. by replace (B - 53 + 1) with (B - 52) by lia. }
  pose proof (pow2_pos (B - 53)) as HpBpos.
  change (inject_Z (2 ^ 53)) with (9007199254740992 # 1)%Q in HpB.
  change (inject_Z (2 ^ 54)) with (18014398509481984 # 1)%Q in HpB1.
  assert (F2Q m2 e1 < 2 ^ (B + 1))%Q as Hm2B.
  { rewrite HpB1. rewrite HpB in HX.
    set (u := (2 ^ (B - 53))%Q) in *. set (p1 := (2 ^ e1)%Q) in *.
    set (a := F2Q m2 e1) in *. set (b := F2Q (shr_m mrs1) e1) in *.
    set (c := F2Q (shr_m mrs1 + 1) e1) in *.
    set (d := F2Q mx ex) in *. set (d' := F2Q (mx + 1) ex) in *.
    lra. }
  assert (m2 < 2 ^ (B + 1 - e1)) as Hm2lt by (apply F2Q_lt_pow2; [lia|done]).
  assert (Zdigits2 m2 + e1 <= B + 1) as Hd2.
  { pose proof (Zdigits2_le m2 (B + 1 - e1)). lia. }
  assert (fexp prec emax (Zdigits2 m2 + e1) <= B - 52) as Hf2.
  { pose proof (fexp_le _ (B + 1) Hd2). lia. }
  destruct (shr_spec (shr_record_of_loc m2 loc_Exact) e1 n2) as [Hm3 He3];
    [by rewrite shr_m_loc|].
  destruct (shr (shr_record_of_loc m2 loc_Exact) e1 n2) as [mrs3 e3].
  cbn [fst snd] in Hm3, He3. rewrite shr_m_loc in Hm3.
  assert (0 <= Z.max n2 0) as Hk2 by lia.
  assert (e3 <= B - 52) as He3B by lia.
  destruct (F2Q_div m2 e1 (Z.max n2 0) Hm2 Hk2) as [Hlo3 Hhi3].
  rewrite <- He3, <- Hm3 in Hlo3, Hhi3.
  assert (0 <= shr_m mrs3) as Hm3pos by (rewrite Hm3; apply Z.div_pos; lia).
  exists (shr_m mrs3), e3. split; [|split; [done|split; [done|]]].
  - destruct (shr_m mrs3) as [|p|p]; [done| |lia]. cbn [from_parts].
    assert ((e3 <=? emax - prec) = true) as ->
      by (apply Z.leb_le; unfold emax, prec; lia).
    done.
  - pose proof (F2Q_succ (shr_m mrs3) e3) as Hs3.
    pose proof (F2Q_succ m2 e1) as Hs2.
    pose proof (pow2_le e3 (B - 52) He3B) as Hp3.
    pose proof (pow2_pos e3) as Hp3pos.
    rewrite HpB52 in Hp3.
    apply Qabs_Qle_condition.
    set (u := (2 ^ (B - 53))%Q) in *. set (p1 := (2 ^ e1)%Q) in *.
    set (p3 := (2 ^ e3)%Q) in *.
    set (a := F2Q m2 e1) in *. set (b := F2Q (shr_m mrs1) e1) in *.
    set (c := F2Q (shr_m mrs1 + 1) e1) in *.
    set (d := F2Q mx ex) in *. set (d' := F2Q (mx + 1) ex) in *.
    set (f := F2Q (shr_m mrs3) e3) in *.
    set (f' := F2Q (shr_m mrs3 + 1) e3) in *.
    set (a' := F2Q (m2 + 1) e1) in *.
    split; lra.
Qed.


Lemma value_from_parts m e : 0 <= m -> (value (from_parts m e) == F2Q m e)%Q.
Proof.
  intros H. destruct m as [|p|p]; [|done|lia]. unfold F2Q. cbn. ring.
Qed.

(** ** The quotient of two integers *)

Lemma div_core_bound a b :
  0 < a <= b ->
  exists m e l,
    SFdiv_core_binary prec emax a 0 b 0 = (m, e, l)
    /\ 0 <= m /\ e <= -53
    /\ (F2Q m e <= inject_Z a / inject_Z b)%Q
    /\ (inject_Z a / inject_Z b <= F2Q (m + 1) e)%Q.
Proof.
  intros [Ha Hab]. unfold SFdiv_core_binary.
  pose proof (Zdigits2_mono a b (conj Ha Hab)) as Hd.
  set (e' := Z.min (fexp prec emax (Zdigits2 a + 0 - (Zdigits2 b + 0)))
               (0 - 0)).
  assert (e' <= -53) as He'.
  { unfold e', fexp, emin, prec, emax. lia. }
  assert (-1074 <= e') as He'lo.
  { unfold e', fexp, emin, prec, emax. lia. }
  destruct (0 - 0 - e') as [|s|s] eqn:Es; [lia| |lia].
  rewrite Z.shiftl_mul_pow2 by lia.
  pose proof (Z_div_mod (a * 2 ^ Zpos s) b) as Hdiv.
  destruct (Z.div_eucl (a * 2 ^ Zpos s) b) as [q r].
  destruct Hdiv as [Heq [Hr0 Hrb]]; [lia|].
  assert (0 <= q) as Hq by nia.
  exists q, e', (new_location b r). split; [done|]. split; [done|].
  split; [done|].
  assert (inject_Z a == (inject_Z b * inject_Z q + inject_Z r) * 2 ^ e')%Q
    as HA.
  { rewrite <- inject_Z_mult, <- inject_Z_plus, <- Heq.
    change ((inject_Z (a * 2 ^ Zpos s) * 2 ^ e')%Q)
      with (F2Q (a * 2 ^ Zpos s) e').
    rewrite F2Q_shift by lia. replace (e' + Zpos s) with 0 by lia.
    unfold F2Q. change ((2 ^ 0)%Q) with 1%Q. ring. }
  assert (0 < inject_Z b)%Q as HB by (rewrite <- (Zlt_Qlt 0); lia).
  assert (0 <= inject_Z r)%Q as HR0 by (rewrite <- (Zle_Qle 0); lia).
  assert (inject_Z r <= inject_Z b)%Q as HRB by (rewrite <- Zle_Qle; lia).
  pose proof (pow2_pos e') as Hp.
  assert (0 <= inject_Z r * 2 ^ e')%Q as H1.
  { apply Qmult_le_0_compat; [done|by apply Qlt_le_weak]. }
  assert (inject_Z r * 2 ^ e' <= inject_Z b * 2 ^ e')%Q as H2.
  { apply Qmult_le_compat_r; [done|by apply Qlt_le_weak]. }
  unfold F2Q. rewrite inject_Z_plus. change (inject_Z 1) with 1%Q. split.
  - apply Qle_shift_div_l; [done|]. rewrite HA.
    set (p := (2 ^ e')%Q) in *. set (B := inject_Z b) in *.
    set (R := inject_Z r) in *. set (Q_ := inject_Z q) in *.
    set (RP := (R * p)%Q) in *. 
    assert (Q_ * p * B + RP == (B * Q_ + R) * p)%Q as <- by (unfold RP; ring).
    lra.
  - apply Qle_shift_div_r; [done|]. rewrite HA.
    set (p := (2 ^ e')%Q) in *. set (B := inject_Z b) in *.
    set (R := inject_Z r) in *. set (Q_ := inject_Z q) in *.
    set (RP := (R * p)%Q) in *. set (BP := (B * p)%Q) in *.
    assert (Q_ * BP + RP == (B * Q_ + R) * p)%Q as <- by (unfold RP, BP; ring).
    assert ((Q_ + 1) * p * B == Q_ * BP + BP)%Q as -> by (unfold BP; ring).
    lra.
Qed.

Lemma truediv_bound a b :
  0 < a <= b ->
  exists m e,
    truediv a b = from_parts m e /\ 0 <= m /\ e <= -51
    /\ (Qabs (F2Q m e - inject_Z a / inject_Z b) <= 3 * 2 ^ (-52))%Q.
Proof.
  intros Hab.
  destruct (div_core_bound a b Hab) as (m & e & l & Hc & Hm & He & Hlo & Hhi).
  unfold truediv. destruct a as [|pa|pa]; [lia| |lia]. rewrite Hc.
  destruct (round_aux_bound m e l 1 (inject_Z (Zpos pa) / inject_Z b))
    as (m' & e' & Hr & Hm' & He' & Hb); [done|lia|lia|done|done| |].
  - apply Qlt_shift_div_r; [rewrite <- (Zlt_Qlt 0); lia|].
    change ((2 ^ 1)%Q) with 2%Q.
    assert (inject_Z (Zpos pa) <= inject_Z b)%Q by (rewrite <- Zle_Qle; lia).
    assert (0 < inject_Z b)%Q by (rewrite <- (Zlt_Qlt 0); lia).
    lra.
  - exists m', e'. split; [done|]. split; [done|]. split; [lia|done].
Qed.


(** ** The percentage *)

Lemma of_int_100 : of_int 100 = S754_finite false 7036874417766400 (-46).
Proof. reflexivity. Qed.

Lemma times_100 m e :
  (F2Q (m * 7036874417766400) (e + -46) == 100 * F2Q m e)%Q.
Proof.
  change 7036874417766400 with (100 * 2 ^ 46). rewrite Z.mul_assoc.
  rewrite F2Q_shift by lia. replace (e + -46 + 46) with e by lia.
  unfold F2Q. rewrite inject_Z_mult. change (inject_Z 100) with 100%Q. ring.
Qed.

Lemma mul_100_bound m e :
  0 <= m -> e <= 0 -> (F2Q m e <= 5 # 4)%Q ->
  exists m' e',
    mul (from_parts m e) (of_int 100) = from_parts m' e' /\ 0 <= m'
    /\ (Qabs (F2Q m' e' - 100 * F2Q m e) <= 3 * 2 ^ (-46))%Q.
Proof.
  intros Hm He Hx. rewrite of_int_100.
  destruct m as [|p|p]; [| |lia].
  - exists 0, 0. split; [done|]. split; [done|]. unfold F2Q.
    apply Qabs_Qle_condition. cbn. split; done.
  - cbn [from_parts mul SFmul xorb].
    change (Zpos (p * 7036874417766400)) with (Zpos p * 7036874417766400).
    pose proof (times_100 (Zpos p) e) as HX.
    destruct (round_aux_bound (Zpos p * 7036874417766400) (e + -46) loc_Exact
                7 (F2Q (Zpos p * 7036874417766400) (e + -46)))
      as (m' & e' & Hr & Hm' & He' & Hb); [lia|lia|lia|apply Qle_refl| | |].
    + apply F2Q_le. lia.
    + rewrite HX. change ((2 ^ 7)%Q) with 128%Q. lra.
    + exists m', e'. split; [done|]. split; [done|]. by rewrite <- HX.
Qed.

(** [a / b * 100] in binary64 is the percentage up to [10 ^ -12]. *)
Lemma percent_bound a b :
  0 <= a <= b -> 0 < b ->
  (Qabs (value (mul (truediv a b) (of_int 100))
         - inject_Z a / inject_Z b * 100) <= 1 # 1000000000000)%Q.
Proof.
  intros [Ha Hab] Hb. destruct (Z.eq_dec a 0) as [->|Hne].
  - apply Qabs_Qle_condition. cbn. split; done.
  - destruct (truediv_bound a b) as (m & e & -> & Hm & He & H1); [lia|].
    assert (inject_Z a / inject_Z b <= 1)%Q as Hq.
    { apply Qle_shift_div_r; [rewrite <- (Zlt_Qlt 0); lia|].
      rewrite Qmult_1_l, <- Zle_Qle. lia. }
    apply Qabs_Qle_condition in H1.
    change ((2 ^ (-52))%Q) with (1 # 4503599627370496)%Q in H1.
    destruct (mul_100_bound m e) as (m' & e' & -> & Hm' & H2); [done|lia| |].
    { set (x := F2Q m e) in *. set (q := (inject_Z a / inject_Z b)%Q) in *.
      lra. }
    rewrite value_from_parts by done.
    apply Qabs_Qle_condition in H2.
    change ((2 ^ (-46))%Q) with (1 # 70368744177664)%Q in H2.
    apply Qabs_Qle_condition.
    set (x := F2Q m e) in *. set (q := (inject_Z a / inject_Z b)%Q) in *.
    set (y := F2Q m' e') in *.
    split; lra.
Qed.

End FloatFacts.

(* ================================================================== *)
(** * The summary and the upload routes *)
(* ================================================================== *)

Module BatchFacts.
Import App.

Lemma hundredths n : (n # 100 == inject_Z n * (1 # 100))%Q.
Proof. unfold Qeq, inject_Z, Qmult. cbn. lia. Qed.

(** [round2] moves a number by at most half a hundredth. *)
Lemma round2_close x :
  (-(1 # 200) <= round2 x - x)%Q /\ (round2 x - x <= 1 # 200)%Q.
Proof.
  unfold round2.
  pose proof (Qfloor_le (x * 100)) as Hlo.
  pose proof (Qlt_floor (x * 100)) as Hhi.
  rewrite inject_Z_plus in Hhi. change (inject_Z 1) with 1%Q in Hhi.
  destruct (Qcompare (x * 100 - inject_Z (Qfloor (x * 100))) (1 # 2)) eqn:C.
  - apply Qeq_alt in C.
    destruct (Z.even (Qfloor (x * 100))); rewrite hundredths, ?inject_Z_plus;
      change (inject_Z 1) with 1%Q;
      set (f := inject_Z (Qfloor (x * 100))) in *; split; lra.
  - apply Qlt_alt in C. rewrite hundredths.
    set (f := inject_Z (Qfloor (x * 100))) in *; split; lra.
  - apply Qgt_alt in C. rewrite hundredths, inject_Z_plus.
    change (inject_Z 1) with 1%Q.
    set (f := inject_Z (Qfloor (x * 100))) in *; split; lra.
Qed.

Lemma round2_hundredths x : exists k : Z, round2 x = (k # 100)%Q.
Proof. unfold round2. by eexists. Qed.

(** The rate of [valid] out of [total]: half a hundredth and the error
    of the two float operations away from the percentage, at most. *)
Lemma rate_close (valid total : nat) :
  valid <= total -> 0 < total ->
  (Qabs (round2 (Float.value
                   (Float.mul
                      (Float.truediv (Z.of_nat valid) (Z.of_nat total))
                      (Float.of_int 100)))
         - inject_Z (Z.of_nat valid) / inject_Z (Z.of_nat total) * 100)
   <= (1 # 200) + (1 # 1000000000000))%Q.
Proof.
  intros Hle Hpos.
  pose proof (FloatFacts.percent_bound (Z.of_nat valid) (Z.of_nat total)) as H.
  apply Qabs_Qle_condition in H; [|lia..].
  set (x := Float.value _) in *.
  pose proof (round2_close x) as [H1 H2].
  apply Qabs_Qle_condition.
  set (exact := (inject_Z (Z.of_nat valid) / inject_Z (Z.of_nat total) * 100)%Q)
    in *.
  set (r := round2 x) in *. split; lra.
Qed.

Lemma total_app (l l' : log) :
  total (dashboard_data (l ++ l')%list)
  = total (dashboard_data l) + List.length l'.
Proof. cbn. by rewrite List.length_app. Qed.

(** The test [item['status'] == 'correct']. *)
Lemma is_correct_status r :
  is_correct r = bool_decide (status r = "correct").
Proof.
  unfold is_correct. destruct (String.eqb_spec (status r) "correct") as [H|H].
  - by rewrite bool_decide_eq_true_2.
  - by rewrite bool_decide_eq_false_2.
Qed.

Lemma filter_is_correct (l : log) :
  List.filter is_correct l
  = List.filter (fun r => bool_decide (status r = "correct")) l.
Proof. apply List.filter_ext. intros r. apply is_correct_status. Qed.

Lemma valid_app (l l' : log) :
  valid (dashboard_data (l ++ l')%list)
  = valid (dashboard_data l) + List.length (List.filter is_correct l').
Proof. cbn. by rewrite List.filter_app, List.length_app. Qed.

Section Routes.
Variable L : Libs.
Variable fm : form.

(** The file is taken for a PDF. *)
Definition named_pdf (f : upload) : bool :=
  nonempty (up_filename f) && endswith ".pdf" (up_filename f).

Definition requested_type : string := default "full_name" (form_pattern_type fm).

(** The records of a file, tagged. *)
Definition tagged_records (f : upload) : list result :=
  tag (secure_filename L (up_filename f))
    <$> extract_data_from_pdf L (up_pdf f) requested_type (form_search_term fm).

(** What one file adds to each of the three lists. *)
Definition file_records (f : upload) : list result :=
  if named_pdf f
  then match up_save f with Ret _ => tagged_records f | Raise _ => [] end
  else [].

Definition file_processed (f : upload) : list processed :=
  if named_pdf f
  then match up_save f with
       | Ret _ => [{| pf_filename := secure_filename L (up_filename f);
                      results_count := List.length (tagged_records f) |}]
       | Raise _ => []
       end
  else [].

Definition file_errors (f : upload) : list file_error :=
  if named_pdf f
  then match up_save f with
       | Raise e => [{| fe_filename := up_filename f; fe_error := exn_str e |}]
       | Ret _ =>
           match up_remove f with
           | Raise e =>
               [{| fe_filename := up_filename f; fe_error := exn_str e |}]
           | Ret _ => []
           end
       end
  else [{| fe_filename := up_filename f;
           fe_error := "Invalid file type (only PDF files are supported)" |}].

Lemma process_file_adds rs ps es f :
  process_file L fm (rs, ps, es) f
  = ((rs ++ file_records f)%list, (ps ++ file_processed f)%list,
     (es ++ file_errors f)%list).
Proof.
  unfold process_file, file_records, file_processed, file_errors.
  fold (named_pdf f). fold requested_type. fold (tagged_records f).
  destruct (named_pdf f); [|by rewrite !app_nil_r].
  destruct (up_save f); [|by rewrite !app_nil_r].
  destruct (up_remove f); by rewrite ?app_nil_r.
Qed.

(** The loop treats the files one by one, in order. *)
Lemma process_files files : forall rs ps es,
  foldl (process_file L fm) (rs, ps, es) files
  = ((rs ++ flat_map file_records files)%list,
     (ps ++ flat_map file_processed files)%list,
     (es ++ flat_map file_errors files)%list).
Proof.
  induction files as [|f files IH]; intros rs ps es.
  - cbn. by rewrite !app_nil_r.
  - cbn [foldl flat_map]. rewrite process_file_adds, IH.
    by rewrite <- !app_assoc.
Qed.

(** The extraction of the file's document ends in an exception, caught
    inside [extract_data_from_pdf]. *)
Definition extraction_fails (f : upload) : Prop :=
  raises (doc ← up_pdf f;
          scan_pages L requested_type (form_search_term fm) 0 doc) = true.

Lemma failed_extraction_empty f :
  extraction_fails f -> tagged_records f = [].
Proof.
  unfold extraction_fails, tagged_records, extract_data_from_pdf.
  by destruct (up_pdf f ≫= _).
Qed.

Lemma tagged_filename f r :
  In r (file_records f) ->
  filename r = Some (secure_filename L (up_filename f)).
Proof.
  unfold file_records, tagged_records.
  destruct (named_pdf f); [|done]. destruct (up_save f); [|done].
  intros H. apply list_elem_of_In, list_elem_of_fmap in H as [r' [-> _]]. done.
Qed.

End Routes.
End BatchFacts.

(* ================================================================== *)
(** * The validators: what the specification says of them *)
(* ================================================================== *)

Import StrFacts ReFacts ValidatorFacts DateFacts Contracts Registry.

Lemma pan_is_upper_validator :
  validate_and_format_pan = upper_validator pan_re "Invalid PAN number".
Proof. reflexivity. Qed.

Lemma passport_is_upper_validator :
  validate_and_format_passport
  = upper_validator passport_re "Invalid passport number".
Proof. reflexivity. Qed.

Lemma voter_id_is_upper_validator :
  validate_and_format_voter_id
  = upper_validator voter_id_re "Invalid Voter ID number".
Proof. reflexivity. Qed.

Lemma driving_license_is_upper_validator :
  validate_and_format_driving_license
  = upper_validator driving_license_re "Invalid driving license number".
Proof. reflexivity. Qed.




(** The clock of a call on 2 November 2026, the day before that of
    [Sample.clk]. *)
Definition day_before : clock :=
  {| now_year := Sample.at_ 2026 11 2; now_cmp := Sample.at_ 2026 11 2 |}.




Lemma guarded_not_str v :
  is_str v = false ->
  guarded v = match truth v with Ret _ => Ret None | Raise e => Raise e end.
Proof.
  destruct v as [| | | |[t|e]]; try done; intros _; unfold guarded;
    cbn [truth is_str negb mbind outcome_bind bind]; by rewrite orb_true_r.
Qed.

(** What the truth test of a numpy array of several elements raises. *)
Definition ambiguous : exn :=
  ValueError ("The truth value of an array with more than one element is "
              ++ "ambiguous. Use a.any() or a.all()").




(** The phone validator without the second attempt: by the time the
    test [not cleaned.startswith('+')] is repeated, [cleaned] starts with
    a plus sign. *)
Definition phone_country_coded (L : Libs) (value : pyobj) : outcome verdict :=
  g ← guarded value;
  match g with
  | None => Ret (rejected "Invalid phone number format")
  | Some value =>
      let cleaned := re_sub not_phone_char "" value in
      let cleaned :=
        if negb (startswith "+" cleaned) then "+91" ++ cleaned else cleaned in
      Ret (match pn_parse L cleaned None with
           | Ret number =>
               if pn_is_valid_number L number
               then accepted (pn_format_number L number INTERNATIONAL)
               else rejected "Invalid phone number"
           | Raise e => rejected ("Error validating phone: " ++ exn_str e)
           end)
  end.

Lemma phone_retry_unreachable L value :
  validate_and_format_phone L value = phone_country_coded L value.
Proof.
  unfold validate_and_format_phone, phone_country_coded.
  destruct (guarded value) as [[s|]|e]; cbn [mbind outcome_bind bind];
    [|done..].
  f_equal.
  set (c := re_sub not_phone_char "" s).
  assert (startswith "+" (if negb (startswith "+" c) then "+91" ++ c else c)
          = true) as Hplus.
  { destruct (startswith "+" c) eqn:E; [exact E|done]. }
  destruct (pn_parse L _ None) as [num|e]; [|done].
  cbn [mbind outcome_bind bind catch].
  destruct (pn_is_valid_number L num); [done|].
  by rewrite Hplus.
Qed.




(* ================================================================== *)
(** * Extraction, batches and the summary: what the specification says *)
(* ================================================================== *)

Import App SearchFacts BatchFacts.




(** A log of 160 records, 23 of them correct. *)
Definition log_23_of_160 : log :=
  (repeat (mk_result "ann@x.org" 1 "correct" None "email_address" None) 23
   ++ repeat (mk_result "ann@" 1 "incorrect"
                (Some "The email address is not valid.") "email_address" None)
        137)%list.

(** C8, as it stands, fails on the rate: of the 160 records of
    [log_23_of_160], 23 are correct, which is 14.375 per cent and rounds to
    14.38; the rate of the summary is 14.37, the float product being just
    below 14.375. *)
Lemma rate_of_23_in_160 :
  let s := dashboard_data log_23_of_160 in
  total s = 160 /\ valid s = 23
  /\ (inject_Z 23 / inject_Z 160 * 100 == 14375 # 1000)%Q
  /\ round2 (14375 # 1000) = (1438 # 100)%Q
  /\ success_rate s = (1437 # 100)%Q
  /\ ~ (success_rate s == 1438 # 100)%Q.
Proof.
  cbv zeta.
  assert (success_rate (dashboard_data log_23_of_160) = (1437 # 100)%Q) as ->
    by (by vm_compute).
  repeat split; done.
Qed.

(** C8, as amended: the summary is computed from the whole log:
    [total] is its length, [valid] the number of its records with status
    ["correct"], [invalid] the rest; the rate is 0 for an empty log and
    otherwise a number of hundredths that is half a hundredth, and the
    error of the float arithmetic, below [10 ^ -12], away from the
    percentage [valid / total * 100] at most; and either upload route puts
    exactly the records it found behind the log it was given, so that
    [total] and [valid] grow by their numbers. *)
Theorem summary_of_the_whole_log (extracted_data : log) :
  let s := dashboard_data extracted_data in
  let correct := List.filter (fun r => bool_decide (status r = "correct")) in
  total s = List.length extracted_data
  /\ valid s = List.length (correct extracted_data)
  /\ invalid s = total s - valid s
  /\ valid s + invalid s = total s
  /\ (total s = 0 -> (success_rate s == 0)%Q)
  /\ (0 < total s ->
      let exact := (inject_Z (Z.of_nat (valid s))
                    / inject_Z (Z.of_nat (total s)) * 100)%Q in
      (exists k : Z, success_rate s = (k # 100)%Q)
      /\ (Qabs (success_rate s - exact)
          <= (1 # 200) + (1 # 1000000000000))%Q)
  /\ (forall L files fm,
        match upload_multiple_files L files fm extracted_data with
        | (Success b, log') =>
            log' = (extracted_data ++ data b)%list
            /\ total (dashboard_data log') = total s + List.length (data b)
            /\ valid (dashboard_data log')
               = valid s + List.length (correct (data b))
        | (Failure _, log') => log' = extracted_data
        end)
  /\ (forall L file fm,
        match upload_file L file fm extracted_data with
        | (Success (results, _), log') =>
            log' = (extracted_data ++ results)%list
            /\ total (dashboard_data log') = total s + List.length results
            /\ valid (dashboard_data log')
               = valid s + List.length (correct results)
        | (Failure _, log') =>
            log' = extracted_data
            \/ exists f,
                 file = Some f /\ raises (up_remove f) = true
                 /\ log' = (extracted_data ++ tagged_records L fm f)%list
        end).
Proof.
  cbv zeta.
  assert (List.length (List.filter is_correct extracted_data)
          <= List.length extracted_data) as Hle by apply List.filter_length_le.
  split; [done|]. split; [cbn; by rewrite filter_is_correct|].
  split; [done|]. split; [cbn [dashboard_data total valid invalid]; lia|].
  split; [|split; [|split]].
  - cbn [dashboard_data total success_rate]. intros ->. reflexivity.
  - intros Hpos. split; [apply round2_hundredths|].
    cbn [dashboard_data total valid success_rate] in *.
    destruct (0 <? List.length extracted_data) eqn:E;
      [|apply Nat.ltb_ge in E; lia].
    by apply rate_close.
  - intros L files fm. unfold upload_multiple_files.
    destruct files as [[|first rest]|]; [done| |done].
    destruct (negb (nonempty (up_filename first))); [done|].
    destruct (foldl _ _ _) as [[all_results ps] es]. cbn [data].
    split; [done|]. split; [apply total_app|].
    by rewrite valid_app, filter_is_correct.
  - intros L file fm. unfold upload_file.
    destruct file as [file|]; [|by left].
    destruct (negb (nonempty (up_filename file))); [by left|].
    destruct (endswith ".pdf" (up_filename file)); [|by left].
    destruct (up_save file); [|by left].
    fold (requested_type fm). fold (tagged_records L fm file).
    destruct (up_remove file) eqn:Er.
    + split; [done|]. split; [apply total_app|].
      by rewrite valid_app, filter_is_correct.
    + right. exists file. by rewrite Er.
Qed.

(** A run of C8: one correct record out of three gives 33.33, and the
    upload of a file with two addresses makes it three out of five. *)
Lemma summary_of_the_whole_log_sample :
  let l := [ mk_result "ann@x.org" 1 "correct" None "email_address" None;
             mk_result "bob@" 1 "incorrect" (Some "not valid")
               "email_address" None;
             mk_result "cy@" 2 "incorrect" (Some "not valid")
               "email_address" None ] in
  total (dashboard_data l) = 3 /\ valid (dashboard_data l) = 1
  /\ success_rate (dashboard_data l) = (3333 # 100)%Q
  /\ match upload_file Sample.libs
             (Some {| up_filename := "a.pdf"; up_save := Ret tt;
                      up_pdf := Ret [Ret "di@x.org, ed@x.org"];
                      up_remove := Ret tt |})
             {| form_pattern_type := Some "email_address";
                form_search_term := None |} l with
     | (Success _, log') =>
         total (dashboard_data log') = 5 /\ valid (dashboard_data log') = 3
         /\ success_rate (dashboard_data log') = (6000 # 100)%Q
     | (Failure _, _) => False
     end.
Proof.
  cbv zeta.
  match goal with
  | |- context [dashboard_data ?l] =>
      pose proof (summary_of_the_whole_log l) as H
  end.
  cbv zeta in H. destruct H as (Ht & Hv & _ & _ & _ & _ & _ & Hup).
  split; [exact Ht|]. split; [exact Hv|]. split; [by vm_compute|].
  by vm_compute.
Defined.

(** A batch of three: two addresses in the first file, three in the
    second, and a third file that cannot be opened. *)
Definition readable (name : string) (pages : list string) : upload :=
  {| up_filename := name; up_save := Ret tt; up_pdf := Ret (Ret <$> pages);
     up_remove := Ret tt |}.

Definition corrupt (name : string) : upload :=
  {| up_filename := name; up_save := Ret tt;
     up_pdf := Raise (OtherError "cannot open broken document");
     up_remove := Ret tt |}.

Definition three_files : list upload :=
  [ readable "a.pdf" ["ann@x.org, bob@x.org"];
    readable "b.pdf" ["cy@x.org"; "di@x.org and ed@x.org"];
    corrupt "c.pdf" ].

Definition email_form : form :=
  {| form_pattern_type := Some "email_address"; form_search_term := None |}.

(** C5, as it stands, fails on the error list: the batch of
    [three_files] returns five records, has the third file among the
    processed ones with no result, and leaves the error list empty. *)
Lemma corrupt_file_not_in_errors :
  match fst (upload_multiple_files Sample.libs (Some three_files)
               email_form []) with
  | Success b =>
      List.length (data b) = 5
      /\ processed_files b
         = [ {| pf_filename := "a.pdf"; results_count := 2 |};
             {| pf_filename := "b.pdf"; results_count := 3 |};
             {| pf_filename := "c.pdf"; results_count := 0 |} ]
      /\ errors b = []
  | Failure _ => False
  end.
Proof. vm_compute. repeat split. Qed.

(** C5, as amended: a batch whose first file has a name is answered
    with the records, the processed files and the errors of its files
    taken one by one, in order, and the records go behind the log.  A file
    whose extraction ends in an exception adds no record and is listed as
    processed with a count of 0; it is in the error list only if saving or
    removing it raised.  Every record carries the secured name of the file
    it came from, and all of them count in the total. *)
Theorem batch_survives_failed_file
    (L : Libs) (fm : form) (first : upload) (rest : list upload)
    (extracted_data : log) :
  nonempty (up_filename first) = true ->
  let files := first :: rest in
  exists b,
    upload_multiple_files L (Some files) fm extracted_data
    = (Success b, (extracted_data ++ data b)%list)
    /\ data b = flat_map (file_records L fm) files
    /\ processed_files b = flat_map (file_processed L fm) files
    /\ errors b = flat_map file_errors files
    /\ (forall f,
          In f files -> named_pdf f = true -> up_save f = Ret tt ->
          extraction_fails L fm f ->
          file_records L fm f = []
          /\ file_processed L fm f
             = [{| pf_filename := secure_filename L (up_filename f);
                   results_count := 0 |}]
          /\ (up_remove f = Ret tt -> file_errors f = []))
    /\ (forall f r,
          In r (file_records L fm f) ->
          filename r = Some (secure_filename L (up_filename f)))
    /\ total (dashboard_data (extracted_data ++ data b)%list)
       = List.length extracted_data + List.length (data b).
Proof.
  intros Hname files. unfold upload_multiple_files. subst files.
  cbv beta iota. rewrite Hname. cbn [negb]. rewrite process_files. cbn [app].
  eexists (Build_batch _ _ _ _ _ _). split; [reflexivity|].
  cbn [data processed_files errors].
  split; [reflexivity|]. split; [reflexivity|]. split; [reflexivity|]. split.
  - intros f Hin Hpdf Hsave Hfail. split; [|split].
    + unfold file_records. rewrite Hpdf, Hsave.
      by apply failed_extraction_empty.
    + unfold file_processed. rewrite Hpdf, Hsave.
      by rewrite (failed_extraction_empty L fm f).
    + intros Hremove. unfold file_errors. by rewrite Hpdf, Hsave, Hremove.
  - split; [intros f r; apply tagged_filename | apply total_app].
Qed.

(** A run of C5 on [three_files]. *)
Lemma batch_survives_failed_file_sample :
  exists b,
    upload_multiple_files Sample.libs (Some three_files) email_form []
    = (Success b, ([] ++ data b)%list)
    /\ List.length (data b) = 5.
Proof.
  destruct (batch_survives_failed_file Sample.libs email_form
              (readable "a.pdf" ["ann@x.org, bob@x.org"])
              [readable "b.pdf" ["cy@x.org"; "di@x.org and ed@x.org"];
               corrupt "c.pdf"] [] eq_refl)
    as (b & Hb & Hd & _).
  exists b. split; [exact Hb|]. rewrite Hd. reflexivity.
Defined.

(** The same address, alone on each of two pages. *)
Definition same_email_twice : pdf_file := Ret [Ret "a@b.com"; Ret "a@b.com"].

Lemma finditer_one_email :
  finditer no_flags email_pattern "a@b.com" = ["a@b.com"].
Proof. by vm_compute. Qed.

Lemma record_of_length raw raw' page_num page_num' pt r :
  List.length (record_of raw page_num pt r)
  = List.length (record_of raw' page_num' pt r).
Proof.
  unfold record_of. destruct r as [formatted error].
  destruct (some_text formatted); [done|]. by destruct (some_text error).
Qed.

(** C2 on the code: with any e-mail package, the address on both pages
    does not yield exactly one record; with the sample package it yields
    two, one for each page, where the table-driven [extract_data] yields
    one, for page 1. *)
Theorem same_email_on_two_pages :
  (forall L,
      List.length (extract_data_from_pdf L same_email_twice "email_address" None)
      <> 1)
  /\ extract_data_from_pdf Sample.libs same_email_twice "email_address" None
     = [ mk_result "a@b.com" 1 "correct" None "email_address" None;
         mk_result "a@b.com" 2 "correct" None "email_address" None ]
  /\ extract_data Sample.libs Sample.clk "" "email_address"
       (Some ["a@b.com"; "a@b.com"]) None
     = Ret [mk_result "a@b.com" 1 "correct" None "email_address" (Some true)].
Proof.
  split; [|split; by vm_compute].
  intros L. unfold extract_data_from_pdf, same_email_twice.
  cbn [mbind outcome_bind bind scan_pages].
  change (blank "a@b.com") with false. cbn iota.
  unfold page_records.
  change (String.eqb "email_address" "full_name") with false.
  change (String.eqb "email_address" "mobile_number") with false.
  change (String.eqb "email_address" "email_address") with true.
  cbn iota. rewrite finditer_one_email. cbn [mapM mbind outcome_bind bind].
  destruct (validate_and_format_email L "a@b.com") as [r|e]; [|done].
  cbn [mbind outcome_bind bind catch List.concat]. rewrite !app_nil_r.
  rewrite List.length_app.
  rewrite (record_of_length "a@b.com" "a@b.com" 1 0). lia.
Qed.

(** C1 on the code: a page with a valid PAN yields no record from
    [extract_data_from_pdf], which has no branch for [pan_number]; the
    table-driven [extract_data] finds and accepts it. *)
Theorem pan_document_yields_nothing :
  (forall L,
      extract_data_from_pdf L (Ret [Ret "PAN ABCDE1234F"]) "pan_number" None
      = [])
  /\ (forall L clk,
        extract_data L clk "PAN ABCDE1234F" "pan_number"
          (Some ["PAN ABCDE1234F"]) None
        = Ret [mk_result "ABCDE1234F" 1 "correct" None "pan_number"
                 (Some true)]).
Proof.
  split.
  - intros L. reflexivity.
  - intros L clk. vm_compute. reflexivity.
Qed.

(** A request for a field that is in no table. *)
Definition ssn_form : form :=
  {| form_pattern_type := Some "ssn"; form_search_term := None |}.

(** C4, as it stands, fails: ["ssn"] is not a key of [PATTERNS], and
    the upload of a readable file for it is answered with success and an
    empty list of records. *)
Lemma unknown_field_succeeds :
  PATTERNS !! "ssn" = None
  /\ fst (upload_file Sample.libs
            (Some (readable "a.pdf" ["SSN 078-05-1120"])) ssn_form [])
     = Success ([], "a.pdf").
Proof. split; reflexivity. Qed.

(** C4, as amended: for an identifier that is not a key of [PATTERNS],
    [extract_data_from_pdf] returns the empty list for every document,
    the validator table has no entry, and the upload of a file that is
    saved and removed without error is answered with success, no record
    and the file name, the log unchanged. *)
Theorem unknown_field_yields_nothing
    (L : Libs) (clk : clock) (pt : string) (st : option string) :
  PATTERNS !! pt = None ->
  (forall pdf, extract_data_from_pdf L pdf pt st = [])
  /\ get_validator_for_type L clk pt = None
  /\ (forall file extracted_data,
        named_pdf file = true -> up_save file = Ret tt ->
        up_remove file = Ret tt ->
        upload_file L (Some file)
          {| form_pattern_type := Some pt; form_search_term := st |}
          extracted_data
        = (Success ([], secure_filename L (up_filename file)),
           extracted_data)).
Proof.
  intros Hpt.
  assert (forall k, is_Some (PATTERNS !! k) -> String.eqb pt k = false) as Hne.
  { intros k [r Hk]. apply String.eqb_neq. intros ->.
    rewrite Hpt in Hk. discriminate Hk. }
  assert (forall page_num text,
             page_records L pt st page_num text = Ret []) as Hpage.
  { intros page_num text. unfold page_records.
    rewrite !Hne by (by eexists). reflexivity. }
  assert (forall pdf, extract_data_from_pdf L pdf pt st = []) as Hdoc.
  { intros [doc|e]; [|reflexivity]. unfold extract_data_from_pdf.
    cbn [mbind outcome_bind bind].
    generalize 0 as page_num. induction doc as [|get_text doc IH];
      intros page_num; [reflexivity|].
    cbn [scan_pages]. destruct get_text as [text|e]; [|reflexivity].
    cbn [mbind outcome_bind bind]. rewrite Hpage.
    specialize (IH (S page_num)).
    destruct (blank text); cbn [mbind outcome_bind bind];
      by destruct (scan_pages L pt st (S page_num) doc). }
  split; [exact Hdoc|]. split.
  - unfold get_validator_for_type, validators.
    apply not_elem_of_list_to_map_1. cbn [fmap list_fmap fst].
    pose proof (Hne "full_name") as H1. pose proof (Hne "date_of_birth") as H2.
    pose proof (Hne "mobile_number") as H3.
    pose proof (Hne "telephone_number") as H4.
    pose proof (Hne "email_address") as H5.
    pose proof (Hne "aadhar_number") as H6. pose proof (Hne "pan_number") as H7.
    pose proof (Hne "passport_number") as H8.
    pose proof (Hne "voter_id_number") as H9.
    pose proof (Hne "driving_license_number") as H10.
    pose proof (Hne "bank_account_number") as H11.
    pose proof (Hne "credit_debit_card_number") as H12.
    pose proof (Hne "ip_address") as H13.
    rewrite !not_elem_of_cons.
    repeat split; try (apply not_elem_of_nil);
      apply String.eqb_neq;
      [apply H1|apply H2|apply H3|apply H4|apply H5|apply H6|apply H7|apply H8
      |apply H9|apply H10|apply H11|apply H12|apply H13]; by eexists.
  - intros file extracted_data Hname Hsave Hremove. unfold upload_file.
    unfold named_pdf in Hname. apply andb_prop in Hname as [-> ->].
    cbn [negb form_pattern_type form_search_term default].
    rewrite Hsave, Hremove, Hdoc. cbn [fmap list_fmap].
    by rewrite app_nil_r.
Qed.

(** A run of C4 for ["ssn"]. *)
Lemma unknown_field_yields_nothing_ssn :
  extract_data_from_pdf Sample.libs (Ret [Ret "SSN 078-05-1120"]) "ssn" None
  = [].
Proof.
  apply (proj1 (unknown_field_yields_nothing Sample.libs Sample.clk "ssn" None
                  eq_refl)).
Defined.

(** The second attempt of the phone validator, [phonenumbers.parse(cleaned,
    "IN")], is never made: the verdict is that of the country-coded
    number alone. *)
Theorem phone_second_attempt_never_made (L : Libs) (value : pyobj) :
  validate_and_format_phone L value = phone_country_coded L value.
Proof. apply phone_retry_unreachable. Qed.

(** The eight validators without a guard raise on a value that is not a
    string. *)
Theorem pattern_validators_raise_on_non_strings (v : pyobj) :
  is_str v = false ->
  raises (validate_and_format_aadhar v) = true
  /\ raises (validate_and_format_pan v) = true
  /\ raises (validate_and_format_passport v) = true
  /\ raises (validate_and_format_voter_id v) = true
  /\ raises (validate_and_format_driving_license v) = true
  /\ raises (validate_and_format_bank_account v) = true
  /\ raises (validate_and_format_credit_card v) = true
  /\ raises (validate_and_format_ip v) = true.
Proof. destruct v; try discriminate; intros _; repeat split. Qed.

(** On [None] the eight raise. *)
Lemma pattern_validators_raise_on_none :
  raises (validate_and_format_aadhar VNone) = true
  /\ raises (validate_and_format_pan VNone) = true
  /\ raises (validate_and_format_passport VNone) = true
  /\ raises (validate_and_format_voter_id VNone) = true
  /\ raises (validate_and_format_driving_license VNone) = true
  /\ raises (validate_and_format_bank_account VNone) = true
  /\ raises (validate_and_format_credit_card VNone) = true
  /\ raises (validate_and_format_ip VNone) = true.
Proof. exact (pattern_validators_raise_on_non_strings VNone eq_refl). Defined.

(* ================================================================== *)
(** * The validators on strings *)
(* ================================================================== *)

Module VerdictFacts.

(** The call returns, and what it returns is an acceptance (a value, no
    message, ["correct"]) or a rejection (no value, a message,
    ["wrong"]). *)
Definition settled (o : outcome verdict) : Prop :=
  exists v, o = Ret v
    /\ ((exists n, v = accepted n) \/ (exists msg, v = rejected msg)).

Lemma settled_accepted n : settled (Ret (accepted n)).
Proof. exists (accepted n). split; [done|]. left. by exists n. Qed.

Lemma settled_rejected msg : settled (Ret (rejected msg)).
Proof. exists (rejected msg). split; [done|]. right. by exists msg. Qed.

Lemma full_name_settled L s :
  settled (DataValidator.validate_and_format_full_name L (VStr s)).
Proof.
  unfold DataValidator.validate_and_format_full_name.
  rewrite guarded_str. cbn [mbind outcome_bind bind].
  destruct (String.eqb s ""); [apply settled_rejected|].
  destruct (HumanName L (strip s)) as [name|e]; [|apply settled_rejected].
  cbn [mbind outcome_bind bind catch].
  destruct (_ && _); [apply settled_rejected|].
  destruct (5 <? _); [apply settled_rejected|].
  destruct (check_name_parts name (split (hn_str name))) as [[bad|]|e] eqn:E;
    cbn [mbind outcome_bind bind catch].
  - apply check_name_parts_rejects in E as [m ->]. apply settled_rejected.
  - apply settled_accepted.
  - apply settled_rejected.
Qed.

Lemma date_settled clk s : settled (validate_and_format_date clk (VStr s)).
Proof.
  unfold validate_and_format_date.
  rewrite guarded_str. cbn [mbind outcome_bind bind].
  destruct (String.eqb s ""); [apply settled_rejected|].
  destruct (try_formats (strip s) formats) as [[d|]|e];
    cbn [mbind outcome_bind bind catch]; try apply settled_rejected.
  destruct (_ || _)%Z; [apply settled_rejected|].
  destruct (dt_gt _ _); [apply settled_rejected | apply settled_accepted].
Qed.

Lemma phone_settled L s : settled (validate_and_format_phone L (VStr s)).
Proof.
  unfold validate_and_format_phone.
  rewrite guarded_str. cbn [mbind outcome_bind bind].
  destruct (String.eqb s ""); [apply settled_rejected|].
  cbv zeta.
  destruct (pn_parse L _ None) as [number|e];
    cbn [mbind outcome_bind bind catch]; [|apply settled_rejected].
  destruct (pn_is_valid_number L number); [apply settled_accepted|].
  destruct (negb _); [|apply settled_rejected].
  destruct (pn_parse L _ (Some "IN")) as [number'|e];
    cbn [mbind outcome_bind bind catch]; [|apply settled_rejected].
  destruct (pn_is_valid_number L number');
    [apply settled_accepted | apply settled_rejected].
Qed.

Lemma email_settled L s :
  settled (DataValidator.validate_and_format_email L (VStr s)).
Proof.
  unfold DataValidator.validate_and_format_email.
  rewrite guarded_str. cbn [mbind outcome_bind bind].
  destruct (String.eqb s ""); [apply settled_rejected|].
  destruct (validate_email L (strip s)) as [valid|[]];
    first [apply settled_accepted | apply settled_rejected].
Qed.

Lemma upper_validator_settled r msg s : settled (upper_validator r msg (VStr s)).
Proof.
  unfold upper_validator. cbn [upper_nospace mbind outcome_bind bind].
  destruct (re_match _ _ _); [apply settled_accepted | apply settled_rejected].
Qed.

Lemma aadhar_settled s : settled (validate_and_format_aadhar (VStr s)).
Proof.
  unfold validate_and_format_aadhar. cbn [re_arg mbind outcome_bind bind].
  destruct (re_match _ _ _); [apply settled_accepted | apply settled_rejected].
Qed.

Lemma bank_account_settled s :
  settled (validate_and_format_bank_account (VStr s)).
Proof.
  unfold validate_and_format_bank_account. cbn [re_arg mbind outcome_bind bind].
  destruct (re_match _ _ _); [apply settled_accepted | apply settled_rejected].
Qed.

Lemma credit_card_settled s :
  settled (validate_and_format_credit_card (VStr s)).
Proof.
  unfold validate_and_format_credit_card. cbn [re_arg mbind outcome_bind bind].
  destruct (re_match _ _ _); [apply settled_accepted | apply settled_rejected].
Qed.

Lemma ip_settled s : settled (validate_and_format_ip (VStr s)).
Proof.
  unfold validate_and_format_ip. cbn [re_arg mbind outcome_bind bind].
  destruct (re_match _ _ _); [apply settled_accepted | apply settled_rejected].
Qed.

(** Every validator of the table settles every string. *)
Lemma registered_settled L clk ft validate s :
  get_validator_for_type L clk ft = Some validate -> settled (validate (VStr s)).
Proof.
  intros H. apply registered in H.
  repeat (destruct H as [H|H]); destruct H as [_ ->].
  - apply full_name_settled.
  - apply date_settled.
  - apply phone_settled.
  - apply phone_settled.
  - apply email_settled.
  - apply aadhar_settled.
  - apply (upper_validator_settled pan_re).
  - apply (upper_validator_settled passport_re).
  - apply (upper_validator_settled voter_id_re).
  - apply (upper_validator_settled driving_license_re).
  - apply bank_account_settled.
  - apply credit_card_settled.
  - apply ip_settled.
Qed.

End VerdictFacts.

(* ================================================================== *)
(** * The per-file breakdown of the summary *)
(* ================================================================== *)

Module SummaryFacts.
Import App.

(** The name a record is counted under. *)
Definition file_of (r : result) : string :=
  default "Unknown File" (filename r).

Definition of_file (f : string) (r : result) : bool :=
  String.eqb (file_of r) f.

Lemma filter_of_file f (l : log) :
  List.filter (of_file f) l
  = List.filter
      (fun r => bool_decide (default "Unknown File" (filename r) = f)) l.
Proof.
  apply List.filter_ext. intros r. unfold of_file, file_of.
  destruct (String.eqb_spec (default "Unknown File" (filename r)) f) as [H|H].
  - by rewrite bool_decide_eq_true_2.
  - by rewrite bool_decide_eq_false_2.
Qed.

Definition no_stats : file_stats :=
  {| fs_total := 0; fs_valid := 0; fs_invalid := 0 |}.

(** What the records [rs] add to the counts [st]. *)
Definition add_stats (st : file_stats) (rs : list result) : file_stats :=
  {| fs_total := fs_total st + List.length rs;
     fs_valid := fs_valid st + List.length (List.filter is_correct rs);
     fs_invalid :=
       fs_invalid st
       + (List.length rs - List.length (List.filter is_correct rs)) |}.

Lemma add_stats_nil st : add_stats st [] = st.
Proof. destruct st. unfold add_stats. cbn. f_equal; lia. Qed.

Lemma add_stats_cons st r rs :
  add_stats st (r :: rs)
  = add_stats (if is_correct r
               then {| fs_total := fs_total st + 1;
                       fs_valid := fs_valid st + 1;
                       fs_invalid := fs_invalid st |}
               else {| fs_total := fs_total st + 1;
                       fs_valid := fs_valid st;
                       fs_invalid := fs_invalid st + 1 |}) rs.
Proof.
  unfold add_stats. cbn [List.filter List.length].
  pose proof (List.filter_length_le is_correct rs).
  destruct (is_correct r); cbn [fs_total fs_valid fs_invalid List.length];
    f_equal; lia.
Qed.

(** The loop over the log, from any table [files]. *)
Lemma count_files f (l : log) : forall files,
  foldl count_file files l !! f
  = match List.filter (of_file f) l with
    | [] => files !! f
    | rs => Some (add_stats (default no_stats (files !! f)) rs)
    end.
Proof.
  induction l as [|r l IH]; intros files; [done|].
  cbn [foldl List.filter]. rewrite IH. unfold of_file at 2.
  destruct (String.eqb_spec (file_of r) f) as [<-|Hne].
  - unfold count_file at 1 2. fold (file_of r). fold no_stats.
    rewrite !lookup_insert_eq. cbn [default].
    destruct (List.filter (of_file (file_of r)) l) as [|r' rs].
    + rewrite add_stats_cons, add_stats_nil. by destruct (is_correct r).
    + by rewrite (add_stats_cons _ r).
  - unfold count_file. fold (file_of r).
    by rewrite lookup_insert_ne.
Qed.

Lemma count_files_dom (l : log) : forall files : gmap string file_stats,
  dom (foldl count_file files l)
  = dom files ∪ (list_to_set (file_of <$> l) : gset string).
Proof.
  induction l as [|r l IH]; intros files; cbn [foldl fmap list_fmap list_to_set].
  - by rewrite union_empty_r_L.
  - rewrite IH. unfold count_file. fold (file_of r).
    rewrite dom_insert_L, (comm_L (∪) {[file_of r]} (dom files)).
    by rewrite (assoc_L (∪)).
Qed.

End SummaryFacts.

(* ================================================================== *)
(** * The counters of a batch, and the two upload routes side by side *)
(* ================================================================== *)

Module UploadFacts.
Import App BatchFacts.

(** The file got as far as being saved. *)
Definition saved (f : upload) : bool :=
  named_pdf f && negb (raises (up_save f)).

(** The file was saved and searched, and removing it raised. *)
Definition removal_failed (f : upload) : bool :=
  saved f && raises (up_remove f).

Definition count {A} (p : A -> bool) (l : list A) : nat :=
  List.length (List.filter p l).

Lemma count_cons {A} (p : A -> bool) a l :
  count p (a :: l) = (if p a then 1 else 0) + count p l.
Proof. unfold count. cbn [List.filter]. by destruct (p a). Qed.

Lemma count_le {A} (p : A -> bool) l : count p l <= List.length l.
Proof. apply List.filter_length_le. Qed.

Section Routes.
Variable L : Libs.
Variable fm : form.

Lemma file_processed_length f :
  List.length (file_processed L fm f) = if saved f then 1 else 0.
Proof.
  unfold file_processed, saved.
  destruct (named_pdf f); [|done]. by destruct (up_save f).
Qed.

Lemma file_errors_length f :
  List.length (file_errors f)
  = (if saved f then 0 else 1) + (if removal_failed f then 1 else 0).
Proof.
  unfold file_errors, removal_failed, saved.
  destruct (named_pdf f); [|done]. destruct (up_save f); [|done].
  by destruct (up_remove f).
Qed.

Lemma processed_count files :
  List.length (flat_map (file_processed L fm) files) = count saved files.
Proof.
  induction files as [|f files IH]; [done|].
  cbn [flat_map]. by rewrite List.length_app, file_processed_length, count_cons, IH.
Qed.

Lemma errors_count files :
  List.length (flat_map file_errors files)
  = (List.length files - count saved files) + count removal_failed files.
Proof.
  induction files as [|f files IH]; [done|].
  cbn [flat_map List.length].
  rewrite List.length_app, file_errors_length, !count_cons, IH.
  pose proof (count_le saved files).
  destruct (saved f), (removal_failed f); lia.
Qed.

(** The counts listed for the processed files add up to the number of
    records. *)
Lemma results_counted files :
  list_sum (results_count <$> flat_map (file_processed L fm) files)
  = List.length (flat_map (file_records L fm) files).
Proof.
  induction files as [|f files IH]; [done|].
  cbn [flat_map]. rewrite fmap_app, list_sum_app, List.length_app, IH.
  f_equal. unfold file_processed, file_records.
  destruct (named_pdf f); [|done]. destruct (up_save f); [|done].
  cbn. lia.
Qed.

(** What [/upload] answers for a file with a name, in the terms of one
    round of the batch loop. *)
Lemma upload_file_round f (extracted_data : log) :
  nonempty (up_filename f) = true ->
  upload_file L (Some f) fm extracted_data
  = (match file_errors f with
     | [] => Success (file_records L fm f, secure_filename L (up_filename f))
     | e :: _ =>
         Failure (if named_pdf f then fe_error e else "Invalid file type")
     end,
     (extracted_data ++ file_records L fm f)%list).
Proof.
  intros Hname. unfold upload_file, file_errors, file_records, named_pdf.
  rewrite Hname. cbn [negb andb].
  fold requested_type. fold (tagged_records L fm f).
  destruct (endswith ".pdf" (up_filename f)); [|by rewrite app_nil_r].
  destruct (up_save f); [|by rewrite app_nil_r].
  by destruct (up_remove f).
Qed.

End Routes.

(** A file that cannot be removed once it is searched. *)
Definition stuck (name : string) (pages : list string) : upload :=
  {| up_filename := name; up_save := Ret tt; up_pdf := Ret (Ret <$> pages);
     up_remove := Raise (OtherError "file is in use") |}.

End UploadFacts.

(* ================================================================== *)
(** * The records of [extract_data_from_pdf] *)
(* ================================================================== *)

Module RecordFacts.
Import App.

(** What every record of the entry point looks like, but for its page:
    the requested field, neither ['is_valid'] nor ['filename'], and
    either ["correct"] without a message or ["incorrect"] with one. *)
Definition shaped (pt : string) (r : result) : Prop :=
  pattern_type r = pt /\ is_valid r = None /\ filename r = None
  /\ ((status r = "correct" /\ validation_message r = None)
      \/ (status r = "incorrect"
          /\ exists msg, msg <> "" /\ validation_message r = Some msg)).

(** The record was found on the page the loop calls [page_num]. *)
Definition on_page (pt : string) (page_num : nat) (r : result) : Prop :=
  page r = page_num + 1 /\ shaped pt r.

Lemma correct_record_on_page v page_num pt :
  on_page pt page_num (correct_record v page_num pt).
Proof. repeat split. by left. Qed.

Lemma nonempty_ne s : nonempty s = true -> s <> "".
Proof. unfold nonempty. by destruct (String.eqb_spec s ""). Qed.

Lemma record_of_on_page raw page_num pt r :
  Forall (on_page pt page_num) (record_of raw page_num pt r).
Proof.
  destruct r as [formatted error]. unfold record_of.
  destruct (some_text formatted).
  { constructor; [apply correct_record_on_page | constructor]. }
  destruct error as [msg|]; cbn [some_text]; [|constructor].
  destruct (nonempty msg) eqn:E; constructor; [|constructor].
  repeat split. right. split; [done|]. exists msg. split; [|done].
  by apply nonempty_ne.
Qed.

Lemma Ret_eq {A} (a b : A) : Ret a = Ret b -> a = b.
Proof. by intros [= ->]. Qed.

Lemma Forall_flat_map {A B} (P : B -> Prop) (g : A -> list B) l :
  (forall a, Forall P (g a)) -> Forall P (flat_map g l).
Proof.
  intros H. induction l as [|a l IH]; [constructor|].
  cbn [flat_map]. apply Forall_app. split; [apply H | exact IH].
Qed.

Section WithLibs.
Variable L : Libs.

Lemma person_records_on_page pt page_num ents : forall seen_names,
  Forall (on_page pt page_num) (person_records L pt page_num seen_names ents).
Proof.
  induction ents as [|ent ents IH]; intros seen_names; [constructor|].
  cbn [person_records].
  destruct (String.eqb (label_ ent) "PERSON"); [|apply IH].
  destruct (_ && _); [|apply IH].
  apply Forall_app. split; [apply record_of_on_page | apply IH].
Qed.

Lemma email_records_on_page pt page_num ms : forall rss,
  mapM (fun email_ =>
          r ← App.validate_and_format_email L email_;
          Ret (record_of email_ page_num pt r)) ms = Ret rss ->
  Forall (on_page pt page_num) (List.concat rss).
Proof.
  induction ms as [|m ms IH]; intros rss.
  - intros [= <-]. constructor.
  - cbn [mapM]. destruct (App.validate_and_format_email L m) as [r|e]; [|done].
    cbn [mbind outcome_bind bind].
    destruct (mapM _ ms) as [rss'|e]; [|done].
    cbn [mbind outcome_bind bind mret outcome_ret]. intros [= <-].
    cbn [List.concat]. apply Forall_app.
    split; [apply record_of_on_page | by apply IH].
Qed.

Lemma page_records_on_page pt st page_num text rs :
  page_records L pt st page_num text = Ret rs ->
  Forall (on_page pt page_num) rs.
Proof.
  unfold page_records.
  destruct (String.eqb pt "full_name").
  { destruct (nlp L text) as [ents|e]; [|done].
    intros [= <-]. apply person_records_on_page. }
  destruct (String.eqb pt "mobile_number").
  { intros <-%Ret_eq. apply Forall_flat_map. intros pattern.
    apply Forall_flat_map. intros number. apply record_of_on_page. }
  destruct (String.eqb pt "email_address").
  { destruct (mapM _ _) as [rss|e] eqn:E; [|done].
    intros [= <-]. by apply email_records_on_page in E. }
  destruct (_ && _); intros [= <-]; [|constructor].
  apply Forall_forall. intros r [m [-> _]]%list_elem_of_fmap.
  apply correct_record_on_page.
Qed.

(** The pages of the records of a scan that starts at [page_num]. *)
Lemma scan_pages_pages pt st pages : forall page_num rs,
  scan_pages L pt st page_num pages = Ret rs ->
  Forall (fun r => page_num < page r <= page_num + List.length pages
                   /\ shaped pt r) rs.
Proof.
  induction pages as [|get_text pages IH]; intros page_num rs.
  - intros [= <-]. constructor.
  - cbn [scan_pages]. destruct get_text as [text|e]; [|done].
    cbn [mbind outcome_bind bind].
    destruct (if blank text then _ else _) as [rs1|e] eqn:E1; [|done].
    cbn [mbind outcome_bind bind].
    destruct (scan_pages L pt st (S page_num) pages) as [rs2|e] eqn:E2; [|done].
    cbn [mbind outcome_bind bind mret outcome_ret]. intros [= <-].
    apply Forall_app. split.
    + assert (Forall (on_page pt page_num) rs1) as H1.
      { destruct (blank text); [injection E1 as <-; constructor|].
        by apply page_records_on_page in E1. }
      eapply Forall_impl; [exact H1|].
      intros r [Hp Hs]. cbn [List.length]. split; [lia | exact Hs].
    + eapply Forall_impl; [exact (IH _ _ E2)|].
      intros r [Hp Hs]. cbn [List.length] in *. split; [lia | exact Hs].
Qed.

(** One page that cannot be read ends the scan. *)
Lemma scan_pages_unreadable pt st e pages : forall page_num,
  In (Raise e) pages -> raises (scan_pages L pt st page_num pages) = true.
Proof.
  induction pages as [|get_text pages IH]; intros page_num; [done|].
  intros [->|Hin]; [done|]. cbn [scan_pages].
  destruct get_text as [text|e0]; [|done]. cbn [mbind outcome_bind bind].
  destruct (if blank text then _ else _) as [rs1|e1]; [|done].
  cbn [mbind outcome_bind bind]. specialize (IH (S page_num) Hin).
  by destruct (scan_pages L pt st (S page_num) pages).
Qed.

(** ** Page numbers *)

(** The record, found one page later. *)
Definition later (r : result) : result :=
  {| value := value r; page := S (page r); status := status r;
     validation_message := validation_message r;
     pattern_type := pattern_type r; is_valid := is_valid r;
     filename := filename r |}.

(** The record as it is numbered once a page is put in after the
    first [k] pages. *)
Definition renumber (k : nat) (r : result) : result :=
  if page r <=? k then r else later r.

(** The outcome of a page or of a scan, one page later. *)
Definition later_all (o : outcome (list result)) : outcome (list result) :=
  match o with
  | Ret rs => Ret (later <$> rs)
  | Raise e => Raise e
  end.

Lemma record_of_later raw page_num pt r :
  record_of raw (S page_num) pt r = later <$> record_of raw page_num pt r.
Proof.
  destruct r as [formatted error]. unfold record_of.
  destruct (some_text formatted); [done|]. by destruct (some_text error).
Qed.

Lemma person_records_later pt page_num ents : forall seen_names,
  person_records L pt (S page_num) seen_names ents
  = later <$> person_records L pt page_num seen_names ents.
Proof.
  induction ents as [|ent ents IH]; intros seen_names; [done|].
  cbn [person_records].
  destruct (String.eqb (label_ ent) "PERSON"); [|apply IH].
  destruct (_ && _); [|apply IH].
  by rewrite fmap_app, record_of_later, IH.
Qed.

Lemma flat_map_later {A} (g g' : A -> list result) l :
  (forall a, g' a = later <$> g a) ->
  flat_map g' l = later <$> flat_map g l.
Proof.
  intros H. induction l as [|a l IH]; [done|].
  cbn [flat_map]. by rewrite fmap_app, H, IH.
Qed.

Lemma email_records_later pt page_num ms :
  (rss ← mapM (fun email_ =>
                 r ← App.validate_and_format_email L email_;
                 Ret (record_of email_ (S page_num) pt r)) ms;
   Ret (List.concat rss))
  = later_all
      (rss ← mapM (fun email_ =>
                     r ← App.validate_and_format_email L email_;
                     Ret (record_of email_ page_num pt r)) ms;
       Ret (List.concat rss)).
Proof.
  induction ms as [|m ms IH]; [done|].
  cbn [mapM]. destruct (App.validate_and_format_email L m) as [r|e]; [|done].
  cbn [mbind outcome_bind bind] in *.
  destruct (mapM _ ms) as [rss|e]; destruct (mapM _ ms) as [rss'|e']; try done.
  cbn [mbind outcome_bind bind mret outcome_ret List.concat later_all] in *.
  injection IH as IH. by rewrite fmap_app, record_of_later, IH.
Qed.

Lemma page_records_later pt st page_num text :
  page_records L pt st (S page_num) text
  = later_all (page_records L pt st page_num text).
Proof.
  unfold page_records.
  destruct (String.eqb pt "full_name").
  { destruct (nlp L text) as [ents|e]; [|done].
    cbn [mbind outcome_bind bind mret outcome_ret later_all].
    by rewrite person_records_later. }
  destruct (String.eqb pt "mobile_number").
  { unfold later_all. f_equal.
    apply flat_map_later. intros pattern. apply flat_map_later.
    intros number. apply record_of_later. }
  destruct (String.eqb pt "email_address").
  { rewrite email_records_later.
    by destruct (mapM _ _). }
  destruct (_ && _); [|done].
  unfold later_all. f_equal. by rewrite <- list_fmap_compose.
Qed.

Lemma scan_pages_later pt st pages : forall page_num,
  scan_pages L pt st (S page_num) pages
  = later_all (scan_pages L pt st page_num pages).
Proof.
  induction pages as [|get_text pages IH]; intros page_num; [done|].
  cbn [scan_pages]. destruct get_text as [text|e]; [|done].
  cbn [mbind outcome_bind bind]. rewrite IH.
  destruct (blank text).
  - cbn [mbind outcome_bind bind].
    by destruct (scan_pages L pt st (S page_num) pages).
  - rewrite page_records_later.
    destruct (page_records L pt st page_num text) as [rs1|e]; [|done].
    cbn [mbind outcome_bind bind later_all].
    destruct (scan_pages L pt st (S page_num) pages) as [rs2|e]; [|done].
    cbn [mbind outcome_bind bind mret outcome_ret later_all].
    by rewrite fmap_app.
Qed.

(** The scan of two runs of pages, one after the other. *)
Lemma scan_pages_app pt st pre post : forall page_num,
  scan_pages L pt st page_num (pre ++ post)%list
  = (rs ← scan_pages L pt st page_num pre;
     rs' ← scan_pages L pt st (page_num + List.length pre) post;
     Ret (rs ++ rs')%list).
Proof.
  induction pre as [|get_text pre IH]; intros page_num.
  - cbn [app scan_pages List.length mbind outcome_bind bind].
    rewrite Nat.add_0_r. by destruct (scan_pages L pt st page_num post).
  - cbn [app scan_pages List.length]. destruct get_text as [text|e]; [|done].
    cbn [mbind outcome_bind bind].
    destruct (if blank text then _ else _) as [rs1|e]; [|done].
    cbn [mbind outcome_bind bind]. rewrite IH.
    replace (page_num + S (List.length pre)) with (S page_num + List.length pre)
      by lia.
    destruct (scan_pages L pt st (S page_num) pre) as [rs2|e]; [|done].
    cbn [mbind outcome_bind bind].
    destruct (scan_pages L pt st _ post) as [rs3|e]; [|done].
    cbn [mbind outcome_bind bind mret outcome_ret]. by rewrite List.app_assoc.
Qed.

End WithLibs.
End RecordFacts.

(* ================================================================== *)
(** * The validators local to app.py *)
(* ================================================================== *)

Module LocalValidatorFacts.
Import App StrFacts ReFacts ValidatorFacts.

(** ** Mobile numbers *)

(** The digits of the number, less a leading [91]. *)
Definition national (number : string) : string :=
  let digits := sfilter is_digit number in
  if startswith "91" digits then drop 2 digits else digits.

(** What the validator makes of the number it dials. *)
Definition dialled (L : Libs) (number : string)
    : option string * option string :=
  catch
    (parsed_number ← pn_parse L number None;
     if pn_is_valid_number L parsed_number
     then Ret (Some (pn_format_number L parsed_number E164), None)
     else Ret (None, Some "Invalid mobile number"))
    (fun e => (None, Some (exn_str e))).

Lemma digits_no_plus d : sall is_digit d = true -> startswith "+" d = false.
Proof.
  destruct d as [|c d]; [done|]. cbn [sall startswith].
  intros [Hc _]%andb_true_iff. rewrite andb_true_r.
  by destruct c as [[] [] [] [] [] [] [] []].
Qed.

Lemma startswith_drop p : forall s,
  startswith p s = true -> s = p ++ drop (String.length p) s.
Proof.
  induction p as [|a p IH]; intros s; [done|].
  destruct s as [|b s]; [done|]. cbn [startswith String.length drop].
  intros [Hab Hp]%andb_true_iff. apply Ascii.eqb_eq in Hab as ->.
  rewrite app_cons. f_equal. by apply IH.
Qed.

Lemma mobile_number_dialled L number :
  validate_and_format_mobile_number L number
  = dialled L ("+91" ++ national number).
Proof.
  unfold validate_and_format_mobile_number, dialled, national.
  change (RCls true [CDigit]) with non_digit. rewrite non_digit_cleaned.
  rewrite (digits_no_plus _ (sall_sfilter is_digit number)). cbn [negb].
  destruct (startswith "91" (sfilter is_digit number)) eqn:E; [|done].
  apply startswith_drop in E. cbn [String.length] in E.
  by rewrite E at 1.
Qed.

Lemma national_digits number : sall is_digit (national number) = true.
Proof.
  unfold national. destruct (startswith _ _).
  - apply sall_drop, sall_sfilter.
  - apply sall_sfilter.
Qed.

(** ** Names *)

Lemma split_go_blank s : sall is_space s = true -> split_go "" s = [].
Proof.
  induction s as [|c s IH]; [done|]. cbn [sall split_go].
  intros [-> Hs]%andb_true_iff. by apply IH.
Qed.

(** [[^\w\s]] *)
Definition name_keeps (c : ascii) : bool := is_word c || is_space c.

Lemma name_cleaned s :
  re_sub (RCls true [CWord; CSpace]) "" s = sfilter name_keeps s.
Proof.
  rewrite re_sub_cls. apply sfilter_ext. intros c.
  unfold cls_match, name_keeps. cbn. by destruct (is_word c), (is_space c).
Qed.

Lemma sfilter_wordless s :
  sall (fun c => negb (is_word c)) s = true ->
  sall is_space (sfilter name_keeps s) = true.
Proof.
  induction s as [|c s IH]; [done|]. cbn [sall sfilter].
  intros [Hc Hs]%andb_true_iff. unfold name_keeps at 1.
  apply negb_true_iff in Hc. rewrite Hc. cbn [orb].
  destruct (is_space c) eqn:E; [|by apply IH].
  cbn [sall]. rewrite E. by apply IH.
Qed.

Lemma sall_lstrip p s : sall p s = true -> sall p (lstrip s) = true.
Proof.
  induction s as [|c s IH]; [done|]. cbn [lstrip].
  destruct (is_space c); [|done]. cbn [sall].
  intros [_ Hs]%andb_true_iff. by apply IH.
Qed.

Lemma sall_rstrip p s : sall p s = true -> sall p (rstrip s) = true.
Proof.
  induction s as [|c s IH]; [done|]. cbn [sall rstrip].
  intros [Hc Hs]%andb_true_iff. specialize (IH Hs).
  destruct (rstrip s) as [|d t].
  - destruct (is_space c); [done|]. cbn [sall]. by rewrite Hc.
  - cbn [sall] in *. by rewrite Hc, IH.
Qed.

Lemma sall_strip p s : sall p s = true -> sall p (strip s) = true.
Proof. intros H. by apply sall_rstrip, sall_lstrip. Qed.

End LocalValidatorFacts.

(* ================================================================== *)
(** * [extract_data]: one record for each distinct match *)
(* ================================================================== *)

Module DistinctFacts.
Import App VerdictFacts.

(** [unseen] keeps the first occurrence of every value not seen before,
    and returns the set grown by what it kept. *)
Lemma unseen_spec ms : forall seen vs seen',
  unseen seen ms = (vs, seen') ->
  NoDup vs
  /\ (forall v, v ∈ vs <-> v ∈ ms /\ v ∉ seen)
  /\ seen' = seen ∪ list_to_set ms.
Proof.
  induction ms as [|m ms IH]; intros seen vs seen'; cbn [unseen].
  - intros [= <- <-]. split; [constructor|]. split.
    + intros v. split; [by intros ?%elem_of_nil | by intros [?%elem_of_nil _]].
    + cbn [list_to_set]. by rewrite union_empty_r_L.
  - cbn [list_to_set]. destruct (bool_decide_reflect (m ∈ seen)) as [Hin|Hout].
    + intros H. destruct (IH _ _ _ H) as (Hnd & Hvs & ->).
      split; [exact Hnd|]. split.
      * intros v. rewrite Hvs, elem_of_cons. split; [tauto|].
        intros [[->|Hv] Hn]; [done | tauto].
      * apply set_eq. intros v.
        rewrite !elem_of_union, elem_of_singleton. split; [tauto|].
        intros [Hv|[->|Hv]]; tauto.
    + destruct (unseen ({[m]} ∪ seen) ms) as [vs0 seen0] eqn:E.
      intros [= <- <-]. destruct (IH _ _ _ E) as (Hnd & Hvs & ->).
      split; [|split].
      * constructor; [|exact Hnd]. rewrite Hvs, elem_of_union, elem_of_singleton.
        tauto.
      * intros v. rewrite !elem_of_cons, Hvs, elem_of_union, elem_of_singleton.
        split.
        -- intros [->|[Hv Hn]]; [tauto|]. split; [tauto|]. tauto.
        -- intros [[->|Hv] Hn]; [tauto|].
           destruct (decide (v = m)) as [->|Hne]; [tauto|]. right. tauto.
      * apply set_eq. intros v.
        rewrite !elem_of_union, elem_of_singleton. tauto.
Qed.

(** The values kept are as many as the set has grown by. *)
Lemma unseen_size ms seen vs seen' :
  unseen seen ms = (vs, seen') -> size seen' = size seen + List.length vs.
Proof.
  revert seen vs seen'.
  induction ms as [|m ms IH]; intros seen vs seen'; cbn [unseen].
  - intros [= <- <-]. cbn. lia.
  - destruct (bool_decide_reflect (m ∈ seen)) as [Hin|Hout]; [apply IH|].
    destruct (unseen ({[m]} ∪ seen) ms) as [vs0 seen0] eqn:E.
    intros [= <- <-]. apply IH in E. rewrite E.
    rewrite size_union by (apply disjoint_singleton_l; exact Hout).
    rewrite size_singleton. cbn [List.length]. lia.
Qed.

Lemma mapM_length {A B} (g : A -> outcome B) l : forall bs,
  mapM g l = Ret bs -> List.length bs = List.length l.
Proof.
  induction l as [|a l IH]; intros bs; cbn [mapM].
  - by intros [= <-].
  - destruct (g a) as [b|e]; [|done]. cbn [mbind outcome_bind bind].
    destruct (mapM g l) as [bs'|e]; [|done].
    cbn [mbind outcome_bind bind mret outcome_ret]. intros [= <-].
    cbn [List.length]. f_equal. by apply IH.
Qed.

Lemma mapM_Forall {A B} (g : A -> outcome B) (P : B -> Prop) l :
  (forall a, exists b, g a = Ret b /\ P b) ->
  exists bs, mapM g l = Ret bs /\ Forall P bs.
Proof.
  intros Hg. induction l as [|a l (bs & IH & Hbs)]; cbn [mapM].
  - exists []. by split.
  - destruct (Hg a) as (b & -> & Hb). rewrite IH. exists (b :: bs).
    split; [done|]. by constructor.
Qed.

(** The record lies on one of the [pages] pages from [page_num] on. *)
Definition found (page_num pages : nat) (r : result) : Prop :=
  page_num <= page r < page_num + pages.

(** A record taken as it was found. *)
Definition taken (pt : string) (r : result) : Prop :=
  pattern_type r = pt /\ filename r = None /\ status r = "correct"
  /\ is_valid r = Some true /\ validation_message r = None.

(** A record that went through a validator, if the field has one:
    ['is_valid'] says whether the status is ["correct"], and the status is
    ["correct"] without a message or ["wrong"] with one. *)
Definition judged (pt : string) (r : result) : Prop :=
  pattern_type r = pt /\ filename r = None
  /\ ((status r = "correct" /\ is_valid r = Some true
       /\ validation_message r = None)
      \/ (status r = "wrong" /\ is_valid r = Some false
          /\ exists msg, validation_message r = Some msg)).

Lemma custom_pages_spec pattern pt page_texts : forall seen page_num,
  let rs := custom_pages pattern pt seen page_num page_texts in
  NoDup (value <$> rs)
  /\ Forall (fun r => (value r ∉ seen)
                      /\ found page_num (List.length page_texts) r
                      /\ taken pt r) rs
  /\ size seen + List.length rs
     = size (seen ∪ ⋃ ((fun t => list_to_set (finditer IGNORECASE pattern t))
                         <$> page_texts) : gset string).
Proof.
  induction page_texts as [|text rest IH]; intros seen page_num; cbv zeta.
  { cbn. split; [constructor|]. split; [constructor|].
    rewrite union_empty_r_L. lia. }
  cbn [custom_pages].
  destruct (unseen seen (finditer IGNORECASE pattern text)) as [vs seen'] eqn:E.
  destruct (unseen_spec _ _ _ _ E) as (Hnd & Hvs & Hseen).
  pose proof (unseen_size _ _ _ _ E) as Hsize.
  destruct (IH seen' (S page_num)) as (IHnd & IHall & IHsize).
  rewrite fmap_app, <- list_fmap_compose.
  change (value ∘ _) with (@id string). rewrite list_fmap_id.
  split; [|split].
  - apply NoDup_app. split; [exact Hnd|]. split; [|exact IHnd].
    intros v Hv [r [-> Hr]]%list_elem_of_fmap.
    apply (proj1 (Forall_forall _ _) IHall) in Hr as [Hn _].
    apply Hn. rewrite Hseen, elem_of_union, elem_of_list_to_set.
    right. by apply Hvs.
  - apply Forall_app. split.
    + apply Forall_forall. intros r [v [-> Hv]]%list_elem_of_fmap.
      unfold found, taken. cbn. split; [by apply Hvs|]. by split; [lia|].
    + eapply Forall_impl; [exact IHall|]. intros r (Hn & Hf & Hj).
      split; [|split; [|exact Hj]].
      * intros Hin. apply Hn. rewrite Hseen, elem_of_union. by left.
      * unfold found in *. cbn [List.length]. lia.
  - rewrite List.length_app, length_fmap, fmap_cons, union_list_cons.
    rewrite (assoc_L (∪)), <- Hseen, <- IHsize, Hsize. lia.
Qed.

Section WithLibs.
Variable L : Libs.
Variable clk : clock.

(** One validated match. *)
Lemma validated_result_judged pt validator_ page_num v :
  validator_ = get_validator_for_type L clk pt ->
  exists r,
    validated_result validator_ pt page_num v = Ret r
    /\ page r = page_num /\ judged pt r.
Proof.
  intros ->. unfold validated_result.
  destruct (get_validator_for_type L clk pt) as [validate|] eqn:E.
  - destruct (registered_settled L clk pt validate v E)
      as (vd & -> & [[n ->]|[msg ->]]);
      cbn [mbind outcome_bind bind accepted rejected]; eexists;
      (split; [reflexivity|]); (split; [reflexivity|]);
      (split; [reflexivity|]); (split; [reflexivity|]).
    + by left.
    + right. split; [done|]. split; [done|]. by eexists.
  - eexists. split; [reflexivity|]. split; [reflexivity|].
    split; [reflexivity|]. split; [reflexivity|]. by left.
Qed.

Lemma pattern_pages_spec pattern pt page_texts : forall seen page_num,
  exists rs,
    pattern_pages pattern (get_validator_for_type L clk pt) pt seen page_num
      page_texts = Ret rs
    /\ Forall (fun r => found page_num (List.length page_texts) r
                        /\ judged pt r) rs
    /\ size seen + List.length rs
       = size (seen ∪ ⋃ ((fun t => list_to_set
                                     (strip <$> finditer MULTILINE pattern t))
                           <$> page_texts) : gset string).
Proof.
  induction page_texts as [|text rest IH]; intros seen page_num.
  { exists []. split; [done|]. split; [constructor|].
    cbn. rewrite union_empty_r_L. lia. }
  cbn [pattern_pages].
  destruct (unseen seen (strip <$> finditer MULTILINE pattern text))
    as [vs seen'] eqn:E.
  destruct (unseen_spec _ _ _ _ E) as (_ & _ & Hseen).
  pose proof (unseen_size _ _ _ _ E) as Hsize.
  destruct (mapM_Forall
              (validated_result (get_validator_for_type L clk pt) pt page_num)
              (fun r => page r = page_num /\ judged pt r) vs)
    as (rs1 & Hrs1 & Hall1).
  { intros v. by apply validated_result_judged. }
  destruct (IH seen' (S page_num)) as (rs2 & Hrs2 & Hall2 & IHsize).
  rewrite Hrs1, Hrs2. cbn [mbind outcome_bind bind mret outcome_ret].
  exists (rs1 ++ rs2)%list. split; [done|]. split.
  - apply Forall_app. split.
    + eapply Forall_impl; [exact Hall1|]. intros r [Hp Hj].
      split; [|exact Hj]. unfold found. cbn [List.length]. lia.
    + eapply Forall_impl; [exact Hall2|]. intros r [Hf Hj].
      split; [|exact Hj]. unfold found in *. cbn [List.length]. lia.
  - rewrite List.length_app, (mapM_length _ _ _ Hrs1).
    rewrite fmap_cons, union_list_cons.
    rewrite (assoc_L (∪)), <- Hseen, <- IHsize, Hsize. lia.
Qed.

End WithLibs.
End DistinctFacts.

(* ================================================================== *)
(** * Dates: what is turned down at once, and what is accepted *)
(* ================================================================== *)

Module CalendarFacts.
Import StrFacts ReFacts DateFacts.

(** The value, stripped, starts with a digit. *)
Definition leading_digit (s : string) : bool :=
  match strip s with
  | String c _ => is_digit c
  | EmptyString => false
  end.

(** Each of the eight formats starts with [%d], [%m] or [%Y], and none
    of the three reads anything but a digit first (or, for [%d], a
    space). *)
Lemma first_directive_fails it more f c rest :
  it = Fd \/ it = Fm \/ it = FY ->
  is_digit c = false -> is_space c = false ->
  parse_items (it :: more) f (None, String c rest) = [].
Proof.
  intros Hit Hd Hs. cbn [parse_items].
  assert (rmatch IGNORECASE (item_regex it) (None, String c rest) = [])
    as Hr; [|by rewrite Hr].
  destruct Hit as [-> | [-> | ->]];
    destruct c as [[] [] [] [] [] [] [] []]; try discriminate; reflexivity.
Qed.

Lemma strip_starts s : starts_nonblank (strip s) = true.
Proof. apply rstrip_starts, lstrip_starts. Qed.

Lemma try_formats_no_digit s :
  leading_digit s = false -> try_formats (strip s) formats = Ret None.
Proof.
  unfold leading_digit. pose proof (strip_starts s) as Hs.
  destruct (strip s) as [|c rest]; [intros _; by vm_compute|].
  intros Hd. cbn [starts_nonblank] in Hs. apply negb_true_iff in Hs.
  unfold formats. cbn [try_formats].
  rewrite !strptime_no_parse; [done|..];
    apply first_directive_fails; auto.
Qed.

End CalendarFacts.

(* ================================================================== *)
(** * Bank account numbers: the count of digits decides *)
(* ================================================================== *)

Module AccountFacts.
Import StrFacts ReFacts ValidatorFacts.

Lemma digit_not_eol fl prev c rest :
  is_digit c = true -> at_eol fl (prev, String c rest) = false.
Proof.
  intros H. unfold at_eol. cbn [snd].
  by destruct c as [[] [] [] [] [] [] [] []].
Qed.

(** A run of [need] to [fuel] digits inside a text of digits ends at
    the end of the text exactly when the text has [need] to [fuel]
    characters. *)
Lemma rep_go_digits_end fl fuel : forall need prev s,
  sall is_digit s = true ->
  (exists q, In q (rep_go (rmatch fl digit) fuel need (prev, s))
             /\ at_eol fl q = true)
  <-> need <= String.length s <= fuel.
Proof.
  assert (forall need prev s,
            sall is_digit s = true ->
            (exists q, In q (if need =? 0 then [(prev, s)] else [])
                       /\ at_eol fl q = true)
            <-> need = 0 /\ s = "") as Hstop.
  { intros need prev s Hs. split.
    - intros (q & Hq & He). destruct need; [|done]. destruct Hq as [<-|[]].
      split; [done|]. destruct s as [|c s]; [done|].
      cbn [sall] in Hs. apply andb_prop in Hs as [Hc _].
      by rewrite digit_not_eol in He.
    - intros [-> ->]. exists (prev, ""). split; [by left | done]. }
  induction fuel as [|fuel IH]; intros need prev s Hs.
  - cbn [rep_go app]. rewrite Hstop by done.
    split; [intros [-> ->]; cbn; lia|]. intros [H1 H2].
    destruct s as [|c s]; cbn [String.length] in *; [|lia].
    split; [lia | done].
  - rewrite rep_go_S. destruct s as [|c s].
    + cbn [rmatch snd digit flat_map app]. rewrite Hstop by done.
      cbn [String.length]. split; [intros [-> _]; lia | intros ?; split; [lia|done]].
    + cbn [sall] in Hs. apply andb_prop in Hs as [Hc Hs].
      change (rmatch fl digit (prev, String c s))
        with (if cls_match fl false [CDigit] c then [(Some c, s)] else []).
      rewrite cls_digit, Hc.
      cbn [flat_map]. rewrite app_nil_r. cbn [String.length]. split.
      * intros (q & Hq & He). apply in_app_or in Hq as [Hq|Hq].
        -- assert (pred need <= String.length s <= fuel) as Hk.
           { apply (IH (pred need) (Some c) s Hs). by exists q. }
           lia.
        -- exfalso.
           assert (need = 0 /\ String c s = "") as [_ ?]; [|done].
           apply (Hstop need prev (String c s)).
           { cbn [sall]. by rewrite Hc, Hs. }
           by exists q.
      * intros Hk.
        destruct (proj2 (IH (pred need) (Some c) s Hs)) as (q & Hq & He);
          [lia|].
        exists q. split; [|done]. apply in_or_app. by left.
Qed.

Lemma re_match_digit_run lo hi d :
  sall is_digit d = true ->
  is_Some (re_match no_flags (rseq [RBol; between lo hi digit; REol]) d)
  <-> lo <= String.length d <= hi.
Proof.
  intros Hd. rewrite re_match_is_Some, rmatch_anchored.
  rewrite <- (rep_go_digits_end no_flags hi lo None d Hd).
  change (rmatch no_flags (between lo hi digit) (None, d))
    with (rep_go (rmatch no_flags digit) hi lo (None, d)).
  split.
  - intros Hne. destruct (List.filter _ _) as [|q l] eqn:E; [done|].
    exists q. apply List.filter_In. rewrite E. by left.
  - intros (q & Hq & He) Hnil.
    assert (In q (List.filter (at_eol no_flags)
                    (rep_go (rmatch no_flags digit) hi lo (None, d)))) as Hin
      by (by apply List.filter_In).
    by rewrite Hnil in Hin.
Qed.

Lemma bank_account_eval s :
  validate_and_format_bank_account (VStr s)
  = Ret (if (8 <=? String.length (sfilter is_digit s))
            && (String.length (sfilter is_digit s) <=? 18)
         then accepted (sfilter is_digit s)
         else rejected "Invalid bank account number").
Proof.
  unfold validate_and_format_bank_account.
  cbn [re_arg mbind outcome_bind bind]. rewrite non_digit_cleaned.
  pose proof (re_match_digit_run 8 18 (sfilter is_digit s)
                (sall_sfilter is_digit s)) as H.
  fold bank_account_re in H.
  destruct (re_match no_flags bank_account_re (sfilter is_digit s)) as [m|].
  - destruct (proj1 H) as [H8 H18]; [by eexists|].
    apply Nat.leb_le in H8, H18. by rewrite H8, H18.
  - destruct (8 <=? _) eqn:E8; [|done]. destruct (_ <=? 18) eqn:E18; [|done].
    apply Nat.leb_le in E8, E18.
    destruct (proj2 H) as [m Hm]; [lia | done].
Qed.

End AccountFacts.

(* ================================================================== *)
(** * PAN numbers: what the scan finds, the validator accepts *)
(* ================================================================== *)

Module PanFacts.
Import App StrFacts ReFacts ValidatorFacts.

(** Every match the scan reports is the match of the pattern at some
    position of the subject. *)
Lemma scan_matches fl r s : forall prev skip gap gm,
  In gm (fst (scan fl r prev s skip gap)) ->
  exists p q, match_at fl r p = Some (snd gm, q).
Proof.
  induction s as [|c s IH]; intros prev skip gap gm.
  - destruct skip; [|done]. cbn [scan].
    destruct (match_at fl r (prev, "")) as [[m q]|] eqn:E; [|done].
    intros [<-|[]]. by eauto.
  - destruct skip as [|k]; cbn [scan]; [|apply IH].
    destruct (match_at fl r (prev, String c s)) as [[m q]|] eqn:E; [|apply IH].
    match goal with
    | |- context [scan fl r (Some c) s ?k ?g] =>
        specialize (IH (Some c) k g);
        destruct (scan fl r (Some c) s k g) as [ms tl]
    end.
    cbn [fst] in *. intros [<-|Hin]; [by eauto | by apply IH].
Qed.

Lemma finditer_matches fl r s m :
  In m (finditer fl r s) -> exists p q, match_at fl r p = Some (m, q).
Proof.
  unfold finditer. intros [gm [-> Hgm]]%list_elem_of_In%list_elem_of_fmap.
  apply list_elem_of_In in Hgm. by apply scan_matches in Hgm.
Qed.

(** Five capitals, four digits, one capital. *)
Definition pan_shape (m : string) : Prop :=
  String.length m = 10
  /\ sall is_upper (take 5 m) = true
  /\ sall is_digit (take 4 (drop 5 m)) = true
  /\ sall is_upper (drop 9 m) = true.

(** [\b[A-Z]{5}[0-9]{4}[A-Z]{1}\b], the entry of [PATTERNS]. *)
Definition pan_pattern : regex :=
  rseq [ RWordB; times 5 (rng "A" "Z"); times 4 (rng "0" "9");
         times 1 (rng "A" "Z"); RWordB ].

Lemma cls_upper c : cls_match MULTILINE false [CRange "A" "Z"] c = is_upper c.
Proof. unfold cls_match. cbn. by rewrite !orb_false_r. Qed.

Lemma cls_09 fl c : cls_match fl false [CRange "0" "9"] c = is_digit c.
Proof.
  unfold cls_match. cbn. rewrite !orb_false_r. unfold is_digit.
  destruct (ignorecase fl); [|by rewrite orb_false_r].
  by destruct c as [[] [] [] [] [] [] [] []].
Qed.

Lemma cls_upper_plain c :
  cls_match no_flags false [CRange "A" "Z"] c = is_upper c.
Proof. unfold cls_match. cbn. by rewrite !orb_false_r. Qed.

Lemma flat_map_one {A B} (g : A -> list B) a : flat_map g [a] = g a.
Proof. cbn. by rewrite app_nil_r. Qed.

Lemma take_take n : forall m s, n <= m -> take n (take m s) = take n s.
Proof.
  induction n as [|n IH]; intros m s H; [by destruct (take m s)|].
  destruct m as [|m]; [lia|]. destruct s as [|c s]; [done|].
  cbn [take]. f_equal. apply IH. lia.
Qed.

Lemma take_0 s : take 0 s = "".
Proof. by destruct s. Qed.

Lemma drop_take a : forall b s, drop a (take b s) = take (b - a) (drop a s).
Proof.
  induction a as [|a IH]; intros b s.
  - cbn [drop]. by rewrite Nat.sub_0_r.
  - destruct b as [|b]; [cbn [Nat.sub]; by rewrite !take_0|].
    destruct s as [|c s]; [cbn [take drop Nat.sub]; by destruct (b - a)|].
    cbn [take drop Nat.sub]. apply IH.
Qed.

Lemma Some_pair_fst {A B} (a a' : A) (b b' : B) :
  Some (a, b) = Some (a', b') -> a = a'.
Proof. by intros [= -> _]. Qed.

Lemma pan_match_shape prev s m q :
  match_at MULTILINE pan_pattern (prev, s) = Some (m, q) -> pan_shape m.
Proof.
  unfold match_at, pan_pattern, rseq, rng.
  rewrite rmatch_seq.
  change (rmatch MULTILINE RWordB (prev, s))
    with (if xorb (word_before (prev, s)) (word_after (prev, s))
          then [(prev, s)] else []).
  destruct (xorb _ _); [|done]. rewrite flat_map_one, rmatch_seq.
  rewrite rmatch_times_cls.
  destruct ((5 <=? String.length s) && _) eqn:E5; [|done].
  rewrite flat_map_one, rmatch_seq, rmatch_times_cls.
  destruct ((4 <=? String.length (drop 5 s)) && _) eqn:E4; [|done].
  rewrite flat_map_one, rmatch_seq, rmatch_times_cls.
  destruct ((1 <=? String.length (drop 4 (drop 5 s))) && _) eqn:E1; [|done].
  rewrite flat_map_one.
  match goal with
  | |- context [rmatch MULTILINE RWordB ?p] =>
      change (rmatch MULTILINE RWordB p)
        with (if xorb (word_before p) (word_after p) then [p] else [])
  end.
  destruct (xorb _ _); [|done]. intros <-%Some_pair_fst. cbn [snd].
  apply andb_prop in E5 as [L5 U5], E4 as [L4 D4], E1 as [L1 U1].
  apply Nat.leb_le in L5, L4, L1.
  rewrite !drop_drop in *. rewrite !length_drop in *.
  cbn [Nat.add] in *.
  rewrite (sall_ext _ _ _ cls_upper) in U5.
  rewrite (sall_ext _ _ _ cls_upper) in U1.
  rewrite (sall_ext _ _ _ (cls_09 MULTILINE)) in D4.
  rewrite consumed_drop by lia.
  unfold pan_shape.
  rewrite length_take, !drop_take, !take_take by lia.
  split; [lia|]. by split; [|split].
Qed.

Definition upper_or_09 (c : ascii) : bool := is_upper c || is_digit c.

Lemma upper_or_09_l c : is_upper c = true -> upper_or_09 c = true.
Proof. unfold upper_or_09. by intros ->. Qed.

Lemma upper_or_09_r c : is_digit c = true -> upper_or_09 c = true.
Proof. unfold upper_or_09. intros ->. by rewrite orb_true_r. Qed.

Lemma pan_shape_chars m : pan_shape m -> sall upper_or_09 m = true.
Proof.
  intros (_ & U5 & D4 & U1).
  rewrite <- (take_drop 5 m), <- (take_drop 4 (drop 5 m)), drop_drop.
  rewrite !sall_app. cbn [Nat.add].
  rewrite (sall_impl _ _ _ upper_or_09_l U5).
  rewrite (sall_impl _ _ _ upper_or_09_r D4).
  by rewrite (sall_impl _ _ _ upper_or_09_l U1).
Qed.

Lemma smap_id (f : ascii -> ascii) (p : ascii -> bool) s :
  (forall c, p c = true -> f c = c) -> sall p s = true -> smap f s = s.
Proof.
  intros Hf. induction s as [|c s IH]; [done|]. cbn [sall smap].
  intros [Hc Hs]%andb_prop. by rewrite (Hf c Hc), IH.
Qed.

Lemma upper_or_09_upper c : upper_or_09 c = true -> upper_char c = c.
Proof. by destruct c as [[] [] [] [] [] [] [] []]. Qed.

Lemma upper_or_09_space c :
  upper_or_09 c = true -> negb (Ascii.eqb c " ") = true.
Proof. by destruct c as [[] [] [] [] [] [] [] []]. Qed.

(** A text of that shape is a PAN for the validator, as it stands. *)
Lemma pan_shape_accepted m :
  pan_shape m -> validate_and_format_pan (VStr m) = Ret (accepted m).
Proof.
  intros Hm. pose proof (pan_shape_chars m Hm) as Hc.
  destruct Hm as (Hlen & U5 & D4 & U1).
  unfold validate_and_format_pan. cbn [upper_nospace mbind outcome_bind bind].
  unfold upper. rewrite (smap_id _ _ _ upper_or_09_upper Hc).
  unfold remove_spaces.
  rewrite (sfilter_id _ _ (sall_impl _ _ _ upper_or_09_space Hc)).
  destruct (re_match no_flags pan_re m) eqn:E; [done|]. exfalso.
  assert (is_Some (re_match no_flags pan_re m)) as [? Hs]; [|congruence].
  apply re_match_is_Some. unfold pan_re, rseq, rng.
  rewrite rmatch_seq.
  change (rmatch no_flags RBol (None, m)) with [(@None ascii, m)].
  rewrite flat_map_one, rmatch_seq, rmatch_times_cls.
  rewrite (sall_ext _ _ _ cls_upper_plain), U5, (proj2 (Nat.leb_le 5 _))
    by lia.
  cbn [andb]. rewrite flat_map_one, rmatch_seq, rmatch_times_cls.
  rewrite (sall_ext _ _ _ (cls_09 no_flags)), D4, length_drop,
    (proj2 (Nat.leb_le 4 _)) by lia.
  cbn [andb]. rewrite flat_map_one, rmatch_seq, rmatch_times_cls.
  rewrite !drop_drop, !length_drop. cbn [Nat.add].
  rewrite (take_all 1 (drop 9 m)) by (rewrite length_drop; lia).
  rewrite (sall_ext _ _ _ cls_upper_plain), U1, (proj2 (Nat.leb_le 1 _))
    by lia.
  cbn [andb]. rewrite flat_map_one.
  rewrite (drop_all 10 m) by lia. done.
Qed.

Lemma upper_or_09_nonblank c : upper_or_09 c = true -> nonblank c = true.
Proof. by destruct c as [[] [] [] [] [] [] [] []]. Qed.

Lemma pan_shape_strip m : pan_shape m -> strip m = m.
Proof.
  intros Hm. apply strip_id.
  exact (sall_impl _ _ _ upper_or_09_nonblank (pan_shape_chars m Hm)).
Qed.

Lemma pan_entry : PATTERNS !! "pan_number" = Some (Some pan_pattern).
Proof. reflexivity. Qed.

Lemma pan_validator L clk :
  get_validator_for_type L clk "pan_number" = Some validate_and_format_pan.
Proof. reflexivity. Qed.

(** A PAN found on a page, validated. *)
Definition valid_pan (r : result) : Prop :=
  status r = "correct" /\ is_valid r = Some true
  /\ validation_message r = None /\ pan_shape (value r).

Lemma validated_pan page_num v :
  pan_shape v ->
  exists r,
    validated_result (Some validate_and_format_pan) "pan_number" page_num v
    = Ret r
    /\ valid_pan r.
Proof.
  intros Hv. unfold validated_result. rewrite (pan_shape_accepted v Hv).
  cbn [mbind outcome_bind bind accepted].
  eexists. split; [reflexivity|]. unfold valid_pan. cbn.
  destruct v; [by destruct Hv|]. by cbn.
Qed.

Lemma pan_pages page_texts : forall seen page_num rs,
  pattern_pages pan_pattern (Some validate_and_format_pan) "pan_number" seen
    page_num page_texts = Ret rs ->
  Forall valid_pan rs.
Proof.
  induction page_texts as [|text rest IH]; intros seen page_num rs.
  { intros <-%RecordFacts.Ret_eq. constructor. }
  cbn [pattern_pages].
  destruct (unseen seen (strip <$> finditer MULTILINE pan_pattern text))
    as [vs seen'] eqn:E.
  apply DistinctFacts.unseen_spec in E as (_ & Hvs & _).
  assert (Forall pan_shape vs) as Hshape.
  { apply Forall_forall. intros v [Hv _]%Hvs.
    apply list_elem_of_fmap in Hv as [m [-> Hm]].
    apply list_elem_of_In, finditer_matches in Hm as (p & q & Hm).
    destruct p as [prev s]. apply pan_match_shape in Hm.
    by rewrite pan_shape_strip. }
  clear Hvs.
  destruct (mapM _ vs) as [rs1|e] eqn:E1; [|done].
  cbn [mbind outcome_bind bind].
  destruct (pattern_pages _ _ _ seen' (S page_num) rest) as [rs2|e] eqn:E2;
    [|done].
  cbn [mbind outcome_bind bind mret outcome_ret].
  intros <-%RecordFacts.Ret_eq. apply Forall_app. split; [|by eapply IH].
  clear E2 IH. revert rs1 E1.
  induction Hshape as [|v vs Hv _ IHvs]; intros rs1; cbn [mapM].
  - intros <-%RecordFacts.Ret_eq. constructor.
  - destruct (validated_pan page_num v Hv) as (r & -> & Hr).
    cbn [mbind outcome_bind bind].
    destruct (mapM _ vs) as [rs'|e]; [|done].
    cbn [mbind outcome_bind bind mret outcome_ret].
    intros <-%RecordFacts.Ret_eq. constructor; [exact Hr | by apply IHvs].
Qed.

End PanFacts.

(* ================================================================== *)
(** * dashboard.py: the summary cards *)
(* ================================================================== *)

Module Dashboard.
Import App SummaryFacts.

(** One entry of [formatted_data], as the route [/dashboard] builds it
    from a record of the log.  The time stamp is left out: no statistic
    reads it. *)
Record item := {
  type_ : string;
  item_value : string;
  item_page : nat;
  item_status : string;
  item_message : option string;
  item_filename : string
}.

Definition formatted_item (r : result) : item :=
  {| type_ := pattern_type r; item_value := value r; item_page := page r;
     item_status := status r; item_message := validation_message r;
     item_filename := default "Unknown File" (filename r) |}.

Record stats := {
  total_items : nat;
  valid_items : nat;
  invalid_items : nat;
  unique_files : nat;
  unique_types : nat;
  stats_rate : Q
}.

(** [Series.nunique()] of a column of strings. *)
Definition nunique (column : list string) : nat :=
  size (list_to_set column : gset string).

(** [DataVisualizer(data).create_summary_stats()] for a list of such
    entries.  The frame of an empty list has no column, and reading its
    column ['status'] raises [KeyError]; otherwise every entry has every
    key, so the column ['filename'] is there. *)
Definition create_summary_stats (data : list item) : outcome stats :=
  match data with
  | [] => Raise (KeyError "status")
  | _ :: _ =>
      let total_items := List.length data in
      let valid_items :=
        List.length
          (List.filter (fun i => String.eqb (item_status i) "correct") data) in
      let invalid_items := total_items - valid_items in
      let unique_files := nunique (item_filename <$> data) in
      let unique_types := nunique (type_ <$> data) in
      let success_rate :=
        if 0 <? total_items
        then Float.value
               (Float.mul
                  (Float.truediv (Z.of_nat valid_items) (Z.of_nat total_items))
                  (Float.of_int 100))
        else 0%Q in
      Ret {| total_items := total_items; valid_items := valid_items;
             invalid_items := invalid_items; unique_files := unique_files;
             unique_types := unique_types;
             stats_rate := round2 success_rate |}
  end.

(** The route [/dashboard]: without data it answers 404, with data it
    hands the formatted entries to [DataVisualizer]; what is returned here
    is what [create_summary_stats] then puts on the cards of the page. *)
Definition dashboard (extracted_data : log) : option (outcome stats) :=
  match extracted_data with
  | [] => None
  | _ :: _ => Some (create_summary_stats (formatted_item <$> extracted_data))
  end.

Lemma valid_formatted (l : log) :
  List.length
    (List.filter (fun i => String.eqb (item_status i) "correct")
       (formatted_item <$> l))
  = List.length (List.filter is_correct l).
Proof.
  induction l as [|r l IH]; [done|].
  cbn [fmap list_fmap List.filter]. unfold is_correct at 1.
  cbn [formatted_item item_status].
  destruct (String.eqb (status r) "correct"); cbn [List.length];
    by rewrite <- IH.
Qed.

Lemma files_formatted (l : log) :
  nunique (item_filename <$> (formatted_item <$> l))
  = files_processed (dashboard_data l).
Proof.
  unfold nunique. cbn [dashboard_data files_processed].
  rewrite <- size_dom, count_files_dom, dom_empty_L, union_empty_l_L.
  by rewrite <- list_fmap_compose.
Qed.

End Dashboard.

(* ================================================================== *)
(** * Exceptions of the e-mail package, and blanks in phone numbers *)
(* ================================================================== *)

Module FailureFacts.
Import App StrFacts Contracts.

Lemma mapM_raises {A B} (g : A -> outcome B) l a e :
  In a l -> g a = Raise e -> raises (mapM g l) = true.
Proof.
  intros Hin Ha. induction l as [|x l IH]; [done|]. cbn [mapM].
  destruct (g x) as [b|e0] eqn:Ex; [|done]. cbn [mbind outcome_bind bind].
  destruct Hin as [->|Hin]; [congruence|]. specialize (IH Hin).
  by destruct (mapM g l).
Qed.

(** A page with text whose records cannot be made ends the scan. *)
Lemma scan_pages_page_raises L pt st text pages : forall page_num,
  In (Ret text) pages -> blank text = false ->
  (forall n, raises (page_records L pt st n text) = true) ->
  raises (scan_pages L pt st page_num pages) = true.
Proof.
  induction pages as [|get_text pages IH]; intros page_num; [done|].
  intros Hin Hb Hr. cbn [scan_pages].
  destruct get_text as [text'|e]; [|done]. cbn [mbind outcome_bind bind].
  destruct Hin as [[= ->]|Hin].
  - rewrite Hb. specialize (Hr page_num).
    by destruct (page_records L pt st page_num text).
  - destruct (if blank text' then _ else _) as [rs|e]; [|done].
    cbn [mbind outcome_bind bind]. specialize (IH (S page_num) Hin Hb Hr).
    by destruct (scan_pages L pt st (S page_num) pages).
Qed.

Lemma email_raises L e :
  (forall msg, e <> EmailNotValidError msg) ->
  forall email_, validate_email L email_ = Raise e ->
  App.validate_and_format_email L email_ = Raise e.
Proof.
  intros He email_ H. unfold App.validate_and_format_email. rewrite H.
  destruct e; try done. exfalso. by eapply He.
Qed.

(** The packages of [Sample], with an e-mail package that cannot reach
    the network. *)
Definition offline : Libs :=
  {| phone_number := string;
     HumanName := Sample.sample_name;
     pn_parse := Sample.sample_parse;
     pn_is_valid_number := Sample.sample_valid;
     pn_format_number := Sample.sample_format;
     validate_email := fun _ => Raise (OtherError "name server timed out");
     nlp := Sample.sample_nlp;
     genderize := fun _ => Raise (OtherError "connection refused");
     secure_filename := fun s => s |}.

(** The phone validator reads the digits, [+] and [-] of the value and
    nothing else. *)
Lemma phone_reads_kept L s s' :
  s <> "" -> s' <> "" ->
  sfilter phone_keeps s = sfilter phone_keeps s' ->
  validate_and_format_phone L (VStr s) = validate_and_format_phone L (VStr s').
Proof.
  intros Hs Hs' H. unfold validate_and_format_phone.
  rewrite (guarded_nonempty s Hs), (guarded_nonempty s' Hs').
  cbn [mbind outcome_bind bind].
  cbv zeta. rewrite !phone_cleaned. fold phone_keeps. by rewrite H.
Qed.

End FailureFacts.

(* ================================================================== *)
(** * Further properties of the validators, the scan and the routes *)
(* ================================================================== *)

Import VerdictFacts SummaryFacts UploadFacts RecordFacts LocalValidatorFacts.
Import DistinctFacts CalendarFacts AccountFacts PanFacts Dashboard FailureFacts.

(** On a string no validator of the table raises, and what it returns
    is either a value with no message and the verdict ["correct"], or no
    value with a message and the verdict ["wrong"]. *)
Theorem validators_settle_strings
    (L : Libs) (clk : clock) (ft : string) (validate : validator)
    (s : string) :
  get_validator_for_type L clk ft = Some validate ->
  exists v,
    validate (VStr s) = Ret v
    /\ ((exists n, v = (Some n, None, "correct"))
        \/ (exists msg, v = (None, Some msg, "wrong"))).
Proof. apply registered_settled. Qed.

(** The PAN validator of the table on a lower-case number. *)
Lemma validators_settle_strings_pan :
  exists v,
    validate_and_format_pan (VStr "abcde 1234f") = Ret v
    /\ ((exists n, v = (Some n, None, "correct"))
        \/ (exists msg, v = (None, Some msg, "wrong"))).
Proof.
  exact (validators_settle_strings Sample.libs Sample.clk "pan_number"
           validate_and_format_pan "abcde 1234f" eq_refl).
Defined.

(** The entry ['files_breakdown'] of the summary: a name has an entry
    exactly when a record of the log is counted under it (its
    ['filename'], or ["Unknown File"] without one), and the entry counts
    those records: all of them, the ["correct"] ones, and the others.  The
    entry ['files_processed'] is the number of such names. *)
Theorem files_breakdown_counts (extracted_data : log) (f : string) :
  let s := dashboard_data extracted_data in
  let rs :=
    List.filter
      (fun r => bool_decide (default "Unknown File" (filename r) = f))
      extracted_data in
  let correct :=
    List.filter (fun r => bool_decide (status r = "correct")) rs in
  files_breakdown s !! f
  = match rs with
    | [] => None
    | _ :: _ =>
        Some {| fs_total := List.length rs;
                fs_valid := List.length correct;
                fs_invalid := List.length rs - List.length correct |}
    end
  /\ files_processed s
     = size (list_to_set ((fun r => default "Unknown File" (filename r))
                            <$> extracted_data) : gset string).
Proof.
  cbv zeta. cbn [dashboard_data files_breakdown files_processed].
  rewrite <- (filter_of_file f), <- filter_is_correct. split.
  - rewrite count_files, lookup_empty.
    by destruct (List.filter (of_file f) extracted_data).
  - by rewrite <- size_dom, count_files_dom, dom_empty_L, union_empty_l_L.
Qed.

(** The counters of a batch: ['total_files'] counts the files sent,
    ['successful_files'] those that were saved, and ['failed_files'] those
    that were not saved and those whose removal raised; a file that was
    saved and searched and could not be removed counts as both, so the two
    counters add up to the total only when no removal raised.  The
    ['results_count'] entries add up to the number of records. *)
Theorem batch_counters
    (L : Libs) (fm : form) (first : upload) (rest : list upload)
    (extracted_data : log) :
  nonempty (up_filename first) = true ->
  let files := first :: rest in
  exists b,
    fst (upload_multiple_files L (Some files) fm extracted_data) = Success b
    /\ total_files b = List.length files
    /\ successful_files b = count saved files
    /\ failed_files b
       = (List.length files - count saved files) + count removal_failed files
    /\ successful_files b + failed_files b
       = total_files b + count removal_failed files
    /\ list_sum (results_count <$> processed_files b) = List.length (data b).
Proof.
  intros Hname files. unfold upload_multiple_files. subst files.
  cbv beta iota. rewrite Hname. cbn [negb]. rewrite process_files. cbn [app].
  eexists (Build_batch _ _ _ _ _ _). split; [reflexivity|].
  cbn [data processed_files errors total_files successful_files failed_files].
  rewrite processed_count, errors_count, results_counted.
  pose proof (count_le saved (first :: rest)).
  repeat split; lia.
Qed.

(** A batch of two: the second file cannot be removed once searched. *)
Lemma batch_counters_stuck :
  exists b,
    fst (upload_multiple_files Sample.libs
           (Some [readable "a.pdf" ["ann@x.org"]; stuck "b.pdf" ["bob@x.org"]])
           email_form [])
    = Success b
    /\ total_files b = 2 /\ successful_files b = 2 /\ failed_files b = 1.
Proof.
  destruct (batch_counters Sample.libs email_form
              (readable "a.pdf" ["ann@x.org"]) [stuck "b.pdf" ["bob@x.org"]]
              [] eq_refl)
    as (b & Hb & Ht & Hs & Hf & _).
  exists b. split; [exact Hb|]. split; [exact Ht|].
  split; [exact Hs | exact Hf].
Defined.

(** [/upload] and [/upload-multiple] on the same file: both put the
    same records behind the log, and [/upload] answers with them exactly
    when the batch lists no error for the file.  So when removing the file
    raises, [/upload] answers with the error and the records are in the
    log all the same. *)
Theorem upload_agrees_with_batch_of_one
    (L : Libs) (fm : form) (f : upload) (extracted_data : log) :
  nonempty (up_filename f) = true ->
  exists b,
    upload_multiple_files L (Some [f]) fm extracted_data
    = (Success b, (extracted_data ++ data b)%list)
    /\ snd (upload_file L (Some f) fm extracted_data)
       = (extracted_data ++ data b)%list
    /\ (errors b = [] ->
        fst (upload_file L (Some f) fm extracted_data)
        = Success (data b, secure_filename L (up_filename f)))
    /\ (errors b <> [] ->
        exists msg, fst (upload_file L (Some f) fm extracted_data) = Failure msg)
    /\ (saved f = true -> raises (up_remove f) = true ->
        data b = tagged_records L fm f /\ errors b <> []).
Proof.
  intros Hname. rewrite upload_file_round by done.
  unfold upload_multiple_files. rewrite Hname. cbn [negb].
  rewrite process_files. cbn [app flat_map]. rewrite !app_nil_r.
  eexists (Build_batch _ _ _ _ _ _). split; [reflexivity|].
  cbn [data errors fst snd]. split; [reflexivity|]. split; [|split].
  - by intros ->.
  - destruct (file_errors f); [done|]. intros _. by eexists.
  - unfold saved, file_records, file_errors.
    destruct (named_pdf f); [|done]. destruct (up_save f); [|done].
    destruct (up_remove f); [done|]. done.
Qed.

(** A file that cannot be removed: the error is the answer, and the
    record is in the log. *)
Lemma upload_agrees_with_batch_of_one_stuck :
  exists b,
    upload_multiple_files Sample.libs (Some [stuck "b.pdf" ["bob@x.org"]])
      email_form []
    = (Success b, ([] ++ data b)%list)
    /\ List.length (data b) = 1
    /\ exists msg,
         upload_file Sample.libs (Some (stuck "b.pdf" ["bob@x.org"]))
           email_form []
         = (Failure msg, data b).
Proof.
  destruct (upload_agrees_with_batch_of_one Sample.libs email_form
              (stuck "b.pdf" ["bob@x.org"]) [] eq_refl)
    as (b & Hb & Hlog & _ & Herr & Hrec).
  destruct (Hrec eq_refl eq_refl) as [Hd He].
  destruct (Herr He) as [msg Hmsg].
  exists b. split; [exact Hb|]. split; [by rewrite Hd|].
  exists msg. rewrite <- Hmsg, <- (app_nil_l (data b)), <- Hlog.
  by destruct (upload_file _ _ _ _).
Defined.

(** Every record [extract_data_from_pdf] returns names the requested
    field, has neither ['is_valid'] nor ['filename'], lies on a page of
    the document, counted from 1, and is either ["correct"] without a
    message or ["incorrect"] with a non-empty one. *)
Theorem extracted_records_well_formed
    (L : Libs) (pdf : pdf_file) (pt : string) (st : option string)
    (r : result) :
  In r (extract_data_from_pdf L pdf pt st) ->
  exists doc,
    pdf = Ret doc
    /\ 1 <= page r <= List.length doc
    /\ pattern_type r = pt /\ is_valid r = None /\ filename r = None
    /\ ((status r = "correct" /\ validation_message r = None)
        \/ (status r = "incorrect"
            /\ exists msg, msg <> "" /\ validation_message r = Some msg)).
Proof.
  unfold extract_data_from_pdf. destruct pdf as [doc|e]; [|done].
  cbn [mbind outcome_bind bind].
  destruct (scan_pages L pt st 0 doc) as [rs|e] eqn:E; [|done].
  cbn [catch]. intros Hin. exists doc. split; [done|].
  apply scan_pages_pages in E.
  apply (proj1 (List.Forall_forall _ _) E) in Hin as [Hp Hs].
  split; [lia | exact Hs].
Qed.

(** The record of a page with one address. *)
Lemma extracted_records_well_formed_sample :
  exists doc,
    Ret [Ret "mail ann@x.org"] = Ret doc
    /\ 1 <= 1 <= List.length doc
    /\ "email_address" = "email_address"
    /\ @None bool = None /\ @None string = None
    /\ (("correct" = "correct" /\ @None string = None)
        \/ ("correct" = "incorrect"
            /\ exists msg, msg <> "" /\ None = Some msg)).
Proof.
  exact (extracted_records_well_formed Sample.libs (Ret [Ret "mail ann@x.org"])
           "email_address" None
           (mk_result "ann@x.org" 1 "correct" None "email_address" None)
           (or_introl eq_refl)).
Defined.

(** All or nothing: when one page of the document cannot be read, the
    records found on the pages before it are dropped with the exception,
    and the document yields nothing. *)
Theorem unreadable_page_drops_all
    (L : Libs) (doc : list (outcome string)) (e : exn) (pt : string)
    (st : option string) :
  In (Raise e) doc -> extract_data_from_pdf L (Ret doc) pt st = [].
Proof.
  intros Hin. unfold extract_data_from_pdf. cbn [mbind outcome_bind bind].
  apply (scan_pages_unreadable L pt st) with (page_num := 0) in Hin.
  by destruct (scan_pages L pt st 0 doc).
Qed.

(** A second page that is damaged. *)
Lemma unreadable_page_drops_all_sample :
  extract_data_from_pdf Sample.libs
    (Ret [Ret "mail ann@x.org"; Raise (OtherError "damaged page")])
    "email_address" None
  = [].
Proof.
  apply (unreadable_page_drops_all Sample.libs _ (OtherError "damaged page")).
  right. left. reflexivity.
Defined.

(** A page without text yields no record and still counts: put in
    anywhere, it leaves the records of the pages before it as they are and
    moves those of the pages behind it one page on. *)
Theorem blank_page_is_counted
    (L : Libs) (pre post : list (outcome string)) (text : string)
    (pt : string) (st : option string) :
  blank text = true ->
  extract_data_from_pdf L (Ret (pre ++ Ret text :: post)%list) pt st
  = renumber (List.length pre)
      <$> extract_data_from_pdf L (Ret (pre ++ post)%list) pt st.
Proof.
  intros Hblank. unfold extract_data_from_pdf.
  cbn [mbind outcome_bind bind]. rewrite !scan_pages_app.
  cbn [scan_pages mbind outcome_bind bind]. rewrite Hblank.
  cbn [mbind outcome_bind bind]. rewrite scan_pages_later.
  destruct (scan_pages L pt st 0 pre) as [rs|e] eqn:E1; [|done].
  cbn [mbind outcome_bind bind].
  destruct (scan_pages L pt st (0 + List.length pre) post) as [rs'|e] eqn:E2;
    [|done].
  cbn [later_all mbind outcome_bind bind mret outcome_ret catch app].
  rewrite fmap_app. f_equal.
  - apply scan_pages_pages in E1. clear E2.
    induction E1 as [|r rs [[_ Hp] _] _ IH]; [done|].
    cbn [fmap list_fmap]. rewrite <- IH. f_equal. unfold renumber.
    cbn [Nat.add] in Hp. by rewrite (proj2 (Nat.leb_le _ _) Hp).
  - apply scan_pages_pages in E2. clear E1.
    induction E2 as [|r rs' [[Hp _] _] _ IH]; [done|].
    cbn [fmap list_fmap]. rewrite <- IH. f_equal. unfold renumber.
    cbn [Nat.add] in Hp. by rewrite (proj2 (Nat.leb_gt _ _) Hp).
Qed.

(** An empty page between two pages with an address each. *)
Lemma blank_page_is_counted_sample :
  extract_data_from_pdf Sample.libs
    (Ret [Ret "ann@x.org"; Ret " "; Ret "bob@x.org"]) "email_address" None
  = renumber 1
      <$> extract_data_from_pdf Sample.libs
            (Ret [Ret "ann@x.org"; Ret "bob@x.org"]) "email_address" None.
Proof.
  exact (blank_page_is_counted Sample.libs [Ret "ann@x.org"] [Ret "bob@x.org"]
           " " "email_address" None eq_refl).
Defined.

(** [validate_and_format_mobile_number] of app.py dials every number
    as an Indian one: of an ASCII text all but the digits is removed, the
    [+] as well, so the test for a leading [+] never finds one, and what is
    handed to [phonenumbers.parse] is [+91] followed by the digits, less a
    leading [91]. *)
Theorem mobile_number_dialled_as_indian (L : Libs) (number : string) :
  isascii number = true ->
  App.validate_and_format_mobile_number L number
  = dialled L ("+91" ++ national number)
  /\ sall is_digit (national number) = true
  /\ national number
     = (if startswith "91" (sfilter is_digit number)
        then drop 2 (sfilter is_digit number) else sfilter is_digit number).
Proof.
  intros _.
  split; [apply mobile_number_dialled|]. split; [apply national_digits|done].
Qed.

(** A number of the United States, dialled as an Indian one and found
    invalid by the sample package. *)
Lemma mobile_number_dialled_as_indian_us :
  App.validate_and_format_mobile_number Sample.libs "+1 650 253 0000"
  = (None, Some "Invalid mobile number").
Proof.
  exact (eq_trans
           (proj1 (mobile_number_dialled_as_indian Sample.libs
                     "+1 650 253 0000" eq_refl))
           eq_refl).
Defined.

(** An ASCII name without a letter, a digit or an underscore is turned
    down by [validate_and_format_full_name] of app.py as empty, before the
    name parser or the genderize service is asked. *)
Theorem wordless_name_is_empty (L : Libs) (name : string) :
  isascii name = true ->
  sall (fun c => negb (is_word c)) name = true ->
  App.validate_and_format_full_name L name
  = (None, Some "Name cannot be empty").
Proof.
  intros _ H. unfold App.validate_and_format_full_name.
  rewrite name_cleaned. unfold split.
  by rewrite (split_go_blank _ (sfilter_wordless _ (sall_strip _ _ H))).
Qed.

(** Punctuation only. *)
Lemma wordless_name_is_empty_sample :
  App.validate_and_format_full_name Sample.libs " -- ?! "
  = (None, Some "Name cannot be empty").
Proof.
  exact (wordless_name_is_empty Sample.libs " -- ?! " eq_refl eq_refl).
Defined.

(** [extract_data] on a field with a pattern and with the page texts
    given: it returns, with exactly one record for each distinct matched
    text (stripped) of the document; every record lies on a page counted
    from 1, names the field, and has ['is_valid'] true with the status
    ["correct"] and no message, or false with the status ["wrong"] and a
    message. *)
Theorem extract_data_one_record_per_match
    (L : Libs) (clk : clock) (text pt : string) (pattern : regex)
    (page_texts : list string) (st : option string) :
  PATTERNS !! pt = Some (Some pattern) ->
  exists rs,
    extract_data L clk text pt (Some page_texts) st = Ret rs
    /\ List.length rs
       = size (⋃ ((fun t =>
                     list_to_set (strip <$> finditer MULTILINE pattern t))
                    <$> page_texts) : gset string)
    /\ Forall (fun r =>
                 1 <= page r <= List.length page_texts
                 /\ pattern_type r = pt /\ filename r = None
                 /\ ((status r = "correct" /\ is_valid r = Some true
                      /\ validation_message r = None)
                     \/ (status r = "wrong" /\ is_valid r = Some false
                         /\ exists msg, validation_message r = Some msg))) rs.
Proof.
  intros Hpt. unfold extract_data.
  destruct (String.eqb_spec pt "custom_search") as [->|_]; [done|].
  rewrite Hpt.
  destruct (pattern_pages_spec L clk pattern pt page_texts ∅ 1)
    as (rs & -> & Hall & Hsize).
  exists rs. split; [done|]. split.
  - rewrite union_empty_l_L, size_empty in Hsize. exact Hsize.
  - eapply Forall_impl; [exact Hall|]. intros r [Hf Hj].
    split; [unfold found in Hf; lia | exact Hj].
Qed.

(** Two pages, three matches, two distinct numbers. *)
Lemma extract_data_one_record_per_match_pan :
  exists rs,
    extract_data Sample.libs Sample.clk "" "pan_number"
      (Some ["PAN ABCDE1234F"; "see ABCDE1234F and PQRST5678U"]) None
    = Ret rs
    /\ List.length rs = 2.
Proof.
  destruct (extract_data_one_record_per_match Sample.libs Sample.clk ""
              "pan_number" _
              ["PAN ABCDE1234F"; "see ABCDE1234F and PQRST5678U"] None eq_refl)
    as (rs & Hrs & Hlen & _).
  exists rs. split; [exact Hrs|]. rewrite Hlen. by vm_compute.
Defined.

(** [extract_data] on ['custom_search']: one record for each distinct
    matched text of the document, so no value twice (texts that differ in
    case only are distinct), every record ["correct"]. *)
Theorem custom_search_table_scan
    (L : Libs) (clk : clock) (text term : string)
    (page_texts : list string) :
  exists rs,
    extract_data L clk text "custom_search" (Some page_texts) (Some term)
    = Ret rs
    /\ NoDup (value <$> rs)
    /\ List.length rs
       = size (⋃ ((fun t =>
                     list_to_set (finditer IGNORECASE (literal term) t))
                    <$> page_texts) : gset string)
    /\ Forall (fun r =>
                 1 <= page r <= List.length page_texts
                 /\ status r = "correct" /\ is_valid r = Some true
                 /\ validation_message r = None
                 /\ pattern_type r = "custom_search") rs.
Proof.
  unfold extract_data. cbn [String.eqb Ascii.eqb Bool.eqb].
  eexists. split; [reflexivity|].
  destruct (custom_pages_spec (literal term) "custom_search" page_texts ∅ 1)
    as (Hnd & Hall & Hsize).
  split; [exact Hnd|]. split.
  - rewrite union_empty_l_L, size_empty in Hsize. exact Hsize.
  - eapply Forall_impl; [exact Hall|].
    intros r (_ & Hf & Hp & _ & Hs & Hv & Hm).
    split; [unfold found in Hf; lia | done].
Qed.

(** The date validator turns down at once, as an invalid format, every
    ASCII value that does not start with a digit once stripped: each of
    its eight formats starts with a day, a month or a year in figures.  So
    a date written month first in words, which the pattern of
    ['date_of_birth'] finds, is never accepted. *)
Theorem date_must_start_with_digit (clk : clock) (s : string) :
  isascii s = true ->
  leading_digit s = false ->
  validate_and_format_date clk (VStr s)
  = Ret (None, Some "Invalid date format", "wrong").
Proof.
  intros _ H. unfold validate_and_format_date.
  destruct s as [|c s]; [done|].
  change (guarded (VStr (String c s))) with (Ret (Some (String c s))).
  cbn [mbind outcome_bind bind].
  cbv beta iota zeta. by rewrite (try_formats_no_digit _ H).
Qed.

(** A date the pattern finds and the validator turns down. *)
Lemma date_must_start_with_digit_month_first :
  finditer MULTILINE
    (default REps (default None (PATTERNS !! "date_of_birth")))
    "born Jan 5, 2020"
  = ["Jan 5, 2020"]
  /\ validate_and_format_date Sample.clk (VStr "Jan 5, 2020")
     = Ret (None, Some "Invalid date format", "wrong").
Proof.
  split; [by vm_compute|].
  exact (date_must_start_with_digit Sample.clk "Jan 5, 2020" eq_refl eq_refl).
Defined.

(** What the date validator accepts is a day of the calendar, written
    year-month-day in ten characters: the day one of the eight formats
    reads from the stripped value, its year from 1900 to the current one,
    and not after the moment of the call. *)
Theorem accepted_date_is_a_real_day
    (clk : clock) (s n : string) (msg : option string) :
  validate_and_format_date clk (VStr s) = Ret (Some n, msg, "correct") ->
  exists d,
    try_formats (strip s) formats = Ret (Some d)
    /\ n = strftime_iso d /\ String.length n = 10
    /\ date_ok (year d) (month d) (day d) = true
    /\ (1900 <= year d <= year (now_year clk))%Z
    /\ dt_gt d (now_cmp clk) = false.
Proof.
  unfold validate_and_format_date.
  rewrite guarded_str. cbn [mbind outcome_bind bind].
  destruct (String.eqb s ""); [done|].
  destruct (try_formats (strip s) formats) as [[d|]|e] eqn:E;
    cbn [mbind outcome_bind bind catch]; [|done..].
  destruct ((year d <? 1900)%Z || (year (now_year clk) <? year d)%Z) eqn:Y;
    [done|].
  destruct (dt_gt d (now_cmp clk)) eqn:F; [done|].
  intros [= <- _]. exists d.
  apply orb_false_elim in Y as [Y1 Y2].
  apply Z.ltb_ge in Y1, Y2.
  destruct (try_formats_date _ _ _ E) as [Hok _].
  repeat split; try done.
Qed.

(** Christmas 2020, day first. *)
Lemma accepted_date_is_a_real_day_sample :
  exists d,
    try_formats (strip " 25/12/2020 ") formats = Ret (Some d)
    /\ "2020-12-25" = strftime_iso d /\ String.length "2020-12-25" = 10
    /\ date_ok (year d) (month d) (day d) = true
    /\ (1900 <= year d <= year (now_year Sample.clk))%Z
    /\ dt_gt d (now_cmp Sample.clk) = false.
Proof.
  exact (accepted_date_is_a_real_day Sample.clk " 25/12/2020 " "2020-12-25"
           None eq_refl).
Defined.

(** The bank account validator looks at the digits of an ASCII value
    only: it accepts, with the digits as the formatted value, exactly when
    there are 8 to 18 of them, wherever they stand and whatever is between
    them. *)
Theorem bank_account_digit_count (s : string) :
  isascii s = true ->
  let digits := sfilter is_digit s in
  validate_and_format_bank_account (VStr s)
  = Ret (if (8 <=? String.length digits) && (String.length digits <=? 18)
         then (Some digits, None, "correct")
         else (None, Some "Invalid bank account number", "wrong")).
Proof. intros _. apply bank_account_eval. Qed.

(** An account number written in groups, and a number too short. *)
Lemma bank_account_digit_count_groups :
  validate_and_format_bank_account (VStr "A/c 0012-3456 789")
  = Ret (Some "00123456789", None, "correct")
  /\ validate_and_format_bank_account (VStr "no. 1234567")
     = Ret (None, Some "Invalid bank account number", "wrong").
Proof.
  split.
  - exact (bank_account_digit_count "A/c 0012-3456 789" eq_refl).
  - exact (bank_account_digit_count "no. 1234567" eq_refl).
Defined.

(** For PAN numbers the pattern of the scan and the validator agree:
    every record [extract_data] returns for ['pan_number'] is ["correct"],
    and its value is five capitals, four digits and a capital, which the
    validator accepts as it stands. *)
Theorem pan_candidates_all_valid
    (L : Libs) (clk : clock) (text : string) (page_texts : list string)
    (st : option string) :
  exists rs,
    extract_data L clk text "pan_number" (Some page_texts) st = Ret rs
    /\ Forall (fun r =>
                 status r = "correct" /\ is_valid r = Some true
                 /\ validation_message r = None
                 /\ pan_shape (value r)
                 /\ validate_and_format_pan (VStr (value r))
                    = Ret (Some (value r), None, "correct")) rs.
Proof.
  destruct (pattern_pages_spec L clk pan_pattern "pan_number" page_texts ∅ 1)
    as (rs & Hrs & _).
  exists rs. unfold extract_data.
  change (String.eqb "pan_number" "custom_search") with false.
  cbv iota. rewrite pan_entry. split; [exact Hrs|].
  rewrite pan_validator in Hrs. apply pan_pages in Hrs.
  eapply Forall_impl; [exact Hrs|]. intros r (Hs & Hv & Hm & Hp).
  split; [done|]. split; [done|]. split; [done|]. split; [done|].
  by apply pan_shape_accepted.
Qed.

(** The cards of the HTML dashboard and the summary of
    [/dashboard-data] show the same figures for the same log: the total,
    the valid and invalid counts, the number of files and the rate; the
    number of data types is the number of distinct fields in the log.
    Without data the route answers 404, and [create_summary_stats] itself
    would raise. *)
Theorem dashboard_cards_agree_with_summary (extracted_data : log) :
  match dashboard extracted_data with
  | None =>
      extracted_data = []
      /\ raises (create_summary_stats (formatted_item <$> extracted_data))
         = true
  | Some cards =>
      exists st,
        cards = Ret st
        /\ total_items st = total (dashboard_data extracted_data)
        /\ valid_items st = valid (dashboard_data extracted_data)
        /\ invalid_items st = invalid (dashboard_data extracted_data)
        /\ unique_files st = files_processed (dashboard_data extracted_data)
        /\ stats_rate st = success_rate (dashboard_data extracted_data)
        /\ unique_types st
           = size (list_to_set (pattern_type <$> extracted_data) : gset string)
  end.
Proof.
  destruct extracted_data as [|r l]; [done|].
  unfold dashboard, create_summary_stats.
  change (formatted_item <$> r :: l)
    with (formatted_item r :: (formatted_item <$> l)).
  cbv zeta. eexists. split; [reflexivity|].
  change (formatted_item r :: (formatted_item <$> l))
    with (formatted_item <$> r :: l).
  cbn [total_items valid_items invalid_items unique_files unique_types
       stats_rate].
  rewrite valid_formatted, files_formatted, length_fmap.
  repeat split. unfold nunique. by rewrite <- list_fmap_compose.
Qed.

(** The e-mail branch of [extract_data_from_pdf] handles
    [EmailNotValidError] only: when the e-mail package raises anything
    else on one address found on a page with text, the exception ends the
    scan and the document yields no record at all, the addresses already
    validated included. *)
Theorem email_package_failure_drops_all
    (L : Libs) (doc : list (outcome string)) (text m : string) (e : exn)
    (st : option string) :
  In (Ret text) doc -> blank text = false ->
  In m (finditer no_flags email_pattern text) ->
  validate_email L m = Raise e ->
  (forall msg, e <> EmailNotValidError msg) ->
  extract_data_from_pdf L (Ret doc) "email_address" st = [].
Proof.
  intros Hdoc Hblank Hm Hraise He. unfold extract_data_from_pdf.
  cbn [mbind outcome_bind bind].
  assert (raises (scan_pages L "email_address" st 0 doc) = true) as Hr.
  { apply (scan_pages_page_raises L "email_address" st text); [done..|].
    intros n. unfold page_records.
    change (String.eqb "email_address" "full_name") with false.
    change (String.eqb "email_address" "mobile_number") with false.
    change (String.eqb "email_address" "email_address") with true.
    cbv iota.
    match goal with
    | |- context [mapM ?g ?l] =>
        pose proof (mapM_raises g l m e Hm) as Hmap
    end.
    cbv beta in Hmap. rewrite (email_raises L e He m Hraise) in Hmap.
    specialize (Hmap eq_refl). by destruct (mapM _ _). }
  by destruct (scan_pages L "email_address" st 0 doc).
Qed.

(** An address on the first page, and no network. *)
Lemma email_package_failure_drops_all_offline :
  extract_data_from_pdf offline (Ret [Ret "ann@x.org"; Ret "no address"])
    "email_address" None
  = [].
Proof.
  apply (email_package_failure_drops_all offline _ "ann@x.org" "ann@x.org"
           (OtherError "name server timed out")).
  - left. reflexivity.
  - reflexivity.
  - left. reflexivity.
  - reflexivity.
  - intros msg. discriminate.
Defined.

(** The phone validator reads only the digits, the [+] and the [-] of
    an ASCII value: two non-empty ASCII values that differ in anything
    else, such as blanks, dots or brackets, get the same answer. *)
Theorem phone_ignores_other_characters (L : Libs) (s s' : string) :
  isascii s = true -> isascii s' = true ->
  s <> "" -> s' <> "" ->
  sfilter phone_keeps s = sfilter phone_keeps s' ->
  validate_and_format_phone L (VStr s) = validate_and_format_phone L (VStr s').
Proof. intros _ _. apply phone_reads_kept. Qed.

(** Brackets, a blank and a dot. *)
Lemma phone_ignores_other_characters_sample :
  validate_and_format_phone Sample.libs (VStr "(022) 2345.6789")
  = validate_and_format_phone Sample.libs (VStr "02223456789").
Proof.
  apply (phone_ignores_other_characters Sample.libs);
    [reflexivity | reflexivity | discriminate | discriminate | reflexivity].
Defined.

(* ================================================================== *)
(** * Pages and patterns that repeat *)
(* ================================================================== *)

Module RepeatFacts.
Import App StrFacts ReFacts RecordFacts.

(** The record as it is numbered [k] pages further on. *)
Definition pages_on (k : nat) (r : result) : result :=
  {| value := value r; page := k + page r; status := status r;
     validation_message := validation_message r;
     pattern_type := pattern_type r; is_valid := is_valid r;
     filename := filename r |}.

Lemma pages_on_0 (rs : list result) : pages_on 0 <$> rs = rs.
Proof.
  induction rs as [|r rs IH]; [done|]. cbn [fmap list_fmap] in *.
  rewrite IH. by destruct r.
Qed.

Lemma pages_on_S k (rs : list result) :
  later <$> (pages_on k <$> rs) = pages_on (S k) <$> rs.
Proof. rewrite <- list_fmap_compose. by apply list_fmap_ext. Qed.

Lemma scan_pages_on L pt st pages k : forall page_num,
  scan_pages L pt st (k + page_num) pages
  = match scan_pages L pt st page_num pages with
    | Ret rs => Ret (pages_on k <$> rs)
    | Raise e => Raise e
    end.
Proof.
  induction k as [|k IH]; intros page_num.
  - cbn [Nat.add]. destruct (scan_pages L pt st page_num pages); [|done].
    by rewrite pages_on_0.
  - cbn [Nat.add]. rewrite scan_pages_later, IH.
    destruct (scan_pages L pt st page_num pages); [|done].
    cbn [later_all]. by rewrite pages_on_S.
Qed.

Lemma document_twice L doc pt st :
  extract_data_from_pdf L (Ret (doc ++ doc)%list) pt st
  = (extract_data_from_pdf L (Ret doc) pt st
     ++ (pages_on (List.length doc)
           <$> extract_data_from_pdf L (Ret doc) pt st))%list.
Proof.
  unfold extract_data_from_pdf. cbn [mbind outcome_bind bind].
  rewrite scan_pages_app. rewrite (Nat.add_comm 0), scan_pages_on.
  by destruct (scan_pages L pt st 0 doc).
Qed.


(** ** The two mobile patterns on a ten-digit number *)

(** [(?:\+91|91)?lead\d{9}] *)
Definition mobile_pattern (lead : regex) : regex :=
  rseq [opt (RAlt (literal "+91") (literal "91")); lead; times 9 digit].

Lemma mobile_patterns_leads :
  mobile_patterns
  = [ mobile_pattern (rng "6" "9");
      mobile_pattern (RCls false [CChar "7"; CChar "8"; CChar "9"]) ].
Proof. reflexivity. Qed.

(** A literal read from a text leaves less of it. *)
Lemma rmatch_literal_shorter term : term <> "" -> forall prev s q,
  In q (rmatch no_flags (literal term) (prev, s)) ->
  String.length (snd q) < String.length s.
Proof.
  induction term as [|x term IH]; [done|]. intros _ prev s q.
  cbn [literal]. rewrite rmatch_seq. unfold chr.
  destruct s as [|c s]; [done|]. rewrite rmatch_cls.
  destruct (cls_match no_flags false [CChar x] c); [|done].
  cbn [flat_map]. rewrite app_nil_r. destruct term as [|y term].
  - cbn [literal rmatch]. intros [<-|[]]. cbn. lia.
  - intros H. apply IH in H; [|done]. cbn [String.length]. lia.
Qed.

Lemma at_least_two term prev s q :
  2 <= String.length term ->
  In q (rmatch no_flags (literal term) (prev, s)) ->
  String.length (snd q) + 2 <= String.length s.
Proof.
  destruct term as [|x [|y term]]; cbn [String.length]; [lia..|]. intros _.
  cbn [literal]. rewrite rmatch_seq. unfold chr.
  destruct s as [|c s]; [done|]. rewrite rmatch_cls.
  destruct (cls_match no_flags false [CChar x] c); [|done].
  cbn [flat_map]. rewrite app_nil_r. intros H.
  apply (rmatch_literal_shorter (String y term)) in H; [|done].
  cbn [String.length]. lia.
Qed.

(** No character of the class [lead] and nine digits in a text of
    fewer than ten characters. *)
Lemma lead_and_nine_short neg items q :
  String.length (snd q) < 10 ->
  rmatch no_flags (RSeq (RCls neg items) (times 9 digit)) q = [].
Proof.
  destruct q as [prev [|c s]]; [done|]. cbn [snd String.length]. intros H.
  rewrite rmatch_seq, rmatch_cls.
  destruct (cls_match no_flags neg items c); [|done].
  cbn [flat_map]. rewrite app_nil_r. unfold digit. rewrite rmatch_times_cls.
  assert ((9 <=? String.length s) = false) as -> by (apply Nat.leb_gt; lia).
  done.
Qed.

Lemma sall_digit_cls s :
  sall is_digit s = true -> sall (cls_match no_flags false [CDigit]) s = true.
Proof.
  intros H. eapply sall_impl; [|exact H]. intros c Hc. by rewrite cls_digit.
Qed.

(** On a ten-digit number that starts with a character of [lead], the
    pattern reads the whole number: the country code, when the number
    starts with [91], leaves too few digits. *)
Lemma mobile_pattern_whole neg items prev c s :
  String.length s = 9 -> sall is_digit s = true -> is_digit c = true ->
  cls_match no_flags neg items c = true ->
  rmatch no_flags (mobile_pattern (RCls neg items)) (prev, String c s)
  = [(after (Some c) s, "")].
Proof.
  intros Hlen Hs Hc Hlead. unfold mobile_pattern. cbn [rseq].
  rewrite rmatch_seq. unfold opt.
  change (rmatch no_flags (RRep ?r 0 (Some 1)) ?p)
    with (rep_go (rmatch no_flags r) 1 0 p).
  rewrite rep_go_S. cbn [pred Nat.eqb rep_go app].
  rewrite flat_map_app.
  match goal with
  | |- (flat_map ?f (flat_map ?g ?l) ++ _)%list = _ =>
      assert (flat_map f (flat_map g l) = []) as ->
  end.
  { rewrite flat_map_concat_map, concat_nil_Forall.
    apply Forall_map, Forall_forall. intros q Hq%list_elem_of_In.
    apply in_flat_map in Hq as (q' & Hq' & [<-|[]]).
    apply lead_and_nine_short.
    cbn [rmatch] in Hq'. apply in_app_or in Hq' as [H|H];
      apply at_least_two in H; cbn [String.length] in *; lia. }
  cbn [app flat_map]. rewrite app_nil_r, rmatch_seq, rmatch_cls, Hlead.
  cbn [flat_map]. rewrite app_nil_r. unfold digit. rewrite rmatch_times_cls.
  rewrite <- Hlen, Nat.leb_refl, take_all, drop_all by done.
  by rewrite (sall_digit_cls _ Hs).
Qed.

Lemma mobile_pattern_end neg items prev :
  match_at no_flags (mobile_pattern (RCls neg items)) (prev, "") = None.
Proof. reflexivity. Qed.

(** Characters inside the last match are passed over. *)
Lemma scan_skip fl r s : forall prev gap,
  scan fl r prev s (String.length s) gap
  = scan fl r (after prev s) "" 0 gap.
Proof.
  induction s as [|c s IH]; intros prev gap; [done|].
  cbn [String.length scan after]. apply IH.
Qed.

Lemma mobile_pattern_finds neg items c s :
  String.length s = 9 -> sall is_digit s = true -> is_digit c = true ->
  cls_match no_flags neg items c = true ->
  finditer no_flags (mobile_pattern (RCls neg items)) (String c s)
  = [String c s].
Proof.
  intros Hlen Hs Hc Hlead. unfold finditer. cbn [scan]. unfold match_at.
  rewrite mobile_pattern_whole by done. cbn [snd].
  unfold consumed. cbn [String.length]. rewrite Nat.sub_0_r.
  change (take (S (String.length s)) (String c s))
    with (String c (take (String.length s) s)).
  rewrite take_all by done. cbn [String.length Nat.sub]. rewrite Nat.sub_0_r.
  rewrite scan_skip. cbn [scan]. by rewrite mobile_pattern_end.
Qed.

Lemma digit_page_not_blank c s :
  is_digit c = true -> blank (String c s) = false.
Proof.
  intros Hc. unfold blank, strip. cbn [String.eqb orb lstrip].
  assert (is_space c = false) as Hsp
    by (by destruct c as [[] [] [] [] [] [] [] []]).
  rewrite Hsp. cbn [rstrip]. rewrite Hsp. by destruct (rstrip s).
Qed.

End RepeatFacts.

Import RepeatFacts.


